(** * The HCI transport layer (hci/src/hci_layer.c)

    A shallow embedding of the host-side HCI layer: the command
    flow-control engine (credits, command queue, pending-response list),
    the event filter, the inbound reassembly state machine and the
    start-up / shut-down lifecycle.

    The module-level variables of the C file become the fields of one
    record [hci_state], threaded explicitly through every function.  The
    collaborators the file only calls through function-pointer tables
    (HAL, vendor driver, fragmenter, btsnoop, allocator, low-power
    manager, alarms, the upper stack's callbacks) are not part of the
    file: every call into them is appended to a [trace], and what they
    hand back (bytes, allocation results, return codes) is read from
    scripts kept in the same record.

    Every function is one uninterrupted step on that record.  The lock
    around the pending-response list ([commands_pending_response_lock])
    is taken and released inside such a step, with one exception:
    [command_timed_out] keeps it on an empty list.  That one is recorded
    in the trace, and an operation that needs the lock afterwards does
    not return ([run_op]). *)

From Stdlib Require Import ZArith Lia.
From stdpp Require Import base tactics option list strings.

Local Open Scope Z_scope.

(** ** Fixed-width integers *)

Definition UINT8 (x : Z) : Z := x mod 256.
Definition UINT16 (x : Z) : Z := x mod 65536.

(** C array read [a[i]].  A read outside the array is undefined in C and
    yields 0 here, so every use is kept inside the array: [preamble[]]
    has its four cells, the event filter is entered only on an event
    long enough for what it reads ([filter_read_size] in
    [packet_is_finished], where a shorter event makes the call
    undefined), and the opcode of a command is read from the buffer the
    caller of [transmit_command] provides. *)
Definition array_get (a : list Z) (i : nat) : Z := default 0 (a !! i).

(** [memcpy(dst, src, n)] on byte arrays. *)
Definition memcpy (dst src : list Z) (n : nat) : list Z :=
  take n src ++ drop n dst.

(** ** Constants of the headers *)

Definition HCI_COMMAND_COMPLETE_EVT : Z := 0x0E.
Definition HCI_COMMAND_STATUS_EVT : Z := 0x0F.

Definition INBOUND_PACKET_TYPE_COUNT : nat := 3.
Definition PREAMBLE_BUFFER_SIZE : nat := 4.

(** Modelled from the spec: the preamble sizes of hci_internals.h
    (COMMAND 3, ACL 4, SCO 3, EVENT 2). *)
Definition HCI_COMMAND_PREAMBLE_SIZE : Z := 3.
Definition HCI_ACL_PREAMBLE_SIZE : Z := 4.
Definition HCI_SCO_PREAMBLE_SIZE : Z := 3.
Definition HCI_EVENT_PREAMBLE_SIZE : Z := 2.

Definition EPILOG_TIMEOUT_MS : Z := 3000.
Definition COMMAND_PENDING_TIMEOUT : Z := 8000.

(** The remaining header constants are not given a value anywhere in the
    file: the size of the packet header and the 16-bit message tags. *)
Class hci_headers := {
  BT_HDR_SIZE : Z;
  MSG_EVT_MASK : Z;
  MSG_HC_TO_STACK_HCI_ERR : Z;
  MSG_HC_TO_STACK_HCI_ACL : Z;
  MSG_HC_TO_STACK_HCI_SCO : Z;
  MSG_HC_TO_STACK_HCI_EVT : Z;
  MSG_STACK_TO_HC_HCI_CMD : Z;
  MSG_STACK_TO_HC_HCI_ACL : Z;
  MSG_STACK_TO_HC_HCI_SCO : Z
}.

(** Modelled from the spec: [serial_data_type_t] of hci_hal.h, the H4 type
    octets 1..4 in the order of the [preamble_sizes] table. *)
Inductive serial_data_type_t :=
  | DATA_TYPE_COMMAND
  | DATA_TYPE_ACL
  | DATA_TYPE_SCO
  | DATA_TYPE_EVENT.

Global Instance serial_data_type_eq_dec : EqDecision serial_data_type_t.
Proof. solve_decision. Defined.

Definition serial_code (type : serial_data_type_t) : Z :=
  match type with
  | DATA_TYPE_COMMAND => 1
  | DATA_TYPE_ACL => 2
  | DATA_TYPE_SCO => 3
  | DATA_TYPE_EVENT => 4
  end.

Definition PACKET_TYPE_TO_INBOUND_INDEX (type : serial_data_type_t) : Z :=
  serial_code type - 2.
Definition PACKET_TYPE_TO_INDEX (type : serial_data_type_t) : Z :=
  serial_code type - 1.

(** Indexing a C array with a signed index: [None] outside the array. *)
Definition at_index {A} (a : list A) (i : Z) : option A :=
  if decide (0 <= i) then a !! Z.to_nat i else None.

Definition RETRIEVE_ACL_LENGTH (preamble : list Z) : Z :=
  Z.lor (Z.shiftl (array_get preamble 3) 8) (array_get preamble 2).

Definition preamble_sizes : list Z :=
  [ HCI_COMMAND_PREAMBLE_SIZE; HCI_ACL_PREAMBLE_SIZE;
    HCI_SCO_PREAMBLE_SIZE; HCI_EVENT_PREAMBLE_SIZE ].

Definition outbound_event_types `{hci_headers} : list Z :=
  [ MSG_HC_TO_STACK_HCI_ERR; MSG_HC_TO_STACK_HCI_ACL;
    MSG_HC_TO_STACK_HCI_SCO; MSG_HC_TO_STACK_HCI_EVT ].

(** ** Data model *)

(** [BT_HDR]: the four 16-bit header fields and the byte array behind
    [data]. *)
Record BT_HDR := mk_BT_HDR {
  event : Z;
  len : Z;
  offset : Z;
  layer_specific : Z;
  data : list Z
}.

Inductive receive_state_t :=
  | BRAND_NEW
  | PREAMBLE
  | BODY
  | IGNORE
  | FINISHED.

Global Instance receive_state_eq_dec : EqDecision receive_state_t.
Proof. solve_decision. Defined.

Record packet_receive_data_t := mk_receive {
  state : receive_state_t;
  bytes_remaining : Z;
  preamble : list Z;
  index : Z;
  buffer : option BT_HDR
}.

(** Callbacks of the upper stack are identified by a number; a NULL
    function pointer is [None]. *)
Definition command_complete_cb := nat.
Definition command_status_cb := nat.

Record waiting_command_t := mk_waiting {
  opcode : Z;
  complete_callback : option command_complete_cb;
  status_callback : option command_status_cb;
  context : Z;
  command : BT_HDR
}.

(** ** Calls into the collaborators *)

Inductive log_priority := LOG_ERROR | LOG_WARN | LOG_INFO | LOG_DEBUG.

Inductive alarm_name := epilog_alarm | command_response_alarm.

Inductive queue_name := the_command_queue | the_packet_queue.

Inductive vendor_opcode :=
  | VENDOR_CHIP_POWER_CONTROL
  | VENDOR_CONFIGURE_FIRMWARE
  | VENDOR_CONFIGURE_SCO
  | VENDOR_DO_EPILOG.

Inductive work_item := work_preload | work_postload | work_epilog.

Inductive call :=
  | ALOG (priority : log_priority) (func : string)
  | alarm_set (a : alarm_name) (ms : Z)
  | alarm_cancel (a : alarm_name)
  | alarm_free (a : alarm_name)
  | buffer_alloc (size : Z)
  | buffer_free (packet : BT_HDR)
  | osi_free (wait_entry : waiting_command_t)
  | call_complete_callback (cb : command_complete_cb) (packet : BT_HDR) (ctx : Z)
  | call_status_callback (cb : command_status_cb) (status : Z) (cmd : BT_HDR) (ctx : Z)
  | wake_assert
  | fragment_and_dispatch (packet : BT_HDR)
  | transmit_done
  | reassemble_and_dispatch (packet : BT_HDR)
  | btsnoop_capture (packet : BT_HDR) (is_received : bool)
  | btsnoop_open (path : string)
  | btsnoop_close
  | hal_init
  | hal_open
  | hal_close
  | hal_packet_finished (type : serial_data_type_t)
  | hal_transmit_data (type : option serial_data_type_t) (bytes : list Z)
  | vendor_open
  | vendor_close
  | vendor_set_callback (op : vendor_opcode)
  | vendor_send_command (op : vendor_opcode) (power_on : bool)
  | vendor_send_async_command (op : vendor_opcode)
  | controller_init
  | controller_begin_acl_size_fetch
  | fragmenter_init
  | fragmenter_cleanup
  | low_power_init
  | low_power_cleanup
  | hci_inject_open
  | hci_inject_close
  | mutex_init
  | mutex_destroy
  | mutex_lock
  | queue_register_dequeue (q : queue_name)
  | queue_free (q : queue_name)
  | buffer_free_entry (wait_entry : waiting_command_t)
  | list_free
  | thread_post (w : work_item)
  | thread_stop
  | thread_join
  | thread_free
  | preload_finished (success : bool)
  | transmit_finished (packet : BT_HDR) (all_sent : bool)
  | dispatch_upward (tag : Z) (packet : BT_HDR)
  | process_killed.

(** ** The state of the layer

    The first eight fields are the file's static variables.  [thread]
    records whether the pointer is non-NULL; the two queues and the
    pending-response list are given by their contents, oldest first.
    [hal_rx] is what the HAL has buffered per serial type (indexed like
    [preamble_sizes]); [alloc_script] is the outcome of the successive
    allocation requests ([true] = success, and success once the script
    is used up); [vendor_script] is what the successive
    [send_async_command] calls return (0 once used up). *)
Record hci_state := mk_state {
  command_credits : Z;
  firmware_is_configured : bool;
  has_shut_down : bool;
  thread : bool;
  command_queue : list waiting_command_t;
  packet_queue : list BT_HDR;
  commands_pending_response : list waiting_command_t;
  incoming_packets : list packet_receive_data_t;
  hal_rx : list (list Z);
  alloc_script : list bool;
  vendor_script : list Z;
  trace : list call
}.

Definition set_command_credits (v : Z) (st : hci_state) : hci_state :=
  mk_state v (firmware_is_configured st) (has_shut_down st) (thread st)
    (command_queue st) (packet_queue st) (commands_pending_response st)
    (incoming_packets st) (hal_rx st) (alloc_script st) (vendor_script st)
    (trace st).

Definition set_firmware_is_configured (v : bool) (st : hci_state) : hci_state :=
  mk_state (command_credits st) v (has_shut_down st) (thread st)
    (command_queue st) (packet_queue st) (commands_pending_response st)
    (incoming_packets st) (hal_rx st) (alloc_script st) (vendor_script st)
    (trace st).

Definition set_has_shut_down (v : bool) (st : hci_state) : hci_state :=
  mk_state (command_credits st) (firmware_is_configured st) v (thread st)
    (command_queue st) (packet_queue st) (commands_pending_response st)
    (incoming_packets st) (hal_rx st) (alloc_script st) (vendor_script st)
    (trace st).

Definition set_thread (v : bool) (st : hci_state) : hci_state :=
  mk_state (command_credits st) (firmware_is_configured st) (has_shut_down st)
    v (command_queue st) (packet_queue st) (commands_pending_response st)
    (incoming_packets st) (hal_rx st) (alloc_script st) (vendor_script st)
    (trace st).

Definition set_command_queue (v : list waiting_command_t) (st : hci_state)
  : hci_state :=
  mk_state (command_credits st) (firmware_is_configured st) (has_shut_down st)
    (thread st) v (packet_queue st) (commands_pending_response st)
    (incoming_packets st) (hal_rx st) (alloc_script st) (vendor_script st)
    (trace st).

Definition set_packet_queue (v : list BT_HDR) (st : hci_state) : hci_state :=
  mk_state (command_credits st) (firmware_is_configured st) (has_shut_down st)
    (thread st) (command_queue st) v (commands_pending_response st)
    (incoming_packets st) (hal_rx st) (alloc_script st) (vendor_script st)
    (trace st).

Definition set_commands_pending_response (v : list waiting_command_t)
    (st : hci_state) : hci_state :=
  mk_state (command_credits st) (firmware_is_configured st) (has_shut_down st)
    (thread st) (command_queue st) (packet_queue st) v
    (incoming_packets st) (hal_rx st) (alloc_script st) (vendor_script st)
    (trace st).

Definition set_incoming_packets (v : list packet_receive_data_t)
    (st : hci_state) : hci_state :=
  mk_state (command_credits st) (firmware_is_configured st) (has_shut_down st)
    (thread st) (command_queue st) (packet_queue st)
    (commands_pending_response st) v (hal_rx st) (alloc_script st)
    (vendor_script st) (trace st).

Definition set_hal_rx (v : list (list Z)) (st : hci_state) : hci_state :=
  mk_state (command_credits st) (firmware_is_configured st) (has_shut_down st)
    (thread st) (command_queue st) (packet_queue st)
    (commands_pending_response st) (incoming_packets st) v (alloc_script st)
    (vendor_script st) (trace st).

Definition set_alloc_script (v : list bool) (st : hci_state) : hci_state :=
  mk_state (command_credits st) (firmware_is_configured st) (has_shut_down st)
    (thread st) (command_queue st) (packet_queue st)
    (commands_pending_response st) (incoming_packets st) (hal_rx st) v
    (vendor_script st) (trace st).

Definition set_vendor_script (v : list Z) (st : hci_state) : hci_state :=
  mk_state (command_credits st) (firmware_is_configured st) (has_shut_down st)
    (thread st) (command_queue st) (packet_queue st)
    (commands_pending_response st) (incoming_packets st) (hal_rx st)
    (alloc_script st) v (trace st).

Definition set_trace (v : list call) (st : hci_state) : hci_state :=
  mk_state (command_credits st) (firmware_is_configured st) (has_shut_down st)
    (thread st) (command_queue st) (packet_queue st)
    (commands_pending_response st) (incoming_packets st) (hal_rx st)
    (alloc_script st) (vendor_script st) v.

(** Record one call into a collaborator. *)
Definition emit (c : call) (st : hci_state) : hci_state :=
  set_trace (trace st ++ [c]) st.

Definition emits (cs : list call) (st : hci_state) : hci_state :=
  set_trace (trace st ++ cs) st.

(** ** The collaborators, as far as the layer depends on their answers *)

(** Any allocation ([osi_calloc], [alarm_new], [fixed_queue_new],
    [thread_new], [list_new], [buffer_allocator->alloc]): consumes one
    entry of the script. *)
Definition allocate (st : hci_state) : bool * hci_state :=
  match alloc_script st with
  | [] => (true, st)
  | ok :: rest => (ok, set_alloc_script rest st)
  end.

(** [vendor->send_async_command(op, NULL)]. *)
Definition send_async_command (op : vendor_opcode) (st : hci_state)
  : Z * hci_state :=
  let st := emit (vendor_send_async_command op) st in
  match vendor_script st with
  | [] => (0, st)
  | r :: rest => (r, set_vendor_script rest st)
  end.

(** [hal->read_data(type, dst, max_size, false)]: never blocks, hands over
    at most [max_size] of the bytes buffered for [type], as bytes. *)
Definition read_data (type : serial_data_type_t) (max_size : Z)
    (st : hci_state) : list Z * hci_state :=
  match at_index (hal_rx st) (PACKET_TYPE_TO_INDEX type) with
  | None => ([], st)
  | Some avail =>
      let n := Z.to_nat max_size in
      (UINT8 <$> take n avail,
       set_hal_rx (<[Z.to_nat (PACKET_TYPE_TO_INDEX type) := drop n avail]>
                     (hal_rx st)) st)
  end.

(** Modelled from the spec: the two FIFO queues of fixed_queue.h.
    Dequeuing takes the oldest entry; on an empty queue the call blocks,
    which is [None] here. *)
Definition fixed_queue_enqueue {A} (q : list A) (x : A) : list A := q ++ [x].
Definition fixed_queue_dequeue {A} (q : list A) : option (A * list A) :=
  match q with
  | [] => None
  | x :: rest => Some (x, rest)
  end.

(** Modelled from the spec: list.h; [list_append] adds at the tail. *)
Definition list_is_empty {A} (l : list A) : bool :=
  match l with [] => true | _ => false end.
Definition list_append {A} (l : list A) (x : A) : list A := l ++ [x].

(** The stream macros of bt_types.h: read little-endian fields and
    advance the pointer.  The stream is the byte array from the pointer
    onwards; a read past the end of the array yields 0. *)
Definition STREAM_TO_UINT8 (p : list Z) : Z * list Z :=
  (UINT8 (array_get p 0), drop 1 p).
Definition STREAM_SKIP_UINT8 (p : list Z) : list Z := drop 1 p.
Definition STREAM_TO_UINT16 (p : list Z) : Z * list Z :=
  (UINT16 (UINT8 (array_get p 0) + Z.shiftl (UINT8 (array_get p 1)) 8),
   drop 2 p).

Section Layer.

Context `{hci_headers}.

(** ** Interface functions *)

Definition set_chip_power_on (value : bool) (st : hci_state) : hci_state :=
  let st := emit (ALOG LOG_DEBUG "set_chip_power_on") st in
  emit (vendor_send_command VENDOR_CHIP_POWER_CONTROL value) st.

(** [fixed_queue_free(queue, buffer_allocator->free)]: every entry still
    queued goes through the allocator's [free]. *)
Definition free_command_queue (st : hci_state) : hci_state :=
  let st := emits (buffer_free_entry <$> command_queue st) st in
  set_command_queue [] (emit (queue_free the_command_queue) st).

Definition free_packet_queue (st : hci_state) : hci_state :=
  let st := emits (buffer_free <$> packet_queue st) st in
  set_packet_queue [] (emit (queue_free the_packet_queue) st).

(** [shut_down].  What the HCI thread does between the posting of the
    epilog work item and the end of [thread_join] are steps of their own
    ([event_epilog], the epilog callbacks). *)
Definition shut_down (st : hci_state) : hci_state :=
  if has_shut_down st then
    emit (ALOG LOG_WARN "shut_down") st
  else
    let st := emit (ALOG LOG_INFO "shut_down") st in
    let st := emit hci_inject_close st in
    let st :=
      if thread st then
        let st :=
          if firmware_is_configured st then
            let st := emit (alarm_set epilog_alarm EPILOG_TIMEOUT_MS) st in
            emit (thread_post work_epilog) st
          else
            emit thread_stop st in
        emit thread_join st
      else st in
    let st := free_command_queue st in
    let st := free_packet_queue st in
    let st := set_commands_pending_response [] (emit list_free st) in
    let st := emit mutex_destroy st in
    let st := emit fragmenter_cleanup st in
    let st := emit (alarm_free epilog_alarm) st in
    let st := emit (alarm_free command_response_alarm) st in
    let st := emit low_power_cleanup st in
    let st := emit hal_close st in
    let st := set_chip_power_on false st in
    let st := emit vendor_close st in
    let st := emit thread_free st in
    let st := set_thread false st in
    let st := set_firmware_is_configured false st in
    set_has_shut_down true st.

(** The [error:] label of [start_up]. *)
Definition start_up_error (st : hci_state) : bool * hci_state :=
  (false, shut_down (emit (ALOG LOG_ERROR "start_up") st)).

Definition zeroed_receive_data : packet_receive_data_t :=
  mk_receive BRAND_NEW 0 (replicate PREAMBLE_BUFFER_SIZE 0) 0 None.

Definition start_up (st : hci_state) : bool * hci_state :=
  let st := emit (ALOG LOG_INFO "start_up") st in
  let st := set_command_credits 1 st in
  let st := set_firmware_is_configured false st in
  let st := set_has_shut_down false st in
  let st := emit mutex_init st in
  let '(epilog_alarm_ok, st) := allocate st in
  if negb epilog_alarm_ok then start_up_error st else
  let '(command_response_alarm_ok, st) := allocate st in
  if negb command_response_alarm_ok then start_up_error st else
  let '(command_queue_ok, st) := allocate st in
  let st := set_command_queue [] st in
  if negb command_queue_ok then start_up_error st else
  let '(packet_queue_ok, st) := allocate st in
  let st := set_packet_queue [] st in
  if negb packet_queue_ok then start_up_error st else
  let '(thread_ok, st) := allocate st in
  let st := set_thread thread_ok st in
  if negb thread_ok then start_up_error st else
  let '(list_ok, st) := allocate st in
  let st := set_commands_pending_response [] st in
  if negb list_ok then start_up_error st else
  let st :=
    set_incoming_packets
      (replicate INBOUND_PACKET_TYPE_COUNT zeroed_receive_data) st in
  let st := emit controller_init st in
  let st := emit fragmenter_init st in
  let st := emit (queue_register_dequeue the_command_queue) st in
  let st := emit (queue_register_dequeue the_packet_queue) st in
  let st := emit vendor_open st in
  let st := emit hal_init st in
  let st := emit low_power_init st in
  let st := emit (vendor_set_callback VENDOR_CONFIGURE_FIRMWARE) st in
  let st := emit (vendor_set_callback VENDOR_CONFIGURE_SCO) st in
  let st := emit (vendor_set_callback VENDOR_DO_EPILOG) st in
  let st := emit hci_inject_open st in
  (true, st).

Definition do_preload (st : hci_state) : hci_state :=
  let st := emit (ALOG LOG_DEBUG "do_preload") st in
  emit (thread_post work_preload) st.

Definition do_postload (st : hci_state) : hci_state :=
  let st := emit (ALOG LOG_DEBUG "do_postload") st in
  emit (thread_post work_postload) st.

Definition turn_on_logging (path : option string) (st : hci_state)
  : hci_state :=
  let st := emit (ALOG LOG_DEBUG "turn_on_logging") st in
  match path with
  | Some path => emit (btsnoop_open path) st
  | None => emit (ALOG LOG_WARN "turn_on_logging") st
  end.

Definition turn_off_logging (st : hci_state) : hci_state :=
  let st := emit (ALOG LOG_DEBUG "turn_off_logging") st in
  emit btsnoop_close st.

Definition with_event (e : Z) (p : BT_HDR) : BT_HDR :=
  mk_BT_HDR e (len p) (offset p) (layer_specific p) (data p).

Definition with_len (l : Z) (p : BT_HDR) : BT_HDR :=
  mk_BT_HDR (event p) l (offset p) (layer_specific p) (data p).

Definition with_data (d : list Z) (p : BT_HDR) : BT_HDR :=
  mk_BT_HDR (event p) (len p) (offset p) (layer_specific p) d.

Definition transmit_command (command : BT_HDR)
    (complete_callback : option command_complete_cb)
    (status_callback : option command_status_cb)
    (context : Z) (st : hci_state) : hci_state :=
  let '(wait_entry_ok, st) := allocate st in
  if negb wait_entry_ok then
    emit (ALOG LOG_ERROR "transmit_command") st
  else
    let stream := drop (Z.to_nat (offset command)) (data command) in
    let '(opcode, stream) := STREAM_TO_UINT16 stream in
    let command := with_event MSG_STACK_TO_HC_HCI_CMD command in
    let wait_entry :=
      mk_waiting opcode complete_callback status_callback context command in
    set_command_queue (fixed_queue_enqueue (command_queue st) wait_entry) st.

Definition transmit_downward (type : Z) (data : BT_HDR) (st : hci_state)
  : hci_state :=
  if decide (type = MSG_STACK_TO_HC_HCI_CMD) then
    let st := transmit_command data None None 0 st in
    emit (ALOG LOG_WARN "transmit_downward") st
  else
    set_packet_queue (fixed_queue_enqueue (packet_queue st) data) st.

(** ** Internal functions *)

(** The lock around the pending-response list is taken and released
    inside one function everywhere but here: on an empty list the
    function returns with the lock held.  The trace records that
    [pthread_mutex_lock] as [mutex_lock]. *)
Definition command_timed_out (st : hci_state) : hci_state :=
  if list_is_empty (commands_pending_response st) then
    let st := emit mutex_lock st in
    emit (ALOG LOG_ERROR "command_timed_out") st
  else
    let st := emit (ALOG LOG_ERROR "command_timed_out") st in
    let st := emit (ALOG LOG_ERROR "command_timed_out") st in
    emit process_killed st.

Definition restart_command_timeout_alarm (st : hci_state) : hci_state :=
  if list_is_empty (commands_pending_response st) then
    emit (alarm_cancel command_response_alarm) st
  else
    emit (alarm_set command_response_alarm COMMAND_PENDING_TIMEOUT) st.

(** The scan of [get_waiting_command] over the nodes, oldest first: the
    first entry with the opcode is unlinked ([list_remove] of the entry
    the scan stands on) and returned together with the remaining list. *)
Fixpoint scan_for_opcode (op : Z) (l : list waiting_command_t)
  : option waiting_command_t * list waiting_command_t :=
  match l with
  | [] => (None, [])
  | wait_entry :: rest =>
      if decide (opcode wait_entry = op) then (Some wait_entry, rest)
      else
        let '(found, rest') := scan_for_opcode op rest in
        (found, wait_entry :: rest')
  end.

Definition get_waiting_command (op : Z) (st : hci_state)
  : option waiting_command_t * hci_state :=
  let '(found, rest) := scan_for_opcode op (commands_pending_response st) in
  (found, set_commands_pending_response rest st).

(** The [intercepted:] label of [filter_incoming_event]. *)
Definition intercepted (event_code : Z) (packet : BT_HDR)
    (wait_entry : option waiting_command_t) (st : hci_state)
  : bool * hci_state :=
  let st := restart_command_timeout_alarm st in
  let st :=
    match wait_entry with
    | Some w =>
        let st :=
          if decide (event_code = HCI_COMMAND_STATUS_EVT
                     ∨ complete_callback w = None)
          then emit (buffer_free packet) st else st in
        let st :=
          if decide (event_code = HCI_COMMAND_COMPLETE_EVT
                     ∨ status_callback w = None)
          then emit (buffer_free (command w)) st else st in
        emit (osi_free w) st
    | None => emit (buffer_free packet) st
    end in
  (true, st).

(** Inspects an incoming event; returns [true] if the event should not
    proceed to higher layers. *)
Definition filter_incoming_event (packet : BT_HDR) (st : hci_state)
  : bool * hci_state :=
  let stream := data packet in
  let '(event_code, stream) := STREAM_TO_UINT8 stream in
  let stream := STREAM_SKIP_UINT8 stream in
  if decide (event_code = HCI_COMMAND_COMPLETE_EVT) then
    let '(credits, stream) := STREAM_TO_UINT8 stream in
    let st := set_command_credits credits st in
    let '(op, stream) := STREAM_TO_UINT16 stream in
    let '(wait_entry, st) := get_waiting_command op st in
    let st :=
      match wait_entry with
      | None => emit (ALOG LOG_WARN "filter_incoming_event") st
      | Some w =>
          match complete_callback w with
          | Some cb => emit (call_complete_callback cb packet (context w)) st
          | None => st
          end
      end in
    intercepted event_code packet wait_entry st
  else if decide (event_code = HCI_COMMAND_STATUS_EVT) then
    let '(status, stream) := STREAM_TO_UINT8 stream in
    let '(credits, stream) := STREAM_TO_UINT8 stream in
    let st := set_command_credits credits st in
    let '(op, stream) := STREAM_TO_UINT16 stream in
    let '(wait_entry, st) := get_waiting_command op st in
    let st :=
      match wait_entry with
      | None => emit (ALOG LOG_WARN "filter_incoming_event") st
      | Some w =>
          match status_callback w with
          | Some cb =>
              emit (call_status_callback cb status (command w) (context w)) st
          | None => st
          end
      end in
    intercepted event_code packet wait_entry st
  else
    (false, st).

Definition on_controller_acl_size_fetch_finished (st : hci_state)
  : hci_state :=
  emit (ALOG LOG_INFO "on_controller_acl_size_fetch_finished") st.

Definition sco_config_callback (success : bool) (st : hci_state)
  : hci_state :=
  emit controller_begin_acl_size_fetch st.

Definition firmware_config_callback (success : bool) (st : hci_state)
  : hci_state :=
  let st := set_firmware_is_configured true st in
  emit (preload_finished true) st.

Definition epilog_finished_callback (success : bool) (st : hci_state)
  : hci_state :=
  let st := emit (ALOG LOG_INFO "epilog_finished_callback") st in
  emit thread_stop st.

Definition epilog_wait_timer_expired (st : hci_state) : hci_state :=
  let st := emit (ALOG LOG_INFO "epilog_wait_timer_expired") st in
  emit thread_stop st.

Definition event_preload (st : hci_state) : hci_state :=
  let st := emit (ALOG LOG_INFO "event_preload") st in
  let st := emit hal_open st in
  let '(_, st) := send_async_command VENDOR_CONFIGURE_FIRMWARE st in
  st.

Definition event_postload (st : hci_state) : hci_state :=
  let st := emit (ALOG LOG_INFO "event_postload") st in
  let '(ret, st) := send_async_command VENDOR_CONFIGURE_SCO st in
  if decide (ret = -1) then
    sco_config_callback false st
  else st.

Definition event_epilog (st : hci_state) : hci_state :=
  let '(_, st) := send_async_command VENDOR_DO_EPILOG st in
  st.

(** The handler registered on [command_queue]; the [queue] argument of the
    C function is that queue. *)
Definition event_command_ready (st : hci_state) : option hci_state :=
  if decide (0 < command_credits st) then
    match fixed_queue_dequeue (command_queue st) with
    | None => None
    | Some (wait_entry, rest) =>
        let st := set_command_queue rest st in
        let st := set_command_credits (command_credits st - 1) st in
        let st :=
          set_commands_pending_response
            (list_append (commands_pending_response st) wait_entry) st in
        let st := emit wake_assert st in
        let st := emit (fragment_and_dispatch (command wait_entry)) st in
        let st := emit transmit_done st in
        Some (restart_command_timeout_alarm st)
    end
  else Some st.

(** The handler registered on [packet_queue]. *)
Definition event_packet_ready (st : hci_state) : option hci_state :=
  match fixed_queue_dequeue (packet_queue st) with
  | None => None
  | Some (packet, rest) =>
      let st := set_packet_queue rest st in
      let st := emit wake_assert st in
      let st := emit (fragment_and_dispatch packet) st in
      Some (emit transmit_done st)
  end.

(** ** Inbound reassembly *)

(** [case PREAMBLE:] of the switch (also reached from [BRAND_NEW]).
    [None] is a store outside [preamble[]]. *)
Definition receive_preamble (type : serial_data_type_t) (byte : Z)
    (incoming : packet_receive_data_t) (st : hci_state)
  : option (packet_receive_data_t * hci_state) :=
  if decide (0 <= index incoming < Z.of_nat PREAMBLE_BUFFER_SIZE) then
    let preamble :=
      <[Z.to_nat (index incoming) := byte]> (preamble incoming) in
    let index := UINT16 (index incoming + 1) in
    let bytes_remaining := UINT16 (bytes_remaining incoming - 1) in
    if decide (bytes_remaining = 0) then
      let bytes_remaining :=
        UINT16 (if decide (type = DATA_TYPE_ACL)
                then RETRIEVE_ACL_LENGTH preamble else byte) in
      let buffer_size := BT_HDR_SIZE + index + bytes_remaining in
      let st := emit (buffer_alloc buffer_size) st in
      let '(buffer_ok, st) := allocate st in
      if negb buffer_ok then
        let st := emit (ALOG LOG_ERROR "hal_says_data_ready") st in
        Some (mk_receive
                (if decide (bytes_remaining = 0) then BRAND_NEW else IGNORE)
                bytes_remaining preamble index None, st)
      else
        let fresh := replicate (Z.to_nat (index + bytes_remaining)) 0 in
        let buffer :=
          mk_BT_HDR
            (default 0 (at_index outbound_event_types
                          (PACKET_TYPE_TO_INDEX type)))
            0 0 0 (memcpy fresh preamble (Z.to_nat index)) in
        Some (mk_receive
                (if decide (0 < bytes_remaining) then BODY else FINISHED)
                bytes_remaining preamble index (Some buffer), st)
    else
      Some (mk_receive (state incoming) bytes_remaining preamble index
              (buffer incoming), st)
  else None.

(** [case BODY:].  [None] is a NULL [buffer] or a store outside its byte
    array. *)
Definition receive_body (type : serial_data_type_t) (byte : Z)
    (incoming : packet_receive_data_t) (st : hci_state)
  : option (packet_receive_data_t * hci_state) :=
  match buffer incoming with
  | None => None
  | Some buf =>
      if decide (0 <= index incoming < Z.of_nat (length (data buf))) then
        let bytes := <[Z.to_nat (index incoming) := byte]> (data buf) in
        let index := UINT16 (index incoming + 1) in
        let bytes_remaining := UINT16 (bytes_remaining incoming - 1) in
        let '(chunk, st) := read_data type bytes_remaining st in
        let bytes_read := Z.of_nat (length chunk) in
        if decide (index + bytes_read <= Z.of_nat (length bytes)) then
          let bytes := list_inserts (Z.to_nat index) chunk bytes in
          let index := UINT16 (index + bytes_read) in
          let bytes_remaining := UINT16 (bytes_remaining - bytes_read) in
          Some (mk_receive
                  (if decide (bytes_remaining = 0) then FINISHED
                   else state incoming)
                  bytes_remaining (preamble incoming) index
                  (Some (with_data bytes buf)), st)
        else None
      else None
  end.

(** The [switch (incoming->state)] for one byte. *)
Definition receive_byte (type : serial_data_type_t) (byte : Z)
    (incoming : packet_receive_data_t) (st : hci_state)
  : option (packet_receive_data_t * hci_state) :=
  match state incoming with
  | BRAND_NEW =>
      let incoming :=
        mk_receive PREAMBLE
          (default 0 (at_index preamble_sizes (PACKET_TYPE_TO_INDEX type)))
          (replicate PREAMBLE_BUFFER_SIZE 0) 0 (buffer incoming) in
      receive_preamble type byte incoming st
  | PREAMBLE => receive_preamble type byte incoming st
  | BODY => receive_body type byte incoming st
  | IGNORE =>
      let bytes_remaining := UINT16 (bytes_remaining incoming - 1) in
      Some (mk_receive
              (if decide (bytes_remaining = 0) then BRAND_NEW
               else state incoming)
              bytes_remaining (preamble incoming) (index incoming)
              (buffer incoming), st)
  | FINISHED =>
      Some (incoming, emit (ALOG LOG_ERROR "hal_says_data_ready") st)
  end.

Definition store_incoming (type : serial_data_type_t)
    (incoming : packet_receive_data_t) (st : hci_state) : hci_state :=
  set_incoming_packets
    (<[Z.to_nat (PACKET_TYPE_TO_INBOUND_INDEX type) := incoming]>
       (incoming_packets st)) st.

(** The number of bytes [filter_incoming_event] reads from the byte array
    of a packet: the event code, and behind the length byte the credits
    and the opcode of a command-complete event, or the status, the
    credits and the opcode of a command-status event. *)
Definition filter_read_size (packet : BT_HDR) : nat :=
  let '(event_code, _) := STREAM_TO_UINT8 (data packet) in
  if decide (event_code = HCI_COMMAND_COMPLETE_EVT) then 5
  else if decide (event_code = HCI_COMMAND_STATUS_EVT) then 6
  else 1.

(** The [if (incoming->state == FINISHED)] block.  [None] is a NULL
    [buffer], or the event filter reading behind the byte array of the
    buffer, which holds the bytes of the event and no more: an event too
    short for the fields the filter reads.  The buffer leaves the
    context at the end of the block, so its [len] is set on the value
    handed on. *)
Definition packet_is_finished (type : serial_data_type_t)
    (incoming : packet_receive_data_t) (st : hci_state) : option hci_state :=
  match buffer incoming with
  | None => None
  | Some buf =>
      let buf := with_len (index incoming) buf in
      let st := emit (btsnoop_capture buf true) st in
      st ←
        (if decide (type ≠ DATA_TYPE_EVENT) then
           Some (emit (reassemble_and_dispatch buf) st)
         else if decide (filter_read_size buf <= length (data buf))%nat then
           let '(swallowed, st) := filter_incoming_event buf st in
           Some (if negb swallowed then emit (reassemble_and_dispatch buf) st
                 else st)
         else None);
      let st :=
        store_incoming type
          (mk_receive BRAND_NEW (bytes_remaining incoming)
             (preamble incoming) (index incoming) None) st in
      Some (emit (hal_packet_finished type) st)
  end.

(** The [while] loop.  Every round takes at least one byte from the HAL,
    so [fuel] beyond the number of buffered bytes is never used up. *)
Fixpoint data_ready_loop (fuel : nat) (type : serial_data_type_t)
    (st : hci_state) : option hci_state :=
  match fuel with
  | O => None
  | S fuel =>
      match read_data type 1 st with
      | ([], _) => Some st
      | (byte :: _, st1) =>
          incoming ← at_index (incoming_packets st1)
                        (PACKET_TYPE_TO_INBOUND_INDEX type);
          '(incoming, st2) ← receive_byte type byte incoming st1;
          let st2 := store_incoming type incoming st2 in
          if decide (state incoming = FINISHED) then
            packet_is_finished type incoming st2
          else data_ready_loop fuel type st2
      end
  end.

Definition buffered (type : serial_data_type_t) (st : hci_state) : list Z :=
  default [] (at_index (hal_rx st) (PACKET_TYPE_TO_INDEX type)).

(** [hal_says_data_ready].  [None] is undefined behaviour of the C code:
    [type] outside the three inbound types, a NULL dereference, a store
    outside an array or a read of the event filter behind the buffer. *)
Definition hal_says_data_ready (type : serial_data_type_t) (st : hci_state)
  : option hci_state :=
  data_ready_loop (S (length (buffered type st))) type st.

(** ** Callbacks handed to the fragmenter *)

Definition event_to_data_type (event : Z) (st : hci_state)
  : option serial_data_type_t * hci_state :=
  if decide (event = MSG_STACK_TO_HC_HCI_ACL) then (Some DATA_TYPE_ACL, st)
  else if decide (event = MSG_STACK_TO_HC_HCI_SCO) then
    (Some DATA_TYPE_SCO, st)
  else if decide (event = MSG_STACK_TO_HC_HCI_CMD) then
    (Some DATA_TYPE_COMMAND, st)
  else (None, emit (ALOG LOG_ERROR "event_to_data_type") st).

Definition transmit_fragment (packet : BT_HDR) (send_transmit_finished : bool)
    (st : hci_state) : hci_state :=
  let event := Z.land (event packet) MSG_EVT_MASK in
  let '(type, st) := event_to_data_type event st in
  let st := emit (btsnoop_capture packet false) st in
  let st :=
    emit (hal_transmit_data type
            (take (Z.to_nat (len packet))
               (drop (Z.to_nat (offset packet)) (data packet)))) st in
  if decide (event ≠ MSG_STACK_TO_HC_HCI_CMD) then
    if send_transmit_finished then emit (transmit_finished packet true) st
    else st
  else st.

Definition dispatch_reassembled (packet : BT_HDR) (st : hci_state)
  : hci_state :=
  emit (dispatch_upward (Z.land (event packet) MSG_EVT_MASK) packet) st.

Definition fragmenter_transmit_finished (buffer : BT_HDR)
    (all_fragments_sent : bool) (st : hci_state) : hci_state :=
  emit (transmit_finished buffer all_fragments_sent) st.

End Layer.

(** ** Vocabulary of the statements *)

(** The wire fields the event filter reads from an event packet. *)
Definition event_code_of (packet : BT_HDR) : Z :=
  UINT8 (array_get (data packet) 0).
Definition complete_credits_of (packet : BT_HDR) : Z :=
  UINT8 (array_get (data packet) 2).
Definition complete_opcode_of (packet : BT_HDR) : Z :=
  UINT16 (UINT8 (array_get (data packet) 3)
          + Z.shiftl (UINT8 (array_get (data packet) 4)) 8).
Definition status_status_of (packet : BT_HDR) : Z :=
  UINT8 (array_get (data packet) 2).
Definition status_credits_of (packet : BT_HDR) : Z :=
  UINT8 (array_get (data packet) 3).
Definition status_opcode_of (packet : BT_HDR) : Z :=
  UINT16 (UINT8 (array_get (data packet) 4)
          + Z.shiftl (UINT8 (array_get (data packet) 5)) 8).

(** What [restart_command_timeout_alarm] does to the watchdog, given the
    pending-response list. *)
Definition watchdog_call (pending : list waiting_command_t) : call :=
  if list_is_empty pending then alarm_cancel command_response_alarm
  else alarm_set command_response_alarm COMMAND_PENDING_TIMEOUT.

(** The context of [type] in [incoming_packets]. *)
Definition incoming_of (type : serial_data_type_t) (st : hci_state)
  : option packet_receive_data_t :=
  at_index (incoming_packets st) (PACKET_TYPE_TO_INBOUND_INDEX type).

Definition preamble_size_of (type : serial_data_type_t) : Z :=
  default 0 (at_index preamble_sizes (PACKET_TYPE_TO_INDEX type)).

Definition is_byte (b : Z) : Prop := 0 <= b < 256.

(** Calls that hand a finished inbound packet on. *)
Definition packet_call (c : call) : bool :=
  match c with
  | btsnoop_capture _ _ | reassemble_and_dispatch _ | hal_packet_finished _ =>
      true
  | _ => false
  end.

(** The invariant of one reassembly context between two rounds of the
    loop. *)
Definition receive_data_wf (type : serial_data_type_t)
    (c : packet_receive_data_t) : Prop :=
  match state c with
  | BRAND_NEW => buffer c = None
  | PREAMBLE =>
      0 <= index c ∧ 1 <= bytes_remaining c
      ∧ index c + bytes_remaining c = preamble_size_of type
      ∧ length (preamble c) = PREAMBLE_BUFFER_SIZE
      ∧ Forall is_byte (preamble c)
  | BODY =>
      ∃ buf, buffer c = Some buf
        ∧ 0 <= index c ∧ 1 <= bytes_remaining c <= 65535
        ∧ index c + bytes_remaining c <= Z.of_nat (length (data buf))
  | IGNORE => 1 <= bytes_remaining c <= 65535 ∧ buffer c = None
  | FINISHED => False
  end.

Definition incoming_wf (st : hci_state) : Prop :=
  length (incoming_packets st) = INBOUND_PACKET_TYPE_COUNT
  ∧ ∀ type c, incoming_of type st = Some c → receive_data_wf type c.


(** The calls a step from [st] to [st'] has added to the trace. *)
Definition calls_since (st st' : hci_state) : list call :=
  drop (length (trace st)) (trace st').

(** The packet a stretch of the trace captures as received, if any. *)
Fixpoint received_packet (t : list call) : option BT_HDR :=
  match t with
  | [] => None
  | btsnoop_capture packet true :: _ => Some packet
  | _ :: t' => received_packet t'
  end.

(** Whether [commands_pending_response_lock] is held after the calls
    [t], when it was [held] before: [start_up] initialises it, and
    [command_timed_out] may leave it locked. *)
Fixpoint lock_held_after (held : bool) (t : list call) : bool :=
  match t with
  | [] => held
  | mutex_init :: t' => lock_held_after false t'
  | mutex_lock :: t' => lock_held_after true t'
  | _ :: t' => lock_held_after held t'
  end.

Definition lock_held (st : hci_state) : bool :=
  lock_held_after false (trace st).

(** Whether a call of [hal_says_data_ready] that made the calls [delta]
    has taken the lock: it has finished an event for which the filter
    looks up the waiting command. *)
Definition looks_up_waiter (type : serial_data_type_t) (delta : list call)
  : bool :=
  match type, received_packet delta with
  | DATA_TYPE_EVENT, Some packet =>
      bool_decide (event_code_of packet = HCI_COMMAND_COMPLETE_EVT
                   ∨ event_code_of packet = HCI_COMMAND_STATUS_EVT)
  | _, _ => false
  end.

(** The operations of the layer: the interface functions, the handlers
    the reactor runs on the HCI thread, and the callbacks handed to the
    vendor driver, the HAL and the fragmenter. *)
Inductive hci_op :=
  | op_start_up
  | op_shut_down
  | op_set_chip_power_on (value : bool)
  | op_do_preload
  | op_do_postload
  | op_turn_on_logging (path : option string)
  | op_turn_off_logging
  | op_transmit_command (command : BT_HDR)
      (complete_callback : option command_complete_cb)
      (status_callback : option command_status_cb) (context : Z)
  | op_transmit_downward (type : Z) (data : BT_HDR)
  | op_command_timed_out
  | op_firmware_config_callback (success : bool)
  | op_sco_config_callback (success : bool)
  | op_epilog_finished_callback (success : bool)
  | op_epilog_wait_timer_expired
  | op_acl_size_fetch_finished
  | op_event_preload
  | op_event_postload
  | op_event_epilog
  | op_event_command_ready
  | op_event_packet_ready
  | op_hal_says_data_ready (type : serial_data_type_t)
  | op_transmit_fragment (packet : BT_HDR) (send_transmit_finished : bool)
  | op_dispatch_reassembled (packet : BT_HDR)
  | op_fragmenter_transmit_finished (buffer : BT_HDR) (all_sent : bool).

(** One operation on the state.  [None]: the operation does not return,
    because the C code is undefined, blocks on an empty queue, or needs
    the lock that [command_timed_out] has left held. *)
Definition run_op `{hci_headers} (o : hci_op) (st : hci_state)
  : option hci_state :=
  match o with
  | op_start_up => Some (start_up st).2
  | op_shut_down => Some (shut_down st)
  | op_set_chip_power_on v => Some (set_chip_power_on v st)
  | op_do_preload => Some (do_preload st)
  | op_do_postload => Some (do_postload st)
  | op_turn_on_logging p => Some (turn_on_logging p st)
  | op_turn_off_logging => Some (turn_off_logging st)
  | op_transmit_command c cc sc ctx => Some (transmit_command c cc sc ctx st)
  | op_transmit_downward t d => Some (transmit_downward t d st)
  | op_command_timed_out =>
      if lock_held st then None else Some (command_timed_out st)
  | op_firmware_config_callback b => Some (firmware_config_callback b st)
  | op_sco_config_callback b => Some (sco_config_callback b st)
  | op_epilog_finished_callback b => Some (epilog_finished_callback b st)
  | op_epilog_wait_timer_expired => Some (epilog_wait_timer_expired st)
  | op_acl_size_fetch_finished =>
      Some (on_controller_acl_size_fetch_finished st)
  | op_event_preload => Some (event_preload st)
  | op_event_postload => Some (event_postload st)
  | op_event_epilog => Some (event_epilog st)
  | op_event_command_ready =>
      if lock_held st && bool_decide (0 < command_credits st) then None
      else event_command_ready st
  | op_event_packet_ready => event_packet_ready st
  | op_hal_says_data_ready type =>
      st' ← hal_says_data_ready type st;
      if lock_held st && looks_up_waiter type (calls_since st st') then None
      else Some st'
  | op_transmit_fragment p b => Some (transmit_fragment p b st)
  | op_dispatch_reassembled p => Some (dispatch_reassembled p st)
  | op_fragmenter_transmit_finished b a =>
      Some (fragmenter_transmit_finished b a st)
  end.

(** The states of a session: what [start_up] leaves, and whatever any
    sequence of operations makes of it. *)
Inductive in_session `{hci_headers} : hci_state → Prop :=
  | session_start st : in_session (start_up st).2
  | session_step o st st' :
      in_session st → run_op o st = Some st' → in_session st'.

(** What an operation may do to the credit counter. *)
Definition credits_after (o : hci_op) (old new : Z) : Prop :=
  match o with
  | op_start_up => new = 1
  | op_event_command_ready =>
      if decide (0 < old) then new = old - 1 else new = old
  | op_hal_says_data_ready DATA_TYPE_EVENT =>
      new = old ∨ ∃ field, new = UINT8 field
  | _ => new = old
  end.

(** The credit counter after the event filter has seen [packet]: the
    credit field of a command-complete or command-status event, the old
    value for any other event. *)
Definition credits_after_event (packet : BT_HDR) (old : Z) : Z :=
  if decide (event_code_of packet = HCI_COMMAND_COMPLETE_EVT)
  then complete_credits_of packet
  else if decide (event_code_of packet = HCI_COMMAND_STATUS_EVT)
  then status_credits_of packet
  else old.

(** What an operation that has made the calls [delta] does to the
    credit counter.  [hal_says_data_ready] changes it only for the event
    it has finished, if any, and the fields the filter has read lie
    inside that event. *)
Definition credits_step (o : hci_op) (delta : list call) (old new : Z)
  : Prop :=
  match o with
  | op_start_up => new = 1
  | op_event_command_ready =>
      if decide (0 < old) then new = old - 1 else new = old
  | op_hal_says_data_ready DATA_TYPE_EVENT =>
      match received_packet delta with
      | Some packet =>
          (filter_read_size packet <= length (data packet))%nat
          ∧ new = credits_after_event packet old
      | None => new = old
      end
  | _ => new = old
  end.

(** The tag [outbound_event_types] gives the packets of each type. *)
Definition inbound_tag `{hci_headers} (type : serial_data_type_t) : Z :=
  match type with
  | DATA_TYPE_COMMAND => MSG_HC_TO_STACK_HCI_ERR
  | DATA_TYPE_ACL => MSG_HC_TO_STACK_HCI_ACL
  | DATA_TYPE_SCO => MSG_HC_TO_STACK_HCI_SCO
  | DATA_TYPE_EVENT => MSG_HC_TO_STACK_HCI_EVT
  end.

(** The body length a complete preamble announces: the little-endian
    16-bit number in bytes 2 and 3 for ACL, the last byte otherwise. *)
Definition announced_body_length (type : serial_data_type_t)
    (preamble : list Z) : Z :=
  match type with
  | DATA_TYPE_ACL => array_get preamble 2 + 256 * array_get preamble 3
  | _ => array_get preamble (Z.to_nat (preamble_size_of type - 1))
  end.

(** The state in which the HAL has [l] buffered for [type]. *)
Definition set_buffered (type : serial_data_type_t) (l : list Z)
    (st : hci_state) : hci_state :=
  set_hal_rx (<[Z.to_nat (PACKET_TYPE_TO_INDEX type) := l]> (hal_rx st)) st.

(** A stretch of the trace in which no inbound packet is handed on. *)
Definition quiet (q : list call) : Prop :=
  Forall (λ e, packet_call e = false) q.


(** The event codes the filter keeps from the upper layers. *)
Definition intercept_code (packet : BT_HDR) : Prop :=
  event_code_of packet = HCI_COMMAND_COMPLETE_EVT
  ∨ event_code_of packet = HCI_COMMAND_STATUS_EVT.



(** ** Vocabulary of the reassembly properties *)

(** A whole packet of [type] as it comes over the wire: the preamble,
    then exactly as many body bytes as the preamble announces; short
    enough for the 16-bit [index] to count its bytes. *)
Definition wire_packet (type : serial_data_type_t) (P : list Z) : Prop :=
  preamble_size_of type <= Z.of_nat (length P)
  ∧ Z.of_nat (length P)
    = preamble_size_of type
      + announced_body_length type
          (take (Z.to_nat (preamble_size_of type)) P)
  ∧ Z.of_nat (length P) <= 65535.

(** The packet [hal_says_data_ready] hands on for the wire bytes [P]. *)
Definition inbound_packet `{hci_headers} (type : serial_data_type_t)
    (P : list Z) : BT_HDR :=
  mk_BT_HDR (inbound_tag type) (Z.of_nat (length P)) 0 0 P.

(** The context [c] has taken in the first bytes [r] of the packet [P]:
    nothing yet, a part of the preamble, or the preamble and a part of
    the body. *)
Definition receiving `{hci_headers} (type : serial_data_type_t)
    (P : list Z) (c : packet_receive_data_t) (r : list Z) : Prop :=
  let n := Z.of_nat (length r) in
  if decide (n = 0) then state c = BRAND_NEW
  else if decide (n < preamble_size_of type) then
    state c = PREAMBLE ∧ index c = n
    ∧ bytes_remaining c = preamble_size_of type - n
    ∧ length (preamble c) = PREAMBLE_BUFFER_SIZE
    ∧ take (length r) (preamble c) = r
    ∧ Forall is_byte (preamble c)
  else
    state c = BODY ∧ index c = n
    ∧ bytes_remaining c = Z.of_nat (length P) - n
    ∧ ∃ bytes,
        buffer c = Some (mk_BT_HDR (inbound_tag type) 0 0 0 bytes)
        ∧ length bytes = length P
        ∧ take (length r) bytes = r.

(** The state [st] with the context of [type] replaced by [c], the bytes
    [l] buffered in the HAL for [type], the allocation script [a] and
    the calls [q] added to the trace. *)
Definition mid_state (type : serial_data_type_t)
    (c : packet_receive_data_t) (l : list Z) (a : list bool)
    (q : list call) (st : hci_state) : hci_state :=
  store_incoming type c
    (set_buffered type l (set_alloc_script a (emits q st))).

(** The HAL receives [chunk] for [type] behind what it has buffered. *)
Definition hal_delivers (type : serial_data_type_t) (chunk : list Z)
    (st : hci_state) : hci_state :=
  set_buffered type (buffered type st ++ chunk) st.

(** The HAL receives the chunks one after the other and calls
    [hal_says_data_ready] after each. *)
Fixpoint feed_chunks `{hci_headers} (type : serial_data_type_t)
    (chunks : list (list Z)) (st : hci_state) : option hci_state :=
  match chunks with
  | [] => Some st
  | chunk :: chunks' =>
      st ← hal_says_data_ready type (hal_delivers type chunk st);
      feed_chunks type chunks' st
  end.

(** The outcome [result] of a call that finishes the packet with the
    wire bytes [P] in the state [st], after the calls [before], leaving
    [rest] in the HAL and [script] for the allocator.  An event too
    short for the reads of the filter leaves the call undefined.
    Otherwise the packet is captured and then handed on: an event the
    filter keeps goes through the filter, whose calls, credits and
    pending list are those it leaves when run on [st]; any other packet
    goes to the reassembler and leaves credits and pending list alone.
    The context is reset and [packet_finished] is the last call. *)
Definition packet_handed_on `{hci_headers} (type : serial_data_type_t)
    (P rest : list Z) (before : list call) (script : list bool)
    (st : hci_state) (result : option hci_state) : Prop :=
  let packet := inbound_packet type P in
  if decide (type = DATA_TYPE_EVENT
             ∧ ¬ (filter_read_size packet <= length P)%nat)
  then result = None
  else
    ∃ st' c' handoff,
      result = Some st'
      ∧ trace st'
        = trace st ++ before
          ++ btsnoop_capture packet true
             :: handoff ++ [hal_packet_finished type]
      ∧ buffered type st' = rest
      ∧ incoming_of type st' = Some c'
      ∧ state c' = BRAND_NEW ∧ buffer c' = None
      ∧ alloc_script st' = script
      ∧ if decide (type = DATA_TYPE_EVENT ∧ intercept_code packet)
        then
          let filtered := (filter_incoming_event packet st).2 in
          trace filtered = trace st ++ handoff
          ∧ quiet handoff
          ∧ command_credits st' = command_credits filtered
          ∧ commands_pending_response st'
            = commands_pending_response filtered
        else
          handoff = [reassemble_and_dispatch packet]
          ∧ command_credits st' = command_credits st
          ∧ commands_pending_response st' = commands_pending_response st.


(** ** Proof automation *)

(** Runs the [intercepted:] block on a goal where the waiter and its
    callbacks are known. *)
Ltac settle_disposition :=
  unfold intercepted, restart_command_timeout_alarm, watchdog_call; simpl;
  repeat case_decide; simpl;
  try (exfalso; unfold HCI_COMMAND_COMPLETE_EVT, HCI_COMMAND_STATUS_EVT in *;
       naive_solver);
  repeat case_match; simpl; by rewrite <- ?app_assoc.

(** Closes a goal about the state after a few calls by a frame lemma
    [frame st st' q], trying the lengths of [q] in turn. *)
Ltac settle_frame frame st :=
  first
    [ eapply (frame st _ []); [simpl; by rewrite ?app_nil_r|done..]
    | eapply (frame st _ [_]); [simpl; by rewrite <- ?app_assoc|done..]
    | eapply (frame st _ [_; _]); [simpl; by rewrite <- ?app_assoc|done..]
    | eapply (frame st _ [_; _; _]);
      [simpl; by rewrite <- ?app_assoc|done..]
    | eapply (frame st _ [_; _; _; _]);
      [simpl; by rewrite <- ?app_assoc|done..] ].

(** ** Sample values *)

Definition sample_headers : hci_headers :=
  {| BT_HDR_SIZE := 8;
     MSG_EVT_MASK := 0xFF00;
     MSG_HC_TO_STACK_HCI_ERR := 0x1300;
     MSG_HC_TO_STACK_HCI_ACL := 0x1100;
     MSG_HC_TO_STACK_HCI_SCO := 0x1200;
     MSG_HC_TO_STACK_HCI_EVT := 0x1000;
     MSG_STACK_TO_HC_HCI_CMD := 0x2000;
     MSG_STACK_TO_HC_HCI_ACL := 0x2100;
     MSG_STACK_TO_HC_HCI_SCO := 0x2200 |}.

(** The static initialisers of the file, nothing buffered in the HAL. *)
Definition power_on_state : hci_state :=
  mk_state 1 false false false [] [] [] [] [[]; []; []; []] [] [] [].

(** A session right after a successful [start_up], with an empty trace. *)
Definition fresh_session : hci_state :=
  set_trace [] (start_up power_on_state).2.

Definition reset_command : BT_HDR := mk_BT_HDR 0 3 0 0 [0x03; 0x0C; 0x00].

Definition reset_entry : waiting_command_t :=
  mk_waiting 0x0C03 (Some 7%nat) None 42
    (mk_BT_HDR 0x2000 3 0 0 [0x03; 0x0C; 0x00]).

(** An ACL context one byte short of a complete preamble: handle 0x0001,
    low length byte 5 received. *)
Definition acl_preamble_pending : packet_receive_data_t :=
  mk_receive PREAMBLE 1 [0x01; 0x00; 0x05; 0x00] 3 None.


(** An event context that has the event code 0x3E; the HAL holds the
    length byte 3 and the three body bytes, and the next allocation
    fails. *)
Definition event_preamble_pending : packet_receive_data_t :=
  mk_receive PREAMBLE 1 [0x3E; 0x00; 0x00; 0x00] 1 None.

Definition event_allocation_fails : hci_state :=
  store_incoming DATA_TYPE_EVENT event_preamble_pending
    (set_alloc_script [false]
       (set_hal_rx [ []; []; []; [0x03; 0xAA; 0xBB; 0xCC] ] fresh_session)).

(** ** Vocabulary of the further properties *)

(** The reactor calling [event_command_ready] [n] times in a row. *)
Fixpoint ready_rounds (n : nat) (st : hci_state) : option hci_state :=
  match n with
  | O => Some st
  | S n => st ← event_command_ready st; ready_rounds n st
  end.

(** The same for [event_packet_ready]. *)
Fixpoint packet_rounds (n : nat) (st : hci_state) : option hci_state :=
  match n with
  | O => Some st
  | S n => st ← event_packet_ready st; packet_rounds n st
  end.

(** The calls [event_command_ready] makes for one wait entry. *)
Definition dispatch_calls (w : waiting_command_t) : list call :=
  [ wake_assert; fragment_and_dispatch (command w); transmit_done;
    alarm_set command_response_alarm COMMAND_PENDING_TIMEOUT ].

(** The calls [event_packet_ready] makes for one data packet. *)
Definition packet_dispatch_calls (p : BT_HDR) : list call :=
  [ wake_assert; fragment_and_dispatch p; transmit_done ].

(** The arguments of one call of [transmit_command]. *)
Record command_request := mk_request {
  req_command : BT_HDR;
  req_complete : option command_complete_cb;
  req_status : option command_status_cb;
  req_context : Z
}.

(** The upper stack calling [transmit_command] for each request in
    turn. *)
Definition transmit_all `{hci_headers} (reqs : list command_request)
    (st : hci_state) : hci_state :=
  foldl (λ st r,
           transmit_command (req_command r) (req_complete r) (req_status r)
             (req_context r) st)
    st reqs.

(** The opcode in the first two bytes of a command, little-endian. *)
Definition opcode_of (command : BT_HDR) : Z :=
  let stream := drop (Z.to_nat (offset command)) (data command) in
  UINT8 (array_get stream 0) + 256 * UINT8 (array_get stream 1).

(** The wait entry [transmit_command] builds for a request. *)
Definition entry_of `{hci_headers} (r : command_request)
  : waiting_command_t :=
  mk_waiting (opcode_of (req_command r)) (req_complete r) (req_status r)
    (req_context r) (with_event MSG_STACK_TO_HC_HCI_CMD (req_command r)).

(** The requests whose allocation succeeds, when the allocations are
    decided by [script] one after the other. *)
Fixpoint accepted {A} (script : list bool) (xs : list A) {struct xs}
  : list A :=
  match xs with
  | [] => []
  | x :: xs' =>
      match script with
      | [] => x :: xs'
      | true :: script' => x :: accepted script' xs'
      | false :: script' => accepted script' xs'
      end
  end.

(** Whether the command watchdog is armed after a sequence of calls,
    when it was [armed] before: the last [alarm_set], [alarm_cancel] or
    [alarm_free] on [command_response_alarm] decides. *)
Fixpoint armed_after (armed : bool) (t : list call) : bool :=
  match t with
  | [] => armed
  | alarm_set command_response_alarm _ :: t' => armed_after true t'
  | alarm_cancel command_response_alarm :: t' => armed_after false t'
  | alarm_free command_response_alarm :: t' => armed_after false t'
  | _ :: t' => armed_after armed t'
  end.

(** The watchdog is armed exactly when a command awaits its response. *)
Definition watchdog_in_step (st : hci_state) : Prop :=
  armed_after false (trace st)
  = negb (list_is_empty (commands_pending_response st)).

(** Calls the switch of [hal_says_data_ready] makes. *)
Definition alloc_or_log (c : call) : bool :=
  match c with
  | buffer_alloc _ | ALOG _ _ => true
  | _ => false
  end.

(** The operations in [ops], one after the other; [None] as soon as
    one of them is undefined. *)
Fixpoint run_ops `{hci_headers} (ops : list hci_op) (st : hci_state)
  : option hci_state :=
  match ops with
  | [] => Some st
  | o :: ops' => st ← run_op o st; run_ops ops' st
  end.

(** ** Sample values of the further properties *)

(** HCI_Reset with a complete-callback, HCI_Read_Local_Version with a
    status-callback. *)
Definition sample_requests : list command_request :=
  [ mk_request reset_command (Some 7%nat) None 42;
    mk_request (mk_BT_HDR 0 3 0 0 [0x01; 0x10; 0x00]) None (Some 9%nat) 43 ].

Definition two_commands_queued : hci_state :=
  transmit_all (H := sample_headers) sample_requests fresh_session.

Definition sample_acl_packets : list BT_HDR :=
  [ mk_BT_HDR 0x2100 6 0 0 [0x01; 0x00; 0x02; 0x00; 0x05; 0x06];
    mk_BT_HDR 0x2100 5 0 0 [0x01; 0x00; 0x01; 0x00; 0x07] ].

(** Two data packets queued and no credit left. *)
Definition two_packets_queued : hci_state :=
  set_packet_queue sample_acl_packets (set_command_credits 0 fresh_session).

(** HCI_Reset sent and awaiting its response. *)
Definition reset_pending : hci_state :=
  set_commands_pending_response [reset_entry]
    (set_command_credits 0 fresh_session).

(** An ACL packet (handle 1, body 05 06) in four pieces, the last one
    followed by the start of the next packet. *)
Definition acl_pieces : list (list Z) := [ [0x01]; [0x00; 0x02]; [0x00; 0x05] ].
Definition acl_last_piece : list Z := [0x06].
Definition acl_next_start : list Z := [0x02; 0x00].

(** Command-complete for HCI_Reset (one credit, status 0) in three
    pieces, and command-status for the same opcode in two. *)
Definition reset_complete_pieces : list (list Z) := [ [0x0E; 0x04]; [0x01] ].
Definition reset_complete_last_piece : list Z := [0x03; 0x0C; 0x00].
Definition reset_status_pieces : list (list Z) := [ [0x0F; 0x04; 0x00] ].
Definition reset_status_last_piece : list Z := [0x01; 0x03; 0x0C].

(** At power-on the HAL already holds a command-complete event for
    HCI_Reset that grants five credits. *)
Definition event_waiting_at_power_on : hci_state :=
  set_hal_rx [ []; []; []; [0x0E; 0x04; 0x05; 0x03; 0x0C; 0x00] ]
    power_on_state.

(** HCI_Reset is queued and dispatched, then the HAL reports the
    event. *)
Definition reset_exchange : list hci_op :=
  [ op_transmit_command reset_command (Some 7%nat) None 42;
    op_event_command_ready;
    op_hal_says_data_ready DATA_TYPE_EVENT ].

Definition answered_session : hci_state :=
  default power_on_state
    (run_ops (H := sample_headers) reset_exchange
       (start_up event_waiting_at_power_on).2).



(** * Properties *)

Section Properties.

Context `{hci_headers}.

(** ** The pending-response list *)

Lemma scan_for_opcode_found op l w rest :
  scan_for_opcode op l = (Some w, rest) →
  ∃ older newer,
    l = older ++ w :: newer ∧ rest = older ++ newer
    ∧ opcode w = op ∧ Forall (λ e, opcode e ≠ op) older.
Proof.
  revert rest. induction l as [|e l IH]; intros rest Hscan; simpl in Hscan.
  - discriminate.
  - destruct (decide (opcode e = op)) as [Heq|Hne].
    + simplify_eq. exists [], rest. by repeat split.
    + destruct (scan_for_opcode op l) as [found rest'] eqn:Hl.
      simplify_eq.
      destruct (IH rest' eq_refl) as (older & newer & -> & -> & Hop & Hold).
      exists (e :: older), newer. repeat split; try done.
      by constructor.
Qed.

Lemma scan_for_opcode_none op l rest :
  scan_for_opcode op l = (None, rest) →
  rest = l ∧ Forall (λ e, opcode e ≠ op) l.
Proof.
  revert rest. induction l as [|e l IH]; intros rest Hscan; simpl in Hscan.
  - simplify_eq. by split.
  - destruct (decide (opcode e = op)) as [Heq|Hne]; [discriminate|].
    destruct (scan_for_opcode op l) as [found rest'] eqn:Hl.
    simplify_eq.
    destruct (IH rest' eq_refl) as [-> Hall]. split; [done|by constructor].
Qed.

Lemma set_commands_pending_response_same st :
  set_commands_pending_response (commands_pending_response st) st = st.
Proof. by destruct st. Qed.

(** C7: [get_waiting_command] walks the pending-response list from the
    oldest entry on; it unlinks and returns the first entry with the
    opcode, so every older entry has another opcode and the order of the
    others is kept; without a match it returns NULL and leaves the state
    alone.  Either way at most one entry leaves the list. *)
Theorem get_waiting_command_oldest_match (op : Z) (st : hci_state) :
  let pending := commands_pending_response st in
  let st' := (get_waiting_command op st).2 in
  match (get_waiting_command op st).1 with
  | Some w =>
      ∃ older newer,
        pending = older ++ w :: newer
        ∧ opcode w = op
        ∧ Forall (λ e, opcode e ≠ op) older
        ∧ st' = set_commands_pending_response (older ++ newer) st
        ∧ S (length (commands_pending_response st')) = length pending
  | None =>
      Forall (λ e, opcode e ≠ op) pending ∧ st' = st
  end.
Proof.
  unfold get_waiting_command.
  destruct (scan_for_opcode op (commands_pending_response st))
    as [[w|] rest] eqn:Hscan; simpl.
  - destruct (scan_for_opcode_found _ _ _ _ Hscan)
      as (older & newer & Hl & -> & Hop & Hold).
    exists older, newer. rewrite Hl. repeat split; try done.
    rewrite !length_app. simpl. lia.
  - destruct (scan_for_opcode_none _ _ _ Hscan) as [-> Hall].
    split; [done|]. apply set_commands_pending_response_same.
Qed.

(** ** The event filter *)

Lemma array_get_drop (l : list Z) (k i : nat) :
  array_get (drop k l) i = array_get l (k + i).
Proof. unfold array_get. by rewrite lookup_drop. Qed.

(** C1: [filter_incoming_event] returns true exactly for the event codes
    command-complete (0x0E) and command-status (0x0F), whether or not a
    command was waiting, and leaves every other event untouched for the
    upper layers.  On an intercepted event the buffers go as follows.
    Complete, waiter with a complete callback: the callback gets the
    event packet, the command and the wait entry are freed.  Status,
    waiter with a status callback: the callback gets the command, the
    event packet and the wait entry are freed.  Waiter without the
    relevant callback: packet, command and wait entry are freed.  No
    waiter: only the event packet is freed. *)
Theorem filter_incoming_event_disposition (packet : BT_HDR) (st : hci_state) :
  let code := event_code_of packet in
  let consumed := (filter_incoming_event packet st).1 in
  let st' := (filter_incoming_event packet st).2 in
  (consumed = true
   ↔ code = HCI_COMMAND_COMPLETE_EVT ∨ code = HCI_COMMAND_STATUS_EVT)
  ∧ (consumed = false → st' = st)
  ∧ (code = HCI_COMMAND_COMPLETE_EVT →
     match scan_for_opcode (complete_opcode_of packet)
             (commands_pending_response st) with
     | (Some w, rest) =>
         trace st' = trace st ++
           match complete_callback w with
           | Some cb =>
               [ call_complete_callback cb packet (context w);
                 watchdog_call rest;
                 buffer_free (command w); osi_free w ]
           | None =>
               [ watchdog_call rest;
                 buffer_free packet; buffer_free (command w); osi_free w ]
           end
     | (None, rest) =>
         trace st' = trace st ++
           [ ALOG LOG_WARN "filter_incoming_event";
             watchdog_call rest; buffer_free packet ]
     end)
  ∧ (code = HCI_COMMAND_STATUS_EVT →
     match scan_for_opcode (status_opcode_of packet)
             (commands_pending_response st) with
     | (Some w, rest) =>
         trace st' = trace st ++
           match status_callback w with
           | Some cb =>
               [ call_status_callback cb (status_status_of packet)
                   (command w) (context w);
                 watchdog_call rest;
                 buffer_free packet; osi_free w ]
           | None =>
               [ watchdog_call rest;
                 buffer_free packet; buffer_free (command w); osi_free w ]
           end
     | (None, rest) =>
         trace st' = trace st ++
           [ ALOG LOG_WARN "filter_incoming_event";
             watchdog_call rest; buffer_free packet ]
     end).
Proof.
  unfold filter_incoming_event, event_code_of, complete_opcode_of,
    status_opcode_of, status_status_of, STREAM_TO_UINT8, STREAM_SKIP_UINT8,
    STREAM_TO_UINT16, get_waiting_command.
  rewrite ?drop_drop, ?array_get_drop. simpl.
  set (code := UINT8 (array_get (data packet) 0)).
  destruct (decide (code = HCI_COMMAND_COMPLETE_EVT)) as [Hc|Hc].
  - destruct (scan_for_opcode _ _) as [[w|] rest] eqn:Hscan; simpl.
    + split; [by intuition|]. split; [done|]. split; [|by rewrite Hc].
      intros _. rewrite Hc.
      destruct (complete_callback w) as [cb|] eqn:Hcb,
        (status_callback w) eqn:Hsb; settle_disposition.
    + split; [by intuition|]. split; [done|]. split; [|by rewrite Hc].
      intros _. settle_disposition.
  - destruct (decide (code = HCI_COMMAND_STATUS_EVT)) as [Hs|Hs].
    + destruct (scan_for_opcode _ _) as [[w|] rest] eqn:Hscan; simpl.
      * split; [by intuition|]. split; [done|]. split; [done|].
        intros _. rewrite Hs.
        destruct (complete_callback w) eqn:Hcb,
          (status_callback w) as [cb|] eqn:Hsb; settle_disposition.
      * split; [by intuition|]. split; [done|]. split; [done|].
        intros _. settle_disposition.
    + simpl. split; [|by repeat split].
      split; [done|]. by intros [?|?].
Qed.

(** ** The outbound scheduler *)

(** C2: with a credit left and a command at the head of the command
    queue, [event_command_ready] takes exactly that command off the
    queue, lowers the credits by one, puts the entry at the tail of the
    pending-response list, calls [wake_assert], [fragment_and_dispatch]
    on the command buffer and [transmit_done] in this order, and then
    re-arms the command watchdog; nothing else changes.  With no credit
    it leaves the whole state as it is. *)
Theorem event_command_ready_dispatches_one (st : hci_state) :
  (∀ wait_entry rest,
     0 < command_credits st →
     command_queue st = wait_entry :: rest →
     event_command_ready st =
       Some (mk_state (command_credits st - 1) (firmware_is_configured st)
               (has_shut_down st) (thread st) rest (packet_queue st)
               (commands_pending_response st ++ [wait_entry])
               (incoming_packets st) (hal_rx st) (alloc_script st)
               (vendor_script st)
               (trace st ++
                  [ wake_assert; fragment_and_dispatch (command wait_entry);
                    transmit_done;
                    alarm_set command_response_alarm
                      COMMAND_PENDING_TIMEOUT ])))
  ∧ (command_credits st = 0 → event_command_ready st = Some st).
Proof.
  split.
  - intros wait_entry rest Hcredits Hqueue. unfold event_command_ready.
    rewrite decide_True by done. rewrite Hqueue. simpl.
    unfold restart_command_timeout_alarm, list_append. simpl.
    destruct (commands_pending_response st); simpl;
      unfold emit, set_trace; simpl; by rewrite <- !app_assoc.
  - intros Hzero. unfold event_command_ready.
    rewrite decide_False by lia. done.
Qed.

(** C10: when the wait entry cannot be allocated, [transmit_command] only
    logs an error: the command queue and every other variable of the
    layer stay as they were, so no callback can ever be reached through
    a wait entry for this command, nothing is freed, and nothing is
    reported to the caller (the function returns void). *)
Theorem transmit_command_drops_on_allocation_failure
    (command : BT_HDR) (complete_callback : option command_complete_cb)
    (status_callback : option command_status_cb) (context : Z)
    (st : hci_state) (later : list bool) :
  alloc_script st = false :: later →
  transmit_command command complete_callback status_callback context st
  = emit (ALOG LOG_ERROR "transmit_command") (set_alloc_script later st).
Proof.
  intros Hfail. unfold transmit_command, allocate. by rewrite Hfail.
Qed.

(** ** The lifecycle *)

(** C9, as the code has it: when the vendor's [send_async_command] for
    the SCO configuration returns -1, [event_postload] goes on as
    [sco_config_callback false], which starts the ACL size fetch. *)
Theorem event_postload_synthesizes_sco_callback (st : hci_state) :
  let sent :=
    send_async_command VENDOR_CONFIGURE_SCO
      (emit (ALOG LOG_INFO "event_postload") st) in
  sent.1 = -1 →
  event_postload st = sco_config_callback false sent.2
  ∧ trace (event_postload st) =
      trace st ++ [ ALOG LOG_INFO "event_postload";
                    vendor_send_async_command VENDOR_CONFIGURE_SCO;
                    controller_begin_acl_size_fetch ].
Proof.
  unfold event_postload. simpl.
  destruct (send_async_command _ _) as [ret st1] eqn:Hsent. simpl.
  intros ->. rewrite decide_True by done. split; [done|].
  unfold send_async_command in Hsent. simpl in Hsent.
  destruct (vendor_script st); simplify_eq; simpl; by rewrite <- !app_assoc.
Qed.


(** C8: [shut_down] ends with [has_shut_down] set; a call that finds the
    flag set logs one warning and changes nothing else, so a second call
    in a session only adds that warning to what the first one left.  A
    call that finds the flag clear runs the whole teardown. *)
Theorem shut_down_idempotent (st : hci_state) :
  has_shut_down (shut_down st) = true
  ∧ (has_shut_down st = true →
     shut_down st = emit (ALOG LOG_WARN "shut_down") st)
  ∧ shut_down (shut_down st)
    = emit (ALOG LOG_WARN "shut_down") (shut_down st)
  ∧ (has_shut_down st = false →
     trace (shut_down st) =
       trace st ++ [ALOG LOG_INFO "shut_down"; hci_inject_close]
         ++ (if thread st then
               (if firmware_is_configured st then
                  [ alarm_set epilog_alarm EPILOG_TIMEOUT_MS;
                    thread_post work_epilog ]
                else [thread_stop]) ++ [thread_join]
             else [])
         ++ (buffer_free_entry <$> command_queue st)
         ++ [queue_free the_command_queue]
         ++ (buffer_free <$> packet_queue st)
         ++ [ queue_free the_packet_queue; list_free; mutex_destroy;
              fragmenter_cleanup; alarm_free epilog_alarm;
              alarm_free command_response_alarm; low_power_cleanup;
              hal_close; ALOG LOG_DEBUG "set_chip_power_on";
              vendor_send_command VENDOR_CHIP_POWER_CONTROL false;
              vendor_close; thread_free ]
     ∧ thread (shut_down st) = false
     ∧ firmware_is_configured (shut_down st) = false
     ∧ command_queue (shut_down st) = []
     ∧ packet_queue (shut_down st) = []
     ∧ commands_pending_response (shut_down st) = []
     ∧ command_credits (shut_down st) = command_credits st).
Proof.
  assert (Hagain : ∀ s, has_shut_down s = true →
            shut_down s = emit (ALOG LOG_WARN "shut_down") s).
  { intros s Hs. unfold shut_down. by rewrite Hs. }
  assert (Hflag : has_shut_down (shut_down st) = true).
  { destruct st as [cr fw [] th cq pq pend inc rx al ve tr]; [done|].
    by vm_compute. }
  split; [done|]. split; [apply Hagain|]. split; [by apply Hagain|].
  destruct st as [cr fw down th cq pq pend inc rx al ve tr].
  simpl. intros ->.
  destruct th, fw; cbv -[app fmap]; by rewrite <- ?app_assoc.
Qed.

(** ** Fixed-width arithmetic *)

Lemma UINT16_small (x : Z) : 0 <= x < 65536 → UINT16 x = x.
Proof. intros Hx. unfold UINT16. by apply Z.mod_small. Qed.



Lemma UINT8_is_byte (x : Z) : is_byte (UINT8 x).
Proof. unfold is_byte, UINT8. by apply Z.mod_pos_bound. Qed.

Lemma array_get_is_byte (p : list Z) (i : nat) :
  Forall is_byte p → is_byte (array_get p i).
Proof.
  intros Hp. unfold array_get. destruct (p !! i) as [b|] eqn:Hi; simpl.
  - by eapply Forall_lookup_1.
  - unfold is_byte. lia.
Qed.

(** The macro reads the length field as a little-endian 16-bit number. *)
Lemma RETRIEVE_ACL_LENGTH_little_endian (p : list Z) :
  Forall is_byte p →
  RETRIEVE_ACL_LENGTH p = array_get p 2 + 256 * array_get p 3
  ∧ 0 <= RETRIEVE_ACL_LENGTH p < 65536.
Proof.
  intros Hp. unfold RETRIEVE_ACL_LENGTH.
  pose proof (array_get_is_byte p 2 Hp) as Hlo.
  pose proof (array_get_is_byte p 3 Hp) as Hhi.
  unfold is_byte in *.
  set (lo := array_get p 2) in *. set (hi := array_get p 3) in *.
  assert (Hsum : Z.lor (hi ≪ 8) lo = lo + 256 * hi).
  { rewrite <- Z.add_nocarry_lor.
    - rewrite Z.shiftl_mul_pow2 by lia. change (2 ^ 8) with 256. lia.
    - apply Z.bits_inj'. intros n Hn. rewrite Z.land_spec, Z.bits_0.
      destruct (decide (n < 8)) as [Hlt|Hge].
      + rewrite Z.shiftl_spec_low by lia. done.
      + rewrite andb_false_iff. right.
        destruct (decide (lo = 0)) as [->|Hnz]; [apply Z.bits_0|].
        apply Z.bits_above_log2; [lia|].
        apply Z.log2_lt_pow2; [lia|].
        apply Z.lt_le_trans with (2 ^ 8); [change (2 ^ 8) with 256; lia|].
        apply Z.pow_le_mono_r; lia. }
  rewrite Hsum. lia.
Qed.

(** ** The HAL and the context array *)

Lemma inbound_index_cases (type : serial_data_type_t) :
  type ≠ DATA_TYPE_COMMAND →
  0 <= PACKET_TYPE_TO_INBOUND_INDEX type
  ∧ (Z.to_nat (PACKET_TYPE_TO_INBOUND_INDEX type) < INBOUND_PACKET_TYPE_COUNT)%nat.
Proof. destruct type; try done; vm_compute; split; (congruence || lia). Qed.


Lemma preamble_size_cases (type : serial_data_type_t) :
  2 <= preamble_size_of type <= 4.
Proof. destruct type; vm_compute; split; congruence. Qed.




Lemma incoming_of_store_eq (type : serial_data_type_t)
    (c : packet_receive_data_t) (st : hci_state) :
  is_Some (incoming_of type st) →
  incoming_of type (store_incoming type c st) = Some c.
Proof.
  unfold incoming_of, store_incoming, at_index. simpl.
  case_decide; [|by intros [? ?]].
  intros Hsome. apply list_lookup_insert_eq. by apply lookup_lt_is_Some_1.
Qed.





Lemma type_index_nonneg (type : serial_data_type_t) :
  0 <= PACKET_TYPE_TO_INDEX type.
Proof. by destruct type. Qed.

Lemma set_hal_rx_same (st : hci_state) : set_hal_rx (hal_rx st) st = st.
Proof. by destruct st. Qed.

(** [read_data] hands over a prefix of what is buffered and keeps the
    rest; nothing else changes. *)
Lemma read_data_takes (type : serial_data_type_t) (max_size : Z)
    (st : hci_state) :
  (read_data type max_size st).1
    = UINT8 <$> take (Z.to_nat max_size) (buffered type st)
  ∧ buffered type (read_data type max_size st).2
    = drop (Z.to_nat max_size) (buffered type st)
  ∧ (read_data type max_size st).2
    = set_hal_rx (hal_rx (read_data type max_size st).2) st.
Proof.
  unfold read_data, buffered, at_index.
  rewrite decide_True by apply type_index_nonneg.
  destruct (hal_rx st !! Z.to_nat (PACKET_TYPE_TO_INDEX type))
    as [avail|] eqn:Havail; simpl.
  - rewrite decide_True by apply type_index_nonneg.
    rewrite list_lookup_insert_eq by by eapply lookup_lt_Some.
    done.
  - rewrite decide_True by apply type_index_nonneg.
    rewrite Havail. simpl. rewrite take_nil, drop_nil.
    by rewrite set_hal_rx_same.
Qed.


(** The preamble is complete with this byte: the body length, the size
    of the request to the allocator, and the context either way. *)
Lemma receive_preamble_complete (type : serial_data_type_t) (byte : Z)
    (c : packet_receive_data_t) (st : hci_state) :
  0 <= index c → bytes_remaining c = 1 →
  index c + 1 = preamble_size_of type →
  length (preamble c) = PREAMBLE_BUFFER_SIZE →
  Forall is_byte (preamble c) → is_byte byte →
  let p := <[Z.to_nat (index c) := byte]> (preamble c) in
  let body_length :=
    if decide (type = DATA_TYPE_ACL) then RETRIEVE_ACL_LENGTH p else byte in
  let size := BT_HDR_SIZE + preamble_size_of type + body_length in
  let tag :=
    default 0 (at_index outbound_event_types (PACKET_TYPE_TO_INDEX type)) in
  0 <= body_length < 65536
  ∧ receive_preamble type byte c st =
    if (allocate (emit (buffer_alloc size) st)).1 then
      Some (mk_receive (if decide (0 < body_length) then BODY else FINISHED)
              body_length p (preamble_size_of type)
              (Some (mk_BT_HDR tag 0 0 0
                       (take (Z.to_nat (preamble_size_of type)) p
                        ++ replicate (Z.to_nat body_length) 0))),
            (allocate (emit (buffer_alloc size) st)).2)
    else
      Some (mk_receive (if decide (body_length = 0) then BRAND_NEW
                        else IGNORE)
              body_length p (preamble_size_of type) None,
            emit (ALOG LOG_ERROR "hal_says_data_ready")
              (allocate (emit (buffer_alloc size) st)).2).
Proof.
  intros Hidx Hbr Hsize Hlen Hbytes Hbyte p body_length size tag.
  pose proof (preamble_size_cases type) as Hps.
  assert (Hp : Forall is_byte p) by by apply Forall_insert.
  assert (Hbl : 0 <= body_length < 65536).
  { subst body_length. case_decide.
    - by apply RETRIEVE_ACL_LENGTH_little_endian.
    - unfold is_byte in Hbyte. lia. }
  split; [done|].
  unfold receive_preamble. unfold PREAMBLE_BUFFER_SIZE in *.
  rewrite decide_True by lia.
  rewrite Hbr. change (UINT16 (1 - 1)) with 0. rewrite decide_True by done.
  fold p. fold body_length.
  rewrite (UINT16_small body_length) by done.
  rewrite (UINT16_small (index c + 1)) by lia.
  rewrite Hsize. fold size. fold tag.
  destruct (allocate (emit (buffer_alloc size) st)) as [ok st1]. simpl.
  destruct ok; simpl; [|done].
  do 4 f_equal. unfold memcpy. f_equal.
  rewrite drop_replicate. f_equal. f_equal. lia.
Qed.

Lemma allocate_frame (st : hci_state) :
  (allocate st).2 = set_alloc_script (alloc_script (allocate st).2) st.
Proof. destruct st as [? ? ? ? ? ? ? ? ? [|ok al] ? ?]; done. Qed.

(** ** One round of the switch on a well-formed context *)




(** ** What the event filter leaves alone *)

Lemma filter_incoming_event_frame (packet : BT_HDR) (st : hci_state) :
  let st' := (filter_incoming_event packet st).2 in
  ((filter_incoming_event packet st).1 = true ↔ intercept_code packet)
  ∧ ((filter_incoming_event packet st).1 = false → st' = st)
  ∧ incoming_packets st' = incoming_packets st
  ∧ hal_rx st' = hal_rx st
  ∧ (command_credits st' = command_credits st
     ∨ ∃ field, command_credits st' = UINT8 field)
  ∧ ∃ q, trace st' = trace st ++ q ∧ quiet q.
Proof.
  destruct st as [cr fw down th cq pq pend inc rx al ve tr].
  unfold filter_incoming_event, intercept_code, event_code_of,
    STREAM_TO_UINT8, STREAM_SKIP_UINT8, STREAM_TO_UINT16, get_waiting_command.
  rewrite ?drop_drop, ?array_get_drop. simpl.
  set (code := UINT8 (array_get (data packet) 0)).
  destruct (decide (code = HCI_COMMAND_COMPLETE_EVT)) as [Hc|Hc];
    [|destruct (decide (code = HCI_COMMAND_STATUS_EVT)) as [Hs|Hs]].
  3: { simpl. repeat split; try done; try (by intros [?|?]); try by left.
       exists []. split; [by rewrite app_nil_r|by constructor]. }
  all: destruct (scan_for_opcode _ pend) as [[w|] rest]; simpl.
  all: unfold intercepted, restart_command_timeout_alarm; simpl.
  all: repeat case_decide; repeat case_match; simpl.
  all: (split; [by intuition|]); (split; [done|]); (split; [done|]);
       (split; [done|]); (split; [right; by eexists|]).
  all: eexists; (split; [rewrite <- ?app_assoc; simpl; reflexivity|]).
  all: by repeat constructor.
Qed.


(** ** The end of a packet *)


(** The [FINISHED] block when it returns, step by step. *)
Lemma packet_is_finished_Some (type : serial_data_type_t)
    (c : packet_receive_data_t) (st st' : hci_state) :
  packet_is_finished type c st = Some st' →
  ∃ buf handed,
    buffer c = Some buf
    ∧ st' = emit (hal_packet_finished type)
              (store_incoming type
                 (mk_receive BRAND_NEW (bytes_remaining c) (preamble c)
                    (index c) None) handed)
    ∧ let packet := with_len (index c) buf in
      let captured := emit (btsnoop_capture packet true) st in
      (type ≠ DATA_TYPE_EVENT
       ∧ handed = emit (reassemble_and_dispatch packet) captured)
      ∨ (type = DATA_TYPE_EVENT
         ∧ (filter_read_size packet <= length (data packet))%nat
         ∧ handed
           = if negb (filter_incoming_event packet captured).1
             then emit (reassemble_and_dispatch packet)
                    (filter_incoming_event packet captured).2
             else (filter_incoming_event packet captured).2).
Proof.
  unfold packet_is_finished. destruct (buffer c) as [buf|]; [|done].
  destruct (decide (type ≠ DATA_TYPE_EVENT)) as [Hne|Heq]; simpl.
  - intros; simplify_eq. eexists _, _. split; [done|]. split; [done|].
    left. by split.
  - apply dec_stable in Heq.
    destruct (decide (_ <= _)%nat) as [Hbound|]; [|done].
    destruct (filter_incoming_event _ _) as [swallowed s1] eqn:Hfilter.
    simpl. intros; simplify_eq. eexists _, _. split; [done|].
    split; [done|]. right. split; [done|]. split; [done|].
    by rewrite Hfilter.
Qed.

(** An event too short for the reads of the filter. *)
Lemma packet_is_finished_short (c : packet_receive_data_t) (buf : BT_HDR)
    (st : hci_state) :
  buffer c = Some buf →
  let packet := with_len (index c) buf in
  ¬ (filter_read_size packet <= length (data packet))%nat →
  packet_is_finished DATA_TYPE_EVENT c st = None.
Proof.
  intros Hbuf packet Hshort. unfold packet_is_finished. rewrite Hbuf.
  fold packet. rewrite decide_False by (intros Hne; by apply Hne).
  by rewrite decide_False.
Qed.

(** ** The loop of [hal_says_data_ready] *)

Lemma data_ready_loop_unfold (fuel : nat) (type : serial_data_type_t)
    (st : hci_state) :
  data_ready_loop (S fuel) type st =
    match read_data type 1 st with
    | ([], _) => Some st
    | (byte :: _, st1) =>
        incoming ← incoming_of type st1;
        '(incoming, st2) ← receive_byte type byte incoming st1;
        let st2 := store_incoming type incoming st2 in
        if decide (state incoming = FINISHED) then
          packet_is_finished type incoming st2
        else data_ready_loop fuel type st2
    end.
Proof. done. Qed.



Lemma credits_after_data_ready_refl (type : serial_data_type_t) (n : Z) :
  credits_after (op_hal_says_data_ready type) n n.
Proof. destruct type; simpl; try done. by left. Qed.


(** ** Completing a preamble *)

Lemma body_length_announced (type : serial_data_type_t) (byte : Z)
    (c : packet_receive_data_t) :
  0 <= index c → index c + 1 = preamble_size_of type →
  length (preamble c) = PREAMBLE_BUFFER_SIZE →
  Forall is_byte (preamble c) → is_byte byte →
  let p := <[Z.to_nat (index c) := byte]> (preamble c) in
  (if decide (type = DATA_TYPE_ACL) then RETRIEVE_ACL_LENGTH p else byte)
  = announced_body_length type p.
Proof.
  intros Hidx Hsize Hlen Hbytes Hbyte p.
  pose proof (preamble_size_cases type) as Hps.
  assert (Hlast : array_get p (Z.to_nat (preamble_size_of type - 1)) = byte).
  { unfold array_get, p. rewrite <- Hsize.
    replace (index c + 1 - 1) with (index c) by lia.
    rewrite list_lookup_insert_eq; [done|].
    rewrite Hlen. unfold PREAMBLE_BUFFER_SIZE. lia. }
  case_decide as Hacl.
  - subst type. unfold announced_body_length.
    apply RETRIEVE_ACL_LENGTH_little_endian. by apply Forall_insert.
  - destruct type; done.
Qed.

(** C4: when a byte completes the preamble, the body length is the
    little-endian 16-bit number in preamble bytes 2 and 3 for ACL and
    the last preamble byte for the other types; the allocator is asked
    for [BT_HDR_SIZE] + the preamble size + the body length; the buffer
    it returns starts with the preamble bytes, has [offset] 0 and the
    tag of the type as [event]; [bytes_remaining] is the body length and
    the state is [BODY] for a body length above 0 and [FINISHED] for 0. *)
Theorem preamble_completion (type : serial_data_type_t) (byte : Z)
    (c : packet_receive_data_t) (st : hci_state) :
  state c = PREAMBLE → receive_data_wf type c → bytes_remaining c = 1 →
  is_byte byte → head (alloc_script st) ≠ Some false →
  let p := <[Z.to_nat (index c) := byte]> (preamble c) in
  let body_length := announced_body_length type p in
  let size := BT_HDR_SIZE + preamble_size_of type + body_length in
  ∃ c' st' buf,
    receive_byte type byte c st = Some (c', st')
    ∧ trace st' = trace st ++ [buffer_alloc size]
    ∧ buffer c' = Some buf
    ∧ Z.of_nat (length (data buf)) = preamble_size_of type + body_length
    ∧ take (Z.to_nat (preamble_size_of type)) (data buf)
      = take (Z.to_nat (preamble_size_of type)) p
    ∧ offset buf = 0
    ∧ event buf = inbound_tag type
    ∧ preamble c' = p
    ∧ index c' = preamble_size_of type
    ∧ bytes_remaining c' = body_length
    ∧ 0 <= body_length < 65536
    ∧ (0 < body_length → state c' = BODY)
    ∧ (body_length = 0 → state c' = FINISHED).
Proof.
  intros Hstate Hwf Hbr Hbyte Halloc p body_length size.
  unfold receive_data_wf in Hwf. rewrite Hstate in Hwf.
  destruct Hwf as (Hidx & _ & Hsum & Hlen & Hbytes).
  pose proof (preamble_size_cases type) as Hps.
  unfold receive_byte. rewrite Hstate.
  destruct (receive_preamble_complete type byte c st) as [Hbl ->];
    try done; try lia.
  rewrite body_length_announced in * by (done || lia).
  fold p body_length size in Hbl |- *.
  assert (Hok : allocate (emit (buffer_alloc size) st)
                = (true, set_alloc_script (tail (alloc_script st))
                           (emit (buffer_alloc size) st))).
  { destruct st as [? ? ? ? ? ? ? ? ? [|[] al] ? ?]; simpl in *; done. }
  rewrite Hok. simpl.
  eexists _, _, _. split; [done|]. simpl.
  assert (Hplen : length p = 4%nat) by (unfold p; by rewrite length_insert).
  split; [done|]. split; [done|]. simpl. split.
  { rewrite length_app, length_take, length_replicate, Hplen. lia. }
  split.
  { rewrite take_app_le by (rewrite length_take, Hplen; lia).
    rewrite take_take. f_equal. lia. }
  split; [done|]. split; [by destruct type|].
  split; [done|]. split; [done|]. split; [done|]. split; [done|].
  split; intros Hcase.
  - by rewrite decide_True.
  - by rewrite decide_False by lia.
Qed.

(** ** Dropping a packet after a failed allocation *)

Lemma read_data_one (type : serial_data_type_t) (st : hci_state)
    (b : Z) (rest : list Z) :
  buffered type st = b :: rest →
  read_data type 1 st = ([UINT8 b], set_buffered type rest st).
Proof.
  unfold buffered, read_data, set_buffered.
  destruct (at_index (hal_rx st) (PACKET_TYPE_TO_INDEX type)) as [avail|];
    simpl; [|done].
  by intros ->.
Qed.

Lemma buffered_set_buffered (type : serial_data_type_t) (l : list Z)
    (st : hci_state) :
  buffered type st ≠ [] → buffered type (set_buffered type l st) = l.
Proof.
  unfold buffered, set_buffered, at_index. simpl.
  rewrite decide_True by apply type_index_nonneg.
  destruct (hal_rx st !! Z.to_nat (PACKET_TYPE_TO_INDEX type))
    as [avail|] eqn:Havail; simpl; [|done].
  intros _. rewrite list_lookup_insert_eq by by eapply lookup_lt_Some.
  by rewrite decide_True by apply type_index_nonneg.
Qed.

Lemma set_buffered_same (type : serial_data_type_t) (st : hci_state) :
  set_buffered type (buffered type st) st = st.
Proof.
  unfold buffered, set_buffered, at_index.
  rewrite decide_True by apply type_index_nonneg.
  destruct (hal_rx st !! Z.to_nat (PACKET_TYPE_TO_INDEX type))
    as [avail|] eqn:Havail; simpl.
  - rewrite list_insert_id by done. apply set_hal_rx_same.
  - rewrite list_insert_ge by by apply lookup_ge_None.
    apply set_hal_rx_same.
Qed.

Lemma store_incoming_same (type : serial_data_type_t)
    (c : packet_receive_data_t) (st : hci_state) :
  incoming_of type st = Some c → store_incoming type c st = st.
Proof.
  unfold incoming_of, store_incoming, at_index. case_decide; [|done].
  intros Hc. rewrite list_insert_id by done. by destruct st.
Qed.

(** A round stores over what the round before stored. *)
Lemma store_set_collapse (type : serial_data_type_t)
    (c c' : packet_receive_data_t) (l l' : list Z) (st : hci_state) :
  store_incoming type c' (set_buffered type l'
    (store_incoming type c (set_buffered type l st)))
  = store_incoming type c' (set_buffered type l' st).
Proof.
  destruct st. unfold store_incoming, set_buffered. simpl.
  by rewrite !list_insert_insert_eq.
Qed.

(** [k] rounds in [IGNORE]: one byte each, nothing but the counter moves,
    and the state is left exactly when the counter reaches 0. *)
Lemma ignore_rounds (type : serial_data_type_t) (rest : list Z) :
  ∀ (body : list Z) (c : packet_receive_data_t) (st : hci_state)
    (fuel : nat),
    incoming_of type st = Some c →
    state c = IGNORE →
    1 <= bytes_remaining c <= 65535 →
    Z.of_nat (length body) <= bytes_remaining c →
    buffered type st = body ++ rest →
    let left_over := bytes_remaining c - Z.of_nat (length body) in
    data_ready_loop (length body + fuel) type st
    = data_ready_loop fuel type
        (store_incoming type
           (mk_receive (if decide (left_over = 0) then BRAND_NEW else IGNORE)
              left_over (preamble c) (index c) (buffer c))
           (set_buffered type rest st)).
Proof.
  induction body as [|b body IH]; intros c st fuel Hc Hstate Hn Hk Hbuf.
  - simpl in *. rewrite <- Hbuf, set_buffered_same.
    rewrite Z.sub_0_r, decide_False by lia.
    rewrite store_incoming_same; [done|].
    rewrite Hc. f_equal. destruct c; simpl in *. by subst.
  - simpl length. simpl plus. rewrite data_ready_loop_unfold.
    simpl in Hbuf. rewrite (read_data_one _ _ _ _ Hbuf).
    change (incoming_of type (set_buffered type (body ++ rest) st))
      with (incoming_of type st).
    rewrite Hc. simpl. unfold receive_byte. rewrite Hstate. simpl.
    rewrite (UINT16_small (bytes_remaining c - 1)) by lia.
    set (c1 := mk_receive _ _ _ _ _).
    assert (Hnf : state c1 ≠ FINISHED).
    { unfold c1. simpl. by case_decide. }
    rewrite decide_False by done.
    change (Z.of_nat (length (b :: body)))
      with (Z.of_nat (S (length body))) in *.
    destruct (decide (bytes_remaining c - 1 = 0)) as [Hlast|Hmore].
    + assert (body = []) as -> by (destruct body; simpl in *; [done|lia]).
      simpl. f_equal. f_equal. unfold c1. rewrite !decide_True by lia.
      f_equal; lia.
    + set (st2 := store_incoming type c1 _).
      assert (Hc2 : incoming_of type st2 = Some c1).
      { apply incoming_of_store_eq.
        change (is_Some (incoming_of type st)). by rewrite Hc. }
      assert (Hc1 : c1 = mk_receive IGNORE (bytes_remaining c - 1)
                           (preamble c) (index c) (buffer c)).
      { unfold c1. by rewrite ?decide_False by done. }
      rewrite (IH c1 st2 fuel Hc2).
      * unfold st2. rewrite store_set_collapse. rewrite Hc1. simpl.
        do 2 f_equal. f_equal; [|lia].
        replace (bytes_remaining c - 1 - Z.of_nat (length body))
          with (bytes_remaining c - Z.of_nat (S (length body))) by lia.
        done.
      * by rewrite Hc1.
      * rewrite Hc1. simpl. lia.
      * rewrite Hc1. simpl. lia.
      * unfold st2.
        change (buffered type (store_incoming type c1
                  (set_buffered type (body ++ rest) st)))
          with (buffered type (set_buffered type (body ++ rest) st)).
        apply buffered_set_buffered. by rewrite Hbuf.
Qed.

(** C6: the allocation fails on the byte [b] that completes a preamble,
    and [k] more bytes of the dropped packet's body are buffered.  The
    loop asks the allocator, logs the error, and takes the [k] bytes one
    per round without any other call: with [k] below the body length the
    context is in [IGNORE] with the rest of the body length still to go
    ([k] = 0 is the state right after the failure), with [k] equal to
    the body length (0 included) it is back in [BRAND_NEW] without a
    buffer, and the loop goes on from there with what follows in the
    HAL.  With nothing following, the call returns that state: no packet
    call was made for the dropped packet. *)
Theorem allocation_failure_drains (type : serial_data_type_t)
    (c : packet_receive_data_t) (st : hci_state) (b : Z)
    (body rest : list Z) :
  type ≠ DATA_TYPE_COMMAND →
  incoming_wf st →
  incoming_of type st = Some c →
  state c = PREAMBLE →
  bytes_remaining c = 1 →
  head (alloc_script st) = Some false →
  buffered type st = b :: body ++ rest →
  let p := <[Z.to_nat (index c) := UINT8 b]> (preamble c) in
  let body_length := announced_body_length type p in
  let k := Z.of_nat (length body) in
  k <= body_length →
  let size := BT_HDR_SIZE + preamble_size_of type + body_length in
  let dropped :=
    emit (ALOG LOG_ERROR "hal_says_data_ready")
      (set_alloc_script (tail (alloc_script st))
         (emit (buffer_alloc size) st)) in
  let c_k :=
    mk_receive (if decide (body_length - k = 0) then BRAND_NEW else IGNORE)
      (body_length - k) p (preamble_size_of type) None in
  let st_k := store_incoming type c_k (set_buffered type rest dropped) in
  (∀ fuel, data_ready_loop (S (length body) + fuel) type st
           = data_ready_loop fuel type st_k)
  ∧ hal_says_data_ready type st = hal_says_data_ready type st_k
  ∧ (rest = [] → hal_says_data_ready type st = Some st_k).
Proof.
  intros Htype Hwf Hc Hstate Hbr Hfail Hbuf p body_length k Hk size dropped
    c_k st_k.
  pose proof (proj2 Hwf type c Hc) as Hwfc.
  unfold receive_data_wf in Hwfc. rewrite Hstate in Hwfc.
  destruct Hwfc as (Hidx & _ & Hsum & Hlen & Hbytes).
  pose proof (preamble_size_cases type) as Hps.
  assert (Hloop : ∀ fuel, data_ready_loop (S (length body) + fuel) type st
                          = data_ready_loop fuel type st_k).
  { intros fuel. simpl plus. rewrite data_ready_loop_unfold.
    rewrite (read_data_one _ _ _ _ Hbuf).
    set (st1 := set_buffered type (body ++ rest) st).
    change (incoming_of type st1) with (incoming_of type st).
    rewrite Hc. simpl. unfold receive_byte. rewrite Hstate.
    destruct (receive_preamble_complete type (UINT8 b) c st1) as [Hbl ->];
      try done; try lia; try apply UINT8_is_byte.
    rewrite body_length_announced in *
      by (done || lia || apply UINT8_is_byte).
    fold p body_length size in Hbl |- *.
    assert (Hno : allocate (emit (buffer_alloc size) st1)
                  = (false, set_alloc_script (tail (alloc_script st))
                              (emit (buffer_alloc size) st1))).
    { unfold st1. destruct st as [? ? ? ? ? ? ? ? ? [|[] al] ? ?];
        simpl in *; done. }
    rewrite Hno. simpl.
    set (c' := mk_receive _ body_length p _ None).
    assert (Hnf : state c' ≠ FINISHED) by (unfold c'; simpl; by case_decide).
    rewrite decide_False by done.
    set (st2 := store_incoming type c' _).
    assert (Hc2 : incoming_of type st2 = Some c').
    { apply incoming_of_store_eq.
      change (is_Some (incoming_of type st)). by rewrite Hc. }
    assert (Hst2 : ∀ c'', store_incoming type c'' (set_buffered type rest st2)
                          = store_incoming type c''
                              (set_buffered type rest dropped)).
    { intros c''. unfold st2, st1, dropped. destruct st.
      unfold store_incoming, set_buffered, emit. simpl.
      by rewrite !list_insert_insert_eq. }
    destruct (decide (body_length = 0)) as [Hzero|Hpos].
    - assert (body = []) as ->
        by (destruct body; [done|unfold k in Hk; simpl in Hk; lia]).
      simpl. f_equal. unfold st_k.
      rewrite <- (Hst2 c_k).
      assert (Hb2 : buffered type st2 = rest).
      { unfold st2, st1.
        change (buffered type (set_buffered type ([] ++ rest) st) = rest).
        apply buffered_set_buffered. by rewrite Hbuf. }
      rewrite <- Hb2 at 1. rewrite set_buffered_same.
      rewrite store_incoming_same; [done|].
      rewrite Hc2. f_equal. unfold c', c_k, k. simpl.
      rewrite Hzero. simpl. done.
    - assert (Hc' : c' = mk_receive IGNORE body_length p
                           (preamble_size_of type) None).
      { unfold c'. by rewrite ?decide_False by done. }
      rewrite (ignore_rounds type rest body c' st2 fuel Hc2).
      + rewrite Hst2. unfold st_k, c_k, k. by rewrite Hc'.
      + by rewrite Hc'.
      + rewrite Hc'. simpl. lia.
      + rewrite Hc'. simpl. unfold k in Hk. lia.
      + unfold st2, st1.
        change (buffered type (set_buffered type (body ++ rest) st)
                = body ++ rest).
        apply buffered_set_buffered. by rewrite Hbuf. }
  assert (Hrest : buffered type st_k = rest).
  { unfold st_k, dropped.
    change (buffered type (set_buffered type rest st) = rest).
    apply buffered_set_buffered. by rewrite Hbuf. }
  assert (Hcall : hal_says_data_ready type st = hal_says_data_ready type st_k).
  { unfold hal_says_data_ready. rewrite Hbuf, Hrest.
    replace (S (length (b :: body ++ rest)))
      with (S (length body) + S (length rest))%nat
      by (simpl; rewrite length_app; lia).
    apply Hloop. }
  split; [done|]. split; [done|].
  intros ->. rewrite Hcall. unfold hal_says_data_ready.
  rewrite Hrest. simpl length. rewrite data_ready_loop_unfold.
  pose proof (read_data_takes type 1 st_k) as (Hchunk & _).
  destruct (read_data type 1 st_k) as [chunk st']. simpl in Hchunk.
  rewrite Hrest in Hchunk. simpl in Hchunk. by subst chunk.
Qed.

(** ** The credit counter *)

Lemma allocate_credits (st : hci_state) :
  command_credits (allocate st).2 = command_credits st.
Proof. rewrite allocate_frame. done. Qed.

Lemma read_data_credits (type : serial_data_type_t) (n : Z)
    (st : hci_state) :
  command_credits (read_data type n st).2 = command_credits st.
Proof.
  pose proof (read_data_takes type n st) as (_ & _ & Hst).
  rewrite Hst. done.
Qed.

Lemma receive_byte_credits (type : serial_data_type_t) (byte : Z)
    (c c' : packet_receive_data_t) (st st' : hci_state) :
  receive_byte type byte c st = Some (c', st') →
  command_credits st' = command_credits st.
Proof.
  assert (Hpre : ∀ c0, receive_preamble type byte c0 st = Some (c', st') →
                       command_credits st' = command_credits st).
  { intros c0. unfold receive_preamble.
    case_decide; [|done]. case_decide; [|intros; by simplify_eq].
    match goal with
    | |- context [allocate ?s] =>
        pose proof (allocate_credits s) as Ha;
        destruct (allocate s) as [[] s1]
    end; simpl in *; intros; simplify_eq; simpl; by rewrite Ha. }
  unfold receive_byte. destruct (state c).
  - apply Hpre.
  - apply Hpre.
  - unfold receive_body. destruct (buffer c); [|done].
    case_decide; [|done].
    match goal with
    | |- context [read_data type ?n st] =>
        pose proof (read_data_credits type n st) as Hr;
        destruct (read_data type n st) as [chunk s1]
    end.
    case_decide; [|done]. intros; by simplify_eq.
  - intros; by simplify_eq.
  - intros; by simplify_eq.
Qed.

Lemma packet_is_finished_credits (type : serial_data_type_t)
    (c : packet_receive_data_t) (st st' : hci_state) :
  packet_is_finished type c st = Some st' →
  credits_after (op_hal_says_data_ready type)
    (command_credits st) (command_credits st').
Proof.
  unfold packet_is_finished. destruct (buffer c) as [buf|]; [|done].
  destruct (decide (type ≠ DATA_TYPE_EVENT)) as [Hne|Heq].
  - simpl. intros; simplify_eq. by destruct type.
  - apply dec_stable in Heq. subst type.
    destruct (decide (_ <= _)%nat); [|done].
    match goal with
    | |- context [filter_incoming_event ?p ?s] =>
        destruct (filter_incoming_event_frame p s)
          as (_ & Hsame & _ & _ & Hcredits & _);
        destruct (filter_incoming_event p s) as [[] s1]
    end; simpl in *; intros; simplify_eq; simpl.
    + destruct Hcredits as [->|?]; [by left|by right].
    + rewrite Hsame by done. by left.
Qed.

Lemma credits_after_data_ready_trans (type : serial_data_type_t)
    (a b : Z) :
  credits_after (op_hal_says_data_ready type) a b →
  ∀ a', a' = a → credits_after (op_hal_says_data_ready type) a' b.
Proof. by intros ? ? ->. Qed.

Lemma data_ready_loop_credits (type : serial_data_type_t) :
  ∀ fuel st st',
    data_ready_loop fuel type st = Some st' →
    credits_after (op_hal_says_data_ready type)
      (command_credits st) (command_credits st').
Proof.
  induction fuel as [|fuel IH]; intros st st' Hrun; [done|].
  rewrite data_ready_loop_unfold in Hrun.
  pose proof (read_data_credits type 1 st) as Hcr1.
  destruct (read_data type 1 st) as [[|byte chunk] st1]; simpl in Hcr1.
  { simplify_eq. apply credits_after_data_ready_refl. }
  destruct (incoming_of type st1) as [c|]; [|done]. simpl in Hrun.
  destruct (receive_byte type byte c st1) as [[c2 st2]|] eqn:Hrb; [|done].
  simpl in Hrun. apply receive_byte_credits in Hrb.
  eapply credits_after_data_ready_trans.
  - case_decide.
    + by apply packet_is_finished_credits in Hrun.
    + by apply IH in Hrun.
  - simpl. congruence.
Qed.

Lemma shut_down_credits (st : hci_state) :
  command_credits (shut_down st) = command_credits st.
Proof.
  destruct st as [cr fw [] th cq pq pend inc rx al ve tr]; [done|].
  by destruct th, fw.
Qed.

Lemma start_up_credits (st : hci_state) :
  command_credits (start_up st).2 = 1.
Proof.
  unfold start_up, start_up_error.
  repeat match goal with
  | |- context [allocate ?s] =>
      let Ha := fresh "Ha" in
      pose proof (allocate_credits s) as Ha;
      destruct (allocate s) as [[] ?]; simpl in Ha; simpl
  end; rewrite ?shut_down_credits; simpl; congruence.
Qed.

Lemma transmit_command_credits (command : BT_HDR)
    (cc : option command_complete_cb) (sc : option command_status_cb)
    (ctx : Z) (st : hci_state) :
  command_credits (transmit_command command cc sc ctx st)
  = command_credits st.
Proof.
  unfold transmit_command. pose proof (allocate_credits st) as Ha.
  by destruct (allocate st) as [[] s1].
Qed.

Lemma send_async_command_credits (op : vendor_opcode) (st : hci_state) :
  command_credits (send_async_command op st).2 = command_credits st.
Proof. unfold send_async_command. simpl. by destruct (vendor_script st). Qed.

Lemma event_command_ready_credits (st st' : hci_state) :
  event_command_ready st = Some st' →
  credits_after op_event_command_ready
    (command_credits st) (command_credits st').
Proof.
  unfold event_command_ready, credits_after.
  destruct (decide (0 < command_credits st)); [|by intros; simplify_eq].
  destruct (fixed_queue_dequeue (command_queue st)) as [[w rest]|]; [|done].
  intros; simplify_eq. unfold restart_command_timeout_alarm.
  by case_match.
Qed.

(** What [run_op] adds to the three functions that take the lock. *)
Lemma run_op_with_lock (o : hci_op) (st st' : hci_state) :
  run_op o st = Some st' →
  match o with
  | op_command_timed_out =>
      lock_held st = false ∧ st' = command_timed_out st
  | op_event_command_ready =>
      event_command_ready st = Some st'
      ∧ (lock_held st = true → command_credits st <= 0)
  | op_hal_says_data_ready type =>
      hal_says_data_ready type st = Some st'
      ∧ (lock_held st = true →
         looks_up_waiter type (calls_since st st') = false)
  | _ => True
  end.
Proof.
  destruct o; try done; simpl.
  - destruct (lock_held st); [done|]. intros; by simplify_eq.
  - destruct (lock_held st); simpl; [|done].
    case_bool_decide; [done|]. intros Hrun. split; [done|]. lia.
  - destruct (hal_says_data_ready type st) as [s|]; [|done]. simpl.
    destruct (lock_held st); simpl.
    + destruct (looks_up_waiter _ _) eqn:Hlooks; [done|].
      intros; by simplify_eq.
    + intros; by simplify_eq.
Qed.

Lemma run_op_credits (o : hci_op) (st st' : hci_state) :
  run_op o st = Some st' →
  credits_after o (command_credits st) (command_credits st').
Proof.
  intros Hrun. pose proof (run_op_with_lock o st st' Hrun) as Hlock.
  revert Hrun.
  destruct o; simpl in Hlock; simpl; intros Hrun;
    try (simplify_eq; simpl; done).
  - simplify_eq. apply start_up_credits.
  - simplify_eq. apply shut_down_credits.
  - simplify_eq. unfold turn_on_logging. by destruct path.
  - simplify_eq. apply transmit_command_credits.
  - simplify_eq. unfold transmit_downward. case_decide; [|done].
    simpl. apply transmit_command_credits.
  - destruct Hlock as [_ ->]. clear Hrun. unfold command_timed_out.
    by case_match.
  - simplify_eq. unfold event_preload.
    pose proof (send_async_command_credits VENDOR_CONFIGURE_FIRMWARE
                  (emit hal_open (emit (ALOG LOG_INFO "event_preload") st)))
      as Hs.
    by destruct (send_async_command _ _).
  - simplify_eq. unfold event_postload.
    pose proof (send_async_command_credits VENDOR_CONFIGURE_SCO
                  (emit (ALOG LOG_INFO "event_postload") st)) as Hs.
    destruct (send_async_command _ _). by case_decide.
  - simplify_eq. unfold event_epilog.
    pose proof (send_async_command_credits VENDOR_DO_EPILOG st) as Hs.
    by destruct (send_async_command _ _).
  - apply event_command_ready_credits, Hlock.
  - unfold event_packet_ready in Hrun.
    destruct (fixed_queue_dequeue (packet_queue st)) as [[p rest]|];
      by simplify_eq.
  - destruct Hlock as [Hcall _].
    assert (Hc : credits_after (op_hal_says_data_ready type)
                   (command_credits st) (command_credits st'))
      by by eapply data_ready_loop_credits.
    done.
  - simplify_eq. unfold transmit_fragment, event_to_data_type.
    repeat case_decide; simpl; by repeat case_match.
Qed.

(** ** The reassembly contexts across a session *)







End Properties.

(** * Concrete runs *)

(** C9 as the spec words it: any negative return value of the SCO
    configuration request.  With -2 the request is logged and sent, and
    nothing else happens: no [sco_config_callback], no ACL size fetch. *)
Lemma event_postload_ignores_other_negatives :
  let st := set_vendor_script [-2] fresh_session in
  let sent :=
    send_async_command VENDOR_CONFIGURE_SCO
      (emit (ALOG LOG_INFO "event_postload") st) in
  ¬ (sent.1 < 0 → event_postload st = sco_config_callback false sent.2).
Proof.
  intros st sent Hstated.
  assert (Hneg : sent.1 < 0) by (vm_compute; done).
  apply Hstated in Hneg. apply (f_equal trace) in Hneg.
  vm_compute in Hneg. discriminate Hneg.
Qed.

Lemma event_postload_synthesizes_sco_callback_witness :
  let st := set_vendor_script [-1] fresh_session in
  let sent :=
    send_async_command VENDOR_CONFIGURE_SCO
      (emit (ALOG LOG_INFO "event_postload") st) in
  sent.1 = -1
  ∧ event_postload st = sco_config_callback false sent.2
  ∧ trace (event_postload st) =
      trace st ++ [ ALOG LOG_INFO "event_postload";
                    vendor_send_async_command VENDOR_CONFIGURE_SCO;
                    controller_begin_acl_size_fetch ].
Proof.
  intros st sent. split; [reflexivity|].
  apply (event_postload_synthesizes_sco_callback st). reflexivity.
Defined.

Lemma transmit_command_drops_on_allocation_failure_witness :
  let st := set_alloc_script [false; true] fresh_session in
  alloc_script st = [false; true]
  ∧ transmit_command (H := sample_headers) reset_command (Some 7%nat) None
      42 st
    = emit (ALOG LOG_ERROR "transmit_command") (set_alloc_script [true] st).
Proof.
  intros st. split; [reflexivity|].
  apply (transmit_command_drops_on_allocation_failure
           (H := sample_headers)).
  reflexivity.
Defined.

Lemma acl_preamble_pending_wf :
  receive_data_wf DATA_TYPE_ACL acl_preamble_pending.
Proof.
  unfold receive_data_wf, acl_preamble_pending, is_byte. simpl.
  repeat split; try done. repeat constructor; lia.
Defined.

Lemma preamble_completion_witness :
  let c := acl_preamble_pending in
  let st := fresh_session in
  let p := <[Z.to_nat (index c) := 0]> (preamble c) in
  let body_length := announced_body_length DATA_TYPE_ACL p in
  let size :=
    BT_HDR_SIZE (hci_headers := sample_headers)
    + preamble_size_of DATA_TYPE_ACL + body_length in
  (state c = PREAMBLE ∧ bytes_remaining c = 1 ∧ is_byte 0
   ∧ head (alloc_script st) ≠ Some false)
  ∧ body_length = 5 ∧ size = 17
  ∧ ∃ c' st' buf,
      receive_byte (H := sample_headers) DATA_TYPE_ACL 0 c st
        = Some (c', st')
      ∧ trace st' = trace st ++ [buffer_alloc size]
      ∧ buffer c' = Some buf
      ∧ Z.of_nat (length (data buf))
        = preamble_size_of DATA_TYPE_ACL + body_length
      ∧ take (Z.to_nat (preamble_size_of DATA_TYPE_ACL)) (data buf)
        = take (Z.to_nat (preamble_size_of DATA_TYPE_ACL)) p
      ∧ offset buf = 0
      ∧ event buf = inbound_tag (H := sample_headers) DATA_TYPE_ACL
      ∧ preamble c' = p
      ∧ index c' = preamble_size_of DATA_TYPE_ACL
      ∧ bytes_remaining c' = body_length
      ∧ 0 <= body_length < 65536
      ∧ (0 < body_length → state c' = BODY)
      ∧ (body_length = 0 → state c' = FINISHED).
Proof.
  intros c st p body_length size.
  assert (Hbyte : is_byte 0) by (unfold is_byte; lia).
  assert (Halloc : head (alloc_script st) ≠ Some false) by discriminate.
  split; [by repeat split|]. split; [reflexivity|]. split; [reflexivity|].
  apply (preamble_completion (H := sample_headers) DATA_TYPE_ACL 0 c st);
    [reflexivity|apply acl_preamble_pending_wf|reflexivity|done|done].
Defined.


Lemma event_preamble_pending_wf : incoming_wf event_allocation_fails.
Proof.
  split; [reflexivity|].
  intros type c Hc. destruct type; vm_compute in Hc; simplify_eq; try done.
  unfold receive_data_wf, is_byte. simpl.
  repeat split; try done. repeat constructor; lia.
Defined.

Lemma allocation_failure_drains_witness :
  let type := DATA_TYPE_EVENT in
  let c := event_preamble_pending in
  let st := event_allocation_fails in
  let b := 3 in
  let body := [0xAA; 0xBB; 0xCC] in
  let rest := [] in
  let p := <[Z.to_nat (index c) := UINT8 b]> (preamble c) in
  let body_length := announced_body_length type p in
  let k := Z.of_nat (length body) in
  let size :=
    BT_HDR_SIZE (hci_headers := sample_headers)
    + preamble_size_of type + body_length in
  let dropped :=
    emit (ALOG LOG_ERROR "hal_says_data_ready")
      (set_alloc_script (tail (alloc_script st))
         (emit (buffer_alloc size) st)) in
  let c_k :=
    mk_receive (if decide (body_length - k = 0) then BRAND_NEW else IGNORE)
      (body_length - k) p (preamble_size_of type) None in
  let st_k := store_incoming type c_k (set_buffered type rest dropped) in
  (incoming_of type st = Some c ∧ state c = PREAMBLE
   ∧ bytes_remaining c = 1 ∧ head (alloc_script st) = Some false
   ∧ buffered type st = b :: body ++ rest ∧ k <= body_length)
  ∧ state c_k = BRAND_NEW
  ∧ trace st_k = [buffer_alloc 13; ALOG LOG_ERROR "hal_says_data_ready"]
  ∧ (∀ fuel, data_ready_loop (H := sample_headers)
               (S (length body) + fuel) type st
             = data_ready_loop (H := sample_headers) fuel type st_k)
  ∧ hal_says_data_ready (H := sample_headers) type st
    = hal_says_data_ready (H := sample_headers) type st_k
  ∧ (rest = [] →
     hal_says_data_ready (H := sample_headers) type st = Some st_k).
Proof.
  intros type c st b body rest p body_length k size dropped c_k st_k.
  assert (Hk : k <= body_length) by (vm_compute; discriminate).
  split; [by repeat split|]. split; [reflexivity|]. split; [reflexivity|].
  apply (allocation_failure_drains (H := sample_headers) type c st b body
           rest);
    [discriminate|apply event_preamble_pending_wf|reflexivity..|exact Hk].
Defined.

Lemma event_command_ready_dispatches_one_witness :
  let st := set_command_queue [reset_entry] fresh_session in
  (0 < command_credits st ∧ command_queue st = [reset_entry])
  ∧ event_command_ready st =
      Some (mk_state 0 false false true [] [] [reset_entry]
              (incoming_packets st) (hal_rx st) [] []
              [ wake_assert; fragment_and_dispatch (command reset_entry);
                transmit_done;
                alarm_set command_response_alarm COMMAND_PENDING_TIMEOUT ]).
Proof.
  intros st. split; [split; [reflexivity|reflexivity]|].
  apply (proj1 (event_command_ready_dispatches_one st) reset_entry []);
    reflexivity.
Defined.

(** ** Scenarios *)

(** An HCI_Reset round trip: the command takes the one credit, the
    command-complete event gives it back, the complete callback gets the
    event packet, the pending list is empty again and the watchdog is
    cancelled. *)
Example hci_reset_round_trip :
  let sent :=
    event_command_ready
      (transmit_command (H := sample_headers) reset_command (Some 7%nat)
         None 42 fresh_session) in
  let answered :=
    st ← sent;
    hal_says_data_ready (H := sample_headers) DATA_TYPE_EVENT
      (set_trace []
         (set_hal_rx [ []; []; []; [0x0E; 0x04; 0x01; 0x03; 0x0C; 0x00] ]
            st)) in
  let event_packet :=
    mk_BT_HDR 0x1000 6 0 0 [0x0E; 0x04; 0x01; 0x03; 0x0C; 0x00] in
  (command_credits <$> sent) = Some 0
  ∧ (commands_pending_response <$> sent) = Some [reset_entry]
  ∧ (command_credits <$> answered) = Some 1
  ∧ (commands_pending_response <$> answered) = Some []
  ∧ (trace <$> answered) =
      Some [ buffer_alloc 14;
             btsnoop_capture event_packet true;
             call_complete_callback 7%nat event_packet 42;
             alarm_cancel command_response_alarm;
             buffer_free (command reset_entry);
             osi_free reset_entry;
             hal_packet_finished DATA_TYPE_EVENT ].
Proof. vm_compute. by repeat split. Qed.

(** Two pending commands with the same opcode are answered oldest
    first. *)
Example duplicate_opcodes_are_matched_in_order :
  let first := mk_waiting 0x1001 (Some 1%nat) None 10 reset_command in
  let second := mk_waiting 0x1001 (Some 2%nat) None 20 reset_command in
  let other := mk_waiting 0x1002 None None 30 reset_command in
  let st :=
    set_commands_pending_response [other; first; second] fresh_session in
  (get_waiting_command 0x1001 st).1 = Some first
  ∧ commands_pending_response (get_waiting_command 0x1001 st).2
    = [other; second]
  ∧ (get_waiting_command 0xDEAD st).1 = None.
Proof. vm_compute. by repeat split. Qed.

(** An ACL packet delivered one byte per call of the HAL callback: nine
    calls leave the context in the middle of the packet, the tenth byte
    finishes it. *)
Example byte_by_byte_reassembly :
  let feed (st : option hci_state) (b : Z) : option hci_state :=
    st ← st;
    hal_says_data_ready (H := sample_headers) DATA_TYPE_ACL
      (set_hal_rx [ []; [b]; []; [] ] st) in
  let bytes := [0x01; 0x00; 0x05; 0x00; 0xAA; 0xBB; 0xCC; 0xDD; 0xEE] in
  let packet := mk_BT_HDR 0x1100 9 0 0 bytes in
  (trace <$> foldl feed (Some fresh_session) bytes) =
    Some [ buffer_alloc 17;
           btsnoop_capture packet true;
           reassemble_and_dispatch packet;
           hal_packet_finished DATA_TYPE_ACL ]
  ∧ (trace <$> foldl feed (Some fresh_session) (take 8 bytes)) =
    Some [ buffer_alloc 17 ].
Proof. vm_compute. by repeat split. Qed.

(** [command_timed_out] on an empty pending list returns with
    [commands_pending_response_lock] held.  The next dispatch, the next
    command-complete event and the next [command_timed_out] wait for it
    and do not return; a data packet, which needs no lock, still comes
    through, and so does a dispatch attempt without a credit. *)
Example lock_left_held_by_command_timed_out :
  let st :=
    set_hal_rx [ []; [0x01; 0x00; 0x01; 0x00; 0x07]; [];
                 [0x0E; 0x04; 0x01; 0x03; 0x0C; 0x00] ]
      (set_command_queue [reset_entry] fresh_session) in
  let after (ops : list hci_op) :=
    run_ops (H := sample_headers) (op_command_timed_out :: ops) st in
  (lock_held <$> after []) = Some true
  ∧ (trace <$> after [])
    = Some [mutex_lock; ALOG LOG_ERROR "command_timed_out"]
  ∧ after [op_event_command_ready] = None
  ∧ after [op_hal_says_data_ready DATA_TYPE_EVENT] = None
  ∧ after [op_command_timed_out] = None
  ∧ is_Some (after [op_hal_says_data_ready DATA_TYPE_ACL])
  ∧ is_Some (run_ops (H := sample_headers) [op_event_command_ready] st)
  ∧ is_Some (run_ops (H := sample_headers)
               [op_hal_says_data_ready DATA_TYPE_EVENT] st).
Proof. vm_compute. repeat split; by eexists. Qed.

(** A command-complete event cut short behind its length byte: the
    filter would read credits and opcode behind the two bytes of the
    buffer, so the call that finishes the event is undefined. *)
Example short_command_complete_is_undefined :
  hal_says_data_ready (H := sample_headers) DATA_TYPE_EVENT
    (set_hal_rx [ []; []; []; [0x0E; 0x00] ] fresh_session) = None
  ∧ is_Some (hal_says_data_ready (H := sample_headers) DATA_TYPE_EVENT
               (set_hal_rx [ []; []; []; [0x3E; 0x00] ] fresh_session)).
Proof. vm_compute. split; [done|by eexists]. Qed.

(** * Further properties *)

Section Further.

Context `{hci_headers}.

(** ** Admission and dispatch of commands *)

Lemma STREAM_TO_UINT16_little_endian (p : list Z) :
  (STREAM_TO_UINT16 p).1
  = UINT8 (array_get p 0) + 256 * UINT8 (array_get p 1).
Proof.
  unfold STREAM_TO_UINT16. simpl.
  pose proof (UINT8_is_byte (array_get p 0)) as H0.
  pose proof (UINT8_is_byte (array_get p 1)) as H1.
  unfold is_byte in *. rewrite Z.shiftl_mul_pow2 by lia.
  change (2 ^ 8) with 256. rewrite UINT16_small; lia.
Qed.

Lemma transmit_command_enqueues (r : command_request) (st : hci_state) :
  head (alloc_script st) ≠ Some false →
  transmit_command (req_command r) (req_complete r) (req_status r)
    (req_context r) st
  = set_command_queue (command_queue st ++ [entry_of r])
      (set_alloc_script (tail (alloc_script st)) st).
Proof.
  intros Hok. unfold transmit_command, entry_of, opcode_of.
  pose proof (STREAM_TO_UINT16_little_endian
                (drop (Z.to_nat (offset (req_command r)))
                   (data (req_command r)))) as Hop.
  destruct (STREAM_TO_UINT16 _) as [op stream]. simpl in Hop. subst op.
  destruct st as [? ? ? ? ? ? ? ? ? [|[] al] ? ?]; simpl in *; done.
Qed.

Lemma transmit_command_refused (r : command_request) (st : hci_state) :
  head (alloc_script st) = Some false →
  transmit_command (req_command r) (req_complete r) (req_status r)
    (req_context r) st
  = emit (ALOG LOG_ERROR "transmit_command")
      (set_alloc_script (tail (alloc_script st)) st).
Proof.
  intros Hno. unfold transmit_command.
  destruct st as [? ? ? ? ? ? ? ? ? [|[] al] ? ?]; simpl in *; done.
Qed.

Lemma accepted_nil {A} (xs : list A) : accepted [] xs = xs.
Proof. by destruct xs. Qed.

Lemma accepted_length {A} (script : list bool) (xs : list A) :
  (length (accepted script xs) <= length xs)%nat.
Proof.
  revert script. induction xs as [|x xs IH]; intros script; [done|].
  destruct script as [|[] script]; simpl; [lia| |];
    specialize (IH script); lia.
Qed.

Lemma transmit_all_cons (r : command_request) (reqs : list command_request)
    (st : hci_state) :
  transmit_all (r :: reqs) st
  = transmit_all reqs
      (transmit_command (req_command r) (req_complete r) (req_status r)
         (req_context r) st).
Proof. done. Qed.

(** X1: a burst of [transmit_command] calls appends the wait entries to
    the command queue in the order of the calls; a call whose wait entry
    cannot be allocated logs one error and drops its own command only.
    Each entry carries the opcode read little-endian from the first two
    bytes of the command and the command with its [event] forced to the
    command tag. *)
Theorem transmit_all_keeps_order (reqs : list command_request)
    (st : hci_state) :
  let kept := accepted (alloc_script st) reqs in
  transmit_all reqs st
  = mk_state (command_credits st) (firmware_is_configured st)
      (has_shut_down st) (thread st)
      (command_queue st ++ (entry_of <$> kept))
      (packet_queue st) (commands_pending_response st)
      (incoming_packets st) (hal_rx st)
      (drop (length reqs) (alloc_script st)) (vendor_script st)
      (trace st ++ replicate (length reqs - length kept)
                     (ALOG LOG_ERROR "transmit_command")).
Proof.
  revert st. induction reqs as [|r reqs IH]; intros st.
  - destruct st. unfold transmit_all. simpl. by rewrite !app_nil_r.
  - rewrite transmit_all_cons.
    destruct (decide (head (alloc_script st) = Some false)) as [Hno|Hok].
    + rewrite transmit_command_refused by done. rewrite IH.
      destruct st as [? ? ? ? ? ? ? ? ? [|[] al] ? ?]; simpl in *; try done.
      pose proof (accepted_length al reqs) as Hle.
      replace (S (length reqs) - length (accepted al reqs))%nat
        with (S (length reqs - length (accepted al reqs))) by lia.
      simpl. by rewrite <- app_assoc.
    + rewrite transmit_command_enqueues by done. rewrite IH.
      destruct st as [? ? ? ? ? ? ? ? ? [|[] al] ? ?]; simpl in *; try done;
        rewrite ?accepted_nil, ?drop_nil, <- ?app_assoc; done.
Qed.

Lemma event_command_ready_takes_head (w : waiting_command_t)
    (rest : list waiting_command_t) (st : hci_state) :
  0 < command_credits st →
  command_queue st = w :: rest →
  event_command_ready st
  = Some (mk_state (command_credits st - 1) (firmware_is_configured st)
            (has_shut_down st) (thread st) rest (packet_queue st)
            (commands_pending_response st ++ [w])
            (incoming_packets st) (hal_rx st) (alloc_script st)
            (vendor_script st) (trace st ++ dispatch_calls w)).
Proof.
  intros Hcredits Hqueue. unfold event_command_ready.
  rewrite decide_True by done. rewrite Hqueue. simpl.
  unfold restart_command_timeout_alarm, list_append, dispatch_calls. simpl.
  destruct (commands_pending_response st); simpl;
    unfold emit, set_trace; simpl; by rewrite <- !app_assoc.
Qed.

Lemma event_command_ready_idles (st : hci_state) :
  command_credits st <= 0 → event_command_ready st = Some st.
Proof.
  intros Hzero. unfold event_command_ready. by rewrite decide_False by lia.
Qed.

(** X2: however often the reactor runs [event_command_ready] while
    commands are queued, it dispatches one command per credit and not
    one more: the first min(rounds, credits) commands leave the queue in
    queue order and join the tail of the pending-response list in the
    same order; the credits go down by that number; the rest of the
    queue stays. *)
Theorem ready_rounds_spend_credits (n : nat) (st : hci_state) :
  (n <= length (command_queue st))%nat →
  let m := (n `min` Z.to_nat (command_credits st))%nat in
  let sent := take m (command_queue st) in
  ready_rounds n st
  = Some (mk_state (command_credits st - Z.of_nat m)
            (firmware_is_configured st) (has_shut_down st) (thread st)
            (drop m (command_queue st)) (packet_queue st)
            (commands_pending_response st ++ sent)
            (incoming_packets st) (hal_rx st) (alloc_script st)
            (vendor_script st)
            (trace st ++ concat (dispatch_calls <$> sent))).
Proof.
  revert st. induction n as [|n IH]; intros st Hlen.
  - destruct st. simpl. by rewrite Z.sub_0_r, !app_nil_r.
  - simpl ready_rounds.
    destruct (decide (0 < command_credits st)) as [Hpos|Hzero].
    + destruct (command_queue st) as [|w rest] eqn:Hqueue;
        [simpl in Hlen; lia|].
      rewrite (event_command_ready_takes_head w rest) by done. simpl.
      rewrite IH by (simpl in *; lia). simpl.
      replace (Z.to_nat (command_credits st))
        with (S (Z.to_nat (command_credits st - 1))) by lia.
      simpl. f_equal. f_equal; [lia| |].
      * by rewrite <- app_assoc.
      * by rewrite <- !app_assoc.
    + rewrite event_command_ready_idles by lia. simpl.
      rewrite IH by lia.
      replace (Z.to_nat (command_credits st)) with 0%nat by lia.
      by rewrite !Nat.min_0_r.
Qed.

Lemma event_packet_ready_takes_head (p : BT_HDR) (rest : list BT_HDR)
    (st : hci_state) :
  packet_queue st = p :: rest →
  event_packet_ready st
  = Some (set_packet_queue rest
            (set_trace (trace st ++ packet_dispatch_calls p) st)).
Proof.
  intros Hqueue. unfold event_packet_ready. rewrite Hqueue. simpl.
  destruct st. unfold emit, set_trace, packet_dispatch_calls. simpl.
  by rewrite <- !app_assoc.
Qed.

(** X3: data packets are not gated by command credits.  Whatever the
    credit counter holds, [n] runs of [event_packet_ready] on a queue of
    at least [n] packets dispatch the first [n] packets in queue order,
    each between [wake_assert] and [transmit_done]; credits, command
    queue and pending-response list are not touched, and the watchdog is
    not re-armed. *)
Theorem packet_rounds_ignore_credits (n : nat) (st : hci_state) :
  (n <= length (packet_queue st))%nat →
  packet_rounds n st
  = Some (mk_state (command_credits st) (firmware_is_configured st)
            (has_shut_down st) (thread st) (command_queue st)
            (drop n (packet_queue st)) (commands_pending_response st)
            (incoming_packets st) (hal_rx st) (alloc_script st)
            (vendor_script st)
            (trace st
             ++ concat (packet_dispatch_calls <$> take n (packet_queue st)))).
Proof.
  revert st. induction n as [|n IH]; intros st Hlen.
  - destruct st. simpl. by rewrite !app_nil_r.
  - simpl packet_rounds.
    destruct (packet_queue st) as [|p rest] eqn:Hqueue;
      [simpl in Hlen; lia|].
    rewrite (event_packet_ready_takes_head p rest) by done. simpl.
    rewrite IH by (simpl in *; lia). simpl.
    f_equal. f_equal. by rewrite <- !app_assoc.
Qed.

(** ** Dispatch and lookup *)

Lemma scan_for_opcode_app (op : Z) (l1 l2 : list waiting_command_t) :
  scan_for_opcode op (l1 ++ l2)
  = match scan_for_opcode op l1 with
    | (Some e, rest) => (Some e, rest ++ l2)
    | (None, _) =>
        ((scan_for_opcode op l2).1, l1 ++ (scan_for_opcode op l2).2)
    end.
Proof.
  induction l1 as [|e l1 IH]; simpl.
  - by destruct (scan_for_opcode op l2).
  - destruct (decide (opcode e = op)); [done|]. rewrite IH.
    by destruct (scan_for_opcode op l1) as [[found|] rest].
Qed.

(** X4: a command that [event_command_ready] has just dispatched can be
    looked up by its opcode, behind every older pending command with the
    same opcode.  A lookup after the dispatch finds what the same lookup
    would have found before (and the new entry stays at the tail); when
    nothing older matches, it finds the new entry exactly if the opcode
    is its own, and then leaves the list as it was before the
    dispatch. *)
Theorem dispatch_then_lookup (op : Z) (w : waiting_command_t)
    (rest : list waiting_command_t) (st : hci_state) :
  0 < command_credits st →
  command_queue st = w :: rest →
  ∃ st1,
    event_command_ready st = Some st1
    ∧ match (get_waiting_command op st).1 with
      | Some e =>
          (get_waiting_command op st1).1 = Some e
          ∧ commands_pending_response (get_waiting_command op st1).2
            = commands_pending_response (get_waiting_command op st).2
              ++ [w]
      | None =>
          if decide (opcode w = op) then
            (get_waiting_command op st1).1 = Some w
            ∧ commands_pending_response (get_waiting_command op st1).2
              = commands_pending_response st
          else
            (get_waiting_command op st1).1 = None
            ∧ commands_pending_response (get_waiting_command op st1).2
              = commands_pending_response st ++ [w]
      end.
Proof.
  intros Hcredits Hqueue. eexists. split.
  { by apply event_command_ready_takes_head. }
  unfold get_waiting_command. simpl. rewrite scan_for_opcode_app.
  destruct (scan_for_opcode op (commands_pending_response st))
    as [[e|] rest'] eqn:Hscan; simpl; [done|].
  apply scan_for_opcode_none in Hscan as [-> _].
  destruct (decide (opcode w = op)); simpl; [|done].
  by rewrite app_nil_r.
Qed.

(** ** The credit counter fits a byte *)

(** X5: in a session the credit counter never leaves 0..255: it starts
    at 1, only goes down while positive, and is otherwise overwritten by
    one byte of an event. *)
Theorem command_credits_fit_a_byte (st : hci_state) :
  in_session st → 0 <= command_credits st <= 255.
Proof.
  intros Hsession. induction Hsession as [st|o st st' _ IH Hrun].
  - rewrite start_up_credits. lia.
  - apply run_op_credits in Hrun. revert Hrun.
    destruct o; simpl; try (intros ->; done); try lia.
    + case_decide; lia.
    + destruct type; try (intros ->; done).
      intros [->|[field ->]]; [done|].
      pose proof (UINT8_is_byte field) as Hb. unfold is_byte in Hb. lia.
Qed.

(** ** Start-up *)

Lemma shut_down_tears_down (st : hci_state) :
  has_shut_down st = false →
  has_shut_down (shut_down st) = true
  ∧ thread (shut_down st) = false
  ∧ firmware_is_configured (shut_down st) = false
  ∧ command_queue (shut_down st) = []
  ∧ packet_queue (shut_down st) = []
  ∧ commands_pending_response (shut_down st) = []
  ∧ shut_down (shut_down st)
    = emit (ALOG LOG_WARN "shut_down") (shut_down st).
Proof.
  destruct st as [cr fw [] th cq pq pend inc rx al ve tr]; [done|].
  intros _. by destruct th, fw.
Qed.

Lemma allocate_has_shut_down (st : hci_state) :
  has_shut_down (allocate st).2 = has_shut_down st.
Proof. rewrite allocate_frame. done. Qed.

(** X6: a [start_up] that returns false has rolled everything back
    through [shut_down]: the session is marked shut down, the thread
    pointer is NULL, both queues and the pending-response list are
    empty, and a [shut_down] by the caller only logs the warning. *)
Theorem failed_start_up_is_shut_down (st : hci_state) :
  (start_up st).1 = false →
  let st' := (start_up st).2 in
  has_shut_down st' = true
  ∧ thread st' = false
  ∧ firmware_is_configured st' = false
  ∧ command_queue st' = []
  ∧ packet_queue st' = []
  ∧ commands_pending_response st' = []
  ∧ shut_down st' = emit (ALOG LOG_WARN "shut_down") st'.
Proof.
  unfold start_up, start_up_error.
  repeat match goal with
  | |- context [allocate ?s] =>
      let Ha := fresh "Ha" in
      pose proof (allocate_has_shut_down s) as Ha;
      destruct (allocate s) as [[] ?]; simpl in Ha; simpl
  end; try done; intros _; apply shut_down_tears_down; simpl; congruence.
Qed.

Lemma start_up_outcome (st : hci_state) :
  let ok := forallb id (take 6 (alloc_script st)) in
  let st' := (start_up st).2 in
  (start_up st).1 = ok
  ∧ (ok = true →
     command_credits st' = 1
     ∧ firmware_is_configured st' = false
     ∧ has_shut_down st' = false
     ∧ thread st' = true
     ∧ command_queue st' = []
     ∧ packet_queue st' = []
     ∧ commands_pending_response st' = []
     ∧ incoming_packets st'
       = replicate INBOUND_PACKET_TYPE_COUNT zeroed_receive_data
     ∧ alloc_script st' = drop 6 (alloc_script st)
     ∧ trace st' =
         trace st ++
           [ ALOG LOG_INFO "start_up"; mutex_init; controller_init;
             fragmenter_init; queue_register_dequeue the_command_queue;
             queue_register_dequeue the_packet_queue; vendor_open;
             hal_init; low_power_init;
             vendor_set_callback VENDOR_CONFIGURE_FIRMWARE;
             vendor_set_callback VENDOR_CONFIGURE_SCO;
             vendor_set_callback VENDOR_DO_EPILOG; hci_inject_open ]).
Proof.
  destruct st as [cr fw down th cq pq pend inc rx al ve tr].
  unfold start_up, start_up_error, allocate.
  generalize shut_down. intros rollback. simpl.
  do 6 (try (destruct al as [|[] al]; simpl;
             [ | | by split ])).
  all: split; [done|]; intros _; rewrite <- ?app_assoc; simpl;
       rewrite ?drop_nil; by repeat split.
Qed.


Lemma start_up_failure_form (st : hci_state) :
  (start_up st).1 = false →
  ∃ st0, (start_up st).2 = shut_down st0 ∧ has_shut_down st0 = false.
Proof.
  unfold start_up, start_up_error.
  repeat match goal with
  | |- context [allocate ?s] =>
      let Ha := fresh "Ha" in
      pose proof (allocate_has_shut_down s) as Ha;
      destruct (allocate s) as [[] ?]; simpl in Ha; simpl
  end; try done; intros _; eexists; (split; [done|]); simpl; congruence.
Qed.

(** X7: [start_up] succeeds exactly when none of its six allocations (two
    alarms, two queues, the thread, the pending-response list) fails.
    It then leaves one credit, clear lifecycle flags, a thread, empty
    queues and pending list, and three zeroed reassembly contexts, and
    has wired the collaborators in the order of the source. *)
Theorem start_up_succeeds_iff_allocations (st : hci_state) :
  let ok := forallb id (take 6 (alloc_script st)) in
  let st' := (start_up st).2 in
  (start_up st).1 = ok
  ∧ (ok = true →
     command_credits st' = 1
     ∧ firmware_is_configured st' = false
     ∧ has_shut_down st' = false
     ∧ thread st' = true
     ∧ command_queue st' = []
     ∧ packet_queue st' = []
     ∧ commands_pending_response st' = []
     ∧ incoming_packets st'
       = replicate INBOUND_PACKET_TYPE_COUNT zeroed_receive_data
     ∧ alloc_script st' = drop 6 (alloc_script st)
     ∧ trace st' =
         trace st ++
           [ ALOG LOG_INFO "start_up"; mutex_init; controller_init;
             fragmenter_init; queue_register_dequeue the_command_queue;
             queue_register_dequeue the_packet_queue; vendor_open;
             hal_init; low_power_init;
             vendor_set_callback VENDOR_CONFIGURE_FIRMWARE;
             vendor_set_callback VENDOR_CONFIGURE_SCO;
             vendor_set_callback VENDOR_DO_EPILOG; hci_inject_open ]).
Proof. apply start_up_outcome. Qed.

(** ** The firmware flag *)

(** X8: [firmware_config_callback] does not look at the result the vendor
    reports: also for [false] it tells the upper stack
    [preload_finished(true)] and sets [firmware_is_configured], so that
    a following [shut_down] arms the epilog alarm, posts the epilog work
    item and joins the thread without stopping it itself. *)
Theorem firmware_result_is_ignored (success : bool) (st : hci_state) :
  thread st = true → has_shut_down st = false →
  firmware_config_callback success st = firmware_config_callback true st
  ∧ firmware_is_configured (firmware_config_callback success st) = true
  ∧ trace (shut_down (firmware_config_callback success st)) =
      trace st ++
        [ preload_finished true; ALOG LOG_INFO "shut_down";
          hci_inject_close;
          alarm_set epilog_alarm EPILOG_TIMEOUT_MS;
          thread_post work_epilog; thread_join ]
        ++ (buffer_free_entry <$> command_queue st)
        ++ [queue_free the_command_queue]
        ++ (buffer_free <$> packet_queue st)
        ++ [ queue_free the_packet_queue; list_free; mutex_destroy;
             fragmenter_cleanup; alarm_free epilog_alarm;
             alarm_free command_response_alarm; low_power_cleanup;
             hal_close; ALOG LOG_DEBUG "set_chip_power_on";
             vendor_send_command VENDOR_CHIP_POWER_CONTROL false;
             vendor_close; thread_free ].
Proof.
  destruct st as [cr fw down th cq pq pend inc rx al ve tr]. simpl.
  intros -> ->. split; [done|]. split; [done|].
  cbv -[app fmap]. by rewrite <- ?app_assoc.
Qed.

(** ** Commands on their way to the HAL *)

(** X9: a command admitted by [transmit_command] carries the command tag
    whatever the caller had put in its [event] field, so
    [transmit_fragment] captures it as sent, writes its [len] bytes from
    [offset] to the HAL as a COMMAND, and never reports
    [transmit_finished] for it, with or without the flag.  (The command
    tag must survive the mask and differ from the two data tags.) *)
Theorem accepted_command_is_sent_as_command (r : command_request)
    (send_transmit_finished : bool) (st : hci_state) :
  Z.land MSG_STACK_TO_HC_HCI_CMD MSG_EVT_MASK = MSG_STACK_TO_HC_HCI_CMD →
  MSG_STACK_TO_HC_HCI_CMD ≠ MSG_STACK_TO_HC_HCI_ACL →
  MSG_STACK_TO_HC_HCI_CMD ≠ MSG_STACK_TO_HC_HCI_SCO →
  let packet := command (entry_of r) in
  transmit_fragment packet send_transmit_finished st
  = emits [ btsnoop_capture packet false;
            hal_transmit_data (Some DATA_TYPE_COMMAND)
              (take (Z.to_nat (len (req_command r)))
                 (drop (Z.to_nat (offset (req_command r)))
                    (data (req_command r)))) ] st.
Proof.
  intros Hmask Hacl Hsco packet. unfold transmit_fragment, event_to_data_type.
  simpl. rewrite Hmask.
  rewrite (decide_False (P := _ = MSG_STACK_TO_HC_HCI_ACL)) by done.
  rewrite (decide_False (P := _ = MSG_STACK_TO_HC_HCI_SCO)) by done.
  rewrite decide_True by done. rewrite decide_False by (by intros []).
  destruct st. unfold emit, emits. simpl. by rewrite <- app_assoc.
Qed.

(** ** The command watchdog *)

Lemma armed_after_app (a : bool) (t1 t2 : list call) :
  armed_after a (t1 ++ t2) = armed_after (armed_after a t1) t2.
Proof.
  revert a. induction t1 as [|c t1 IH]; intros a; [done|].
  destruct c; simpl; try apply IH; by destruct a0.
Qed.

Lemma armed_after_alloc_or_log (a : bool) (q : list call) :
  Forall (λ e, alloc_or_log e = true) q → armed_after a q = a.
Proof.
  induction 1 as [|c q Hc _ IH]; [done|]. by destruct c.
Qed.

Lemma armed_after_frees (a : bool) (l : list BT_HDR) :
  armed_after a (buffer_free <$> l) = a.
Proof. induction l as [|p l IH]; [done|]. apply IH. Qed.

Lemma armed_after_entry_frees (a : bool) (l : list waiting_command_t) :
  armed_after a (buffer_free_entry <$> l) = a.
Proof. induction l as [|p l IH]; [done|]. apply IH. Qed.

Lemma armed_after_watchdog_call (a : bool)
    (pending : list waiting_command_t) :
  armed_after a [watchdog_call pending] = negb (list_is_empty pending).
Proof. by destruct pending. Qed.

(** A step that leaves the pending-response list alone and makes no call
    on the watchdog keeps the two in step. *)
Lemma watchdog_in_step_frame (st st' : hci_state) (q : list call) :
  trace st' = trace st ++ q →
  (∀ a, armed_after a q = a) →
  commands_pending_response st' = commands_pending_response st →
  watchdog_in_step st → watchdog_in_step st'.
Proof.
  unfold watchdog_in_step. intros -> Hq -> Hst.
  by rewrite armed_after_app, Hq.
Qed.

Lemma receive_byte_calls (type : serial_data_type_t) (byte : Z)
    (c c' : packet_receive_data_t) (st st' : hci_state) :
  receive_byte type byte c st = Some (c', st') →
  commands_pending_response st' = commands_pending_response st
  ∧ ∃ q, trace st' = trace st ++ q
         ∧ Forall (λ e, alloc_or_log e = true) q.
Proof.
  assert (Hpre : ∀ c0, receive_preamble type byte c0 st = Some (c', st') →
            commands_pending_response st' = commands_pending_response st
            ∧ ∃ q, trace st' = trace st ++ q
                   ∧ Forall (λ e, alloc_or_log e = true) q).
  { intros c0. unfold receive_preamble.
    case_decide; [|done]. case_decide.
    - match goal with
      | |- context [allocate ?s] =>
          pose proof (allocate_frame s) as Ha;
          destruct (allocate s) as [[] s1]
      end; simpl in *; intros; simplify_eq; rewrite Ha; simpl.
      + split; [done|]. eexists [_]. split; [done|]. by repeat constructor.
      + split; [done|]. eexists [_; _].
        split; [by rewrite <- app_assoc|]. by repeat constructor.
    - intros; simplify_eq. split; [done|]. exists [].
      split; [by rewrite app_nil_r|done]. }
  unfold receive_byte. destruct (state c).
  - apply Hpre.
  - apply Hpre.
  - unfold receive_body. destruct (buffer c); [|done].
    case_decide; [|done].
    match goal with
    | |- context [read_data type ?n st] =>
        pose proof (read_data_takes type n st) as (_ & _ & Hr);
        destruct (read_data type n st) as [chunk s1]
    end.
    simpl in Hr. case_decide; [|done]. intros; simplify_eq. rewrite Hr.
    split; [done|]. exists []. split; [by rewrite app_nil_r|done].
  - intros; simplify_eq. split; [done|]. exists [].
    split; [by rewrite app_nil_r|done].
  - intros; simplify_eq. split; [done|]. eexists [_].
    split; [done|]. by repeat constructor.
Qed.

Lemma filter_incoming_event_watchdog (packet : BT_HDR) (st : hci_state) :
  watchdog_in_step st →
  watchdog_in_step (filter_incoming_event packet st).2.
Proof.
  destruct st as [cr fw down th cq pq pend inc rx al ve tr].
  unfold watchdog_in_step, filter_incoming_event, STREAM_TO_UINT8,
    STREAM_SKIP_UINT8, STREAM_TO_UINT16, get_waiting_command.
  rewrite ?drop_drop, ?array_get_drop. simpl. intros Hst.
  destruct (decide (_ = HCI_COMMAND_COMPLETE_EVT));
    [|destruct (decide (_ = HCI_COMMAND_STATUS_EVT)); [|done]].
  all: destruct (scan_for_opcode _ pend) as [[w|] rest]; simpl.
  all: unfold intercepted, restart_command_timeout_alarm; simpl.
  all: repeat case_decide; repeat case_match; simpl.
  all: simpl in *; rewrite ?armed_after_app; simpl.
  all: try (exfalso;
            unfold HCI_COMMAND_COMPLETE_EVT, HCI_COMMAND_STATUS_EVT in *;
            intuition congruence).
  all: destruct rest; simpl in *; done.
Qed.

Lemma packet_is_finished_watchdog (type : serial_data_type_t)
    (c : packet_receive_data_t) (st st' : hci_state) :
  packet_is_finished type c st = Some st' →
  watchdog_in_step st → watchdog_in_step st'.
Proof.
  intros Hrun Hst.
  apply packet_is_finished_Some in Hrun
    as (buf & handed & _ & -> & Hhanded).
  simpl in Hhanded.
  set (captured := emit (btsnoop_capture (with_len (index c) buf) true) st)
    in *.
  assert (Hcap : watchdog_in_step captured).
  { by eapply (watchdog_in_step_frame st _ [_]). }
  destruct Hhanded as [[Hne ->]|(-> & _ & ->)].
  - eapply (watchdog_in_step_frame captured _ [_; _]);
      [simpl; by rewrite <- !app_assoc|done|done|exact Hcap].
  - pose proof (filter_incoming_event_watchdog
                  (with_len (index c) buf) _ Hcap) as Hfilter.
    destruct (filter_incoming_event _ _) as [[] s1]; simpl in *.
    + by eapply (watchdog_in_step_frame s1 _ [_]).
    + eapply (watchdog_in_step_frame s1 _ [_; _]);
        [simpl; by rewrite <- !app_assoc|done|done|done].
Qed.

Lemma data_ready_loop_watchdog (type : serial_data_type_t) :
  ∀ fuel st st',
    data_ready_loop fuel type st = Some st' →
    watchdog_in_step st → watchdog_in_step st'.
Proof.
  induction fuel as [|fuel IH]; intros st st' Hrun Hst; [done|].
  rewrite data_ready_loop_unfold in Hrun.
  pose proof (read_data_takes type 1 st) as (_ & _ & Hst1).
  destruct (read_data type 1 st) as [[|byte chunk] st1]; simpl in Hst1.
  { by simplify_eq. }
  destruct (incoming_of type st1) as [c|]; [|done]. simpl in Hrun.
  destruct (receive_byte type byte c st1) as [[c2 st2]|] eqn:Hrb; [|done].
  simpl in Hrun.
  apply receive_byte_calls in Hrb as (Hpend & q & Htrace & Hq).
  assert (Hst2 : watchdog_in_step (store_incoming type c2 st2)).
  { eapply (watchdog_in_step_frame st _ q); [| |  |done].
    - simpl. rewrite Htrace, Hst1. done.
    - intros a. by apply armed_after_alloc_or_log.
    - simpl. rewrite Hpend, Hst1. done. }
  case_decide.
  - by eapply packet_is_finished_watchdog.
  - by eapply IH.
Qed.

Lemma shut_down_resets_watchdog (st : hci_state) :
  has_shut_down st = false → watchdog_in_step (shut_down st).
Proof.
  destruct st as [cr fw [] th cq pq pend inc rx al ve tr]; [done|].
  intros _. unfold watchdog_in_step.
  destruct th, fw; cbv -[app fmap armed_after];
    rewrite <- ?app_assoc, !armed_after_app; simpl;
    rewrite ?armed_after_app, ?armed_after_entry_frees; simpl;
    rewrite ?armed_after_app, ?armed_after_frees; done.
Qed.

Lemma list_is_empty_snoc {A} (l : list A) (x : A) :
  list_is_empty (l ++ [x]) = false.
Proof. by destruct l. Qed.

(** X10: the command watchdog is armed exactly while a command awaits its
    response.  If the last call on [command_response_alarm] agrees with
    the pending-response list being non-empty, it still does after any
    operation of the layer ([start_up] taken on a layer with no pending
    command, as after [shut_down] or at power-on). *)
Theorem watchdog_follows_pending_list (o : hci_op) (st st' : hci_state) :
  watchdog_in_step st →
  (o = op_start_up → commands_pending_response st = []) →
  run_op o st = Some st' →
  watchdog_in_step st'.
Proof.
  intros Hst Hstart Hrun.
  pose proof (run_op_with_lock o st st' Hrun) as Hlock.
  destruct o; simpl in Hlock; simpl in Hrun.
  - (* start_up *)
    simplify_eq. specialize (Hstart eq_refl).
    destruct (start_up st).1 eqn:Hok.
    + destruct (start_up_outcome st) as [Hres Hsuccess].
      rewrite Hok in Hres. symmetry in Hres.
      destruct (Hsuccess Hres)
        as (_ & _ & _ & _ & _ & _ & Hpend & _ & _ & Htrace).
      unfold watchdog_in_step in *. rewrite Htrace, Hpend, armed_after_app.
      rewrite Hst, Hstart. done.
    + destruct (start_up_failure_form st Hok) as (st0 & -> & Hdown).
      by apply shut_down_resets_watchdog.
  - (* shut_down *)
    simplify_eq. destruct (has_shut_down st) eqn:Hdown.
    + unfold shut_down. rewrite Hdown.
      settle_frame watchdog_in_step_frame st.
    + by apply shut_down_resets_watchdog.
  - simplify_eq. settle_frame watchdog_in_step_frame st.
  - simplify_eq. settle_frame watchdog_in_step_frame st.
  - simplify_eq. settle_frame watchdog_in_step_frame st.
  - simplify_eq. unfold turn_on_logging.
    destruct path; settle_frame watchdog_in_step_frame st.
  - simplify_eq. settle_frame watchdog_in_step_frame st.
  - (* transmit_command *)
    simplify_eq. unfold transmit_command.
    pose proof (allocate_frame st) as Ha.
    destruct (allocate st) as [[] s1]; simpl in *; rewrite Ha.
    + settle_frame watchdog_in_step_frame st.
    + settle_frame watchdog_in_step_frame st.
  - (* transmit_downward *)
    simplify_eq. unfold transmit_downward. case_decide.
    + unfold transmit_command. pose proof (allocate_frame st) as Ha.
      destruct (allocate st) as [[] s1]; simpl in *; rewrite Ha.
      * settle_frame watchdog_in_step_frame st.
      * settle_frame watchdog_in_step_frame st.
    + settle_frame watchdog_in_step_frame st.
  - destruct Hlock as [_ ->]. clear Hrun. unfold command_timed_out.
    case_match.
    + settle_frame watchdog_in_step_frame st.
    + settle_frame watchdog_in_step_frame st.
  - simplify_eq. settle_frame watchdog_in_step_frame st.
  - simplify_eq. settle_frame watchdog_in_step_frame st.
  - simplify_eq. settle_frame watchdog_in_step_frame st.
  - simplify_eq. settle_frame watchdog_in_step_frame st.
  - simplify_eq. settle_frame watchdog_in_step_frame st.
  - simplify_eq. unfold event_preload, send_async_command. simpl.
    destruct (vendor_script st);
      settle_frame watchdog_in_step_frame st.
  - simplify_eq. unfold event_postload, send_async_command. simpl.
    destruct (vendor_script st); simpl; repeat case_decide;
      settle_frame watchdog_in_step_frame st.
  - simplify_eq. unfold event_epilog, send_async_command. simpl.
    destruct (vendor_script st);
      settle_frame watchdog_in_step_frame st.
  - (* event_command_ready *)
    clear Hrun. destruct Hlock as [Hrun _].
    destruct (decide (0 < command_credits st)) as [Hpos|Hzero].
    + destruct (command_queue st) as [|w rest] eqn:Hqueue.
      * unfold event_command_ready in Hrun.
        rewrite decide_True, Hqueue in Hrun by done. done.
      * rewrite (event_command_ready_takes_head w rest) in Hrun by done.
        simplify_eq. unfold watchdog_in_step. simpl.
        rewrite armed_after_app, list_is_empty_snoc. done.
    + rewrite event_command_ready_idles in Hrun by lia. by simplify_eq.
  - (* event_packet_ready *)
    unfold event_packet_ready in Hrun.
    destruct (fixed_queue_dequeue (packet_queue st)) as [[p rest]|];
      [|done].
    simplify_eq.
    settle_frame watchdog_in_step_frame st.
  - destruct Hlock as [Hcall _]. by eapply data_ready_loop_watchdog.
  - (* transmit_fragment *)
    simplify_eq. unfold transmit_fragment, event_to_data_type.
    repeat case_decide; simpl; repeat case_match;
      settle_frame watchdog_in_step_frame st.
  - simplify_eq. settle_frame watchdog_in_step_frame st.
  - simplify_eq. settle_frame watchdog_in_step_frame st.
Qed.

(** ** Reassembly of a packet delivered in pieces *)

(** The state between two rounds of the loop, as [mid_state]. *)
Lemma mid_state_self (type : serial_data_type_t)
    (c : packet_receive_data_t) (st : hci_state) :
  incoming_of type st = Some c →
  mid_state type c (buffered type st) (alloc_script st) [] st = st.
Proof.
  intros Hc. unfold mid_state.
  assert (set_alloc_script (alloc_script st) (emits [] st) = st) as ->.
  { destruct st. unfold emits. simpl. by rewrite app_nil_r. }
  rewrite set_buffered_same. by apply store_incoming_same.
Qed.

Lemma mid_state_buffered (type : serial_data_type_t)
    (c : packet_receive_data_t) (l : list Z) (a : list bool)
    (q : list call) (st : hci_state) :
  (Z.to_nat (PACKET_TYPE_TO_INDEX type) < length (hal_rx st))%nat →
  buffered type (mid_state type c l a q st) = l.
Proof.
  intros Hs. destruct st. unfold buffered, mid_state, at_index. simpl in *.
  rewrite decide_True by apply type_index_nonneg.
  by rewrite list_lookup_insert_eq.
Qed.

Lemma mid_state_set_buffered (type : serial_data_type_t)
    (c : packet_receive_data_t) (l l' : list Z) (a : list bool)
    (q : list call) (st : hci_state) :
  set_buffered type l' (mid_state type c l a q st)
  = mid_state type c l' a q st.
Proof.
  destruct st. unfold mid_state, store_incoming, set_buffered. simpl.
  by rewrite list_insert_insert_eq.
Qed.

Lemma mid_state_incoming (type : serial_data_type_t)
    (c : packet_receive_data_t) (l : list Z) (a : list bool)
    (q : list call) (st : hci_state) :
  type ≠ DATA_TYPE_COMMAND →
  length (incoming_packets st) = INBOUND_PACKET_TYPE_COUNT →
  incoming_of type (mid_state type c l a q st) = Some c.
Proof.
  intros Htype Hlen.
  destruct (inbound_index_cases type Htype) as [Hpos Hlt].
  destruct st. unfold incoming_of, mid_state, at_index. simpl in *.
  rewrite decide_True by done.
  rewrite list_lookup_insert_eq; [done|]. by rewrite Hlen.
Qed.

Lemma mid_state_store (type : serial_data_type_t)
    (c c' : packet_receive_data_t) (l : list Z) (a : list bool)
    (q : list call) (st : hci_state) :
  store_incoming type c' (mid_state type c l a q st)
  = mid_state type c' l a q st.
Proof.
  destruct st. unfold mid_state, store_incoming. simpl.
  by rewrite list_insert_insert_eq.
Qed.

Lemma mid_state_allocation (type : serial_data_type_t)
    (c : packet_receive_data_t) (l : list Z) (a : list bool)
    (q : list call) (e : call) (st : hci_state) :
  set_alloc_script (tail (alloc_script (mid_state type c l a q st)))
    (emit e (mid_state type c l a q st))
  = mid_state type c l (tail a) (q ++ [e]) st.
Proof.
  destruct st. unfold mid_state, store_incoming, set_buffered, emit, emits.
  simpl. by rewrite app_assoc.
Qed.

Lemma mid_state_delivers (type : serial_data_type_t)
    (c : packet_receive_data_t) (chunk : list Z) (a : list bool)
    (q : list call) (st : hci_state) :
  (Z.to_nat (PACKET_TYPE_TO_INDEX type) < length (hal_rx st))%nat →
  hal_delivers type chunk (mid_state type c [] a q st)
  = mid_state type c chunk a q st.
Proof.
  intros Hs. unfold hal_delivers. rewrite mid_state_buffered by done.
  apply mid_state_set_buffered.
Qed.

Lemma read_data_buffered (type : serial_data_type_t) (max_size : Z)
    (st : hci_state) :
  (Z.to_nat (PACKET_TYPE_TO_INDEX type) < length (hal_rx st))%nat →
  read_data type max_size st
  = (UINT8 <$> take (Z.to_nat max_size) (buffered type st),
     set_buffered type (drop (Z.to_nat max_size) (buffered type st)) st).
Proof.
  intros Hs. unfold read_data, buffered, set_buffered, at_index.
  rewrite decide_True by apply type_index_nonneg.
  destruct (hal_rx st !! Z.to_nat (PACKET_TYPE_TO_INDEX type))
    as [avail|] eqn:Havail; [done|].
  apply lookup_ge_None in Havail. lia.
Qed.

(** List facts behind the stores into [preamble[]] and the buffer. *)
Lemma take_insert_snoc {A} (r l : list A) (x : A) :
  take (length r) l = r → (length r < length l)%nat →
  take (length r + 1) (<[length r := x]> l) = r ++ [x].
Proof.
  revert l. induction r as [|y r IH]; intros [|z l] Ht Hlt; simpl in *;
    try lia; [done|].
  injection Ht as -> Ht. f_equal. apply IH; [done|lia].
Qed.

Lemma body_store {A} (r k l : list A) (x : A) :
  take (length r) l = r → (length r + 1 + length k ≤ length l)%nat →
  list_inserts (length r + 1) k (<[length r := x]> l)
  = r ++ x :: k ++ drop (length r + 1 + length k) l.
Proof.
  intros Ht Hlen. rewrite <- (take_drop (length r) l) at 1. rewrite Ht.
  assert (Hd : length (drop (length r) l) = (length l - length r)%nat)
    by apply length_drop.
  assert (Hdd : drop (length r + 1 + length k) l
                = drop (1 + length k) (drop (length r) l)).
  { rewrite drop_drop. f_equal. lia. }
  rewrite Hdd.
  destruct (drop (length r) l) as [|y t]; simpl in Hd; [lia|].
  rewrite insert_app_r_alt by lia. rewrite Nat.sub_diag. simpl.
  rewrite list_inserts_app_r. f_equal. rewrite list_inserts_cons. f_equal.
  rewrite <- (take_drop (length k) t) at 1.
  apply list_inserts_0_r. rewrite length_take. lia.
Qed.

Lemma announced_body_length_take (type : serial_data_type_t) (p : list Z) :
  announced_body_length type (take (Z.to_nat (preamble_size_of type)) p)
  = announced_body_length type p.
Proof.
  destruct type; unfold announced_body_length, array_get;
    repeat (rewrite lookup_take_lt by (vm_compute; lia)); done.
Qed.

Lemma receiving_not_finished (type : serial_data_type_t) (P : list Z)
    (c : packet_receive_data_t) (r : list Z) :
  receiving type P c r → state c ≠ FINISHED.
Proof.
  unfold receiving. simpl. repeat case_decide; intros Hc.
  - by rewrite Hc.
  - destruct Hc as [Hc _]. by rewrite Hc.
  - destruct Hc as [Hc _]. by rewrite Hc.
Qed.

(** The preamble phase seen from [case PREAMBLE:]: a [BRAND_NEW] context
    enters it with a zeroed preamble. *)
Lemma receiving_preamble_view (type : serial_data_type_t) (P : list Z)
    (c : packet_receive_data_t) (r : list Z) :
  receiving type P c r →
  Z.of_nat (length r) < preamble_size_of type →
  ∃ c0,
    (∀ byte st,
       receive_byte type byte c st = receive_preamble type byte c0 st)
    ∧ state c0 = PREAMBLE
    ∧ index c0 = Z.of_nat (length r)
    ∧ bytes_remaining c0 = preamble_size_of type - Z.of_nat (length r)
    ∧ length (preamble c0) = PREAMBLE_BUFFER_SIZE
    ∧ take (length r) (preamble c0) = r
    ∧ Forall is_byte (preamble c0).
Proof.
  unfold receiving. simpl. intros Hrec Hlt.
  destruct (decide (Z.of_nat (length r) = 0)) as [Hz|Hnz].
  - destruct r; [|simpl in Hz; lia].
    exists (mk_receive PREAMBLE (preamble_size_of type)
              (replicate PREAMBLE_BUFFER_SIZE 0) 0 (buffer c)).
    split. { intros byte st. unfold receive_byte. by rewrite Hrec. }
    simpl. repeat split; try done; try lia.
    all: repeat constructor; done.
  - rewrite decide_True in Hrec by done.
    destruct Hrec as (Hs & Hi & Hb & Hl & Ht & Hf).
    exists c. split; [|done].
    intros byte st. unfold receive_byte. by rewrite Hs.
Qed.

(** A byte of the preamble that does not complete it. *)
Lemma preamble_round (type : serial_data_type_t) (P : list Z)
    (c : packet_receive_data_t) (r : list Z) (x : Z) :
  receiving type P c r →
  Z.of_nat (length r) + 1 < preamble_size_of type →
  is_byte x →
  ∃ c1,
    (∀ st, receive_byte type x c st = Some (c1, st))
    ∧ receiving type P c1 (r ++ [x]).
Proof.
  intros Hrec Hlt Hx.
  destruct (receiving_preamble_view _ _ _ _ Hrec)
    as (c0 & Hview & Hs & Hi & Hb & Hl & Ht & Hf); [lia|].
  pose proof (preamble_size_cases type) as Hps.
  unfold PREAMBLE_BUFFER_SIZE in *.
  eexists. split.
  - intros st. rewrite Hview. unfold receive_preamble.
    unfold PREAMBLE_BUFFER_SIZE.
    rewrite decide_True by lia. rewrite Hb, Hi.
    rewrite (UINT16_small (_ - 1)) by lia.
    rewrite (UINT16_small (_ + 1)) by lia.
    rewrite decide_False by lia. reflexivity.
  - unfold receiving. rewrite length_app. simpl.
    rewrite decide_False by lia. rewrite decide_True by lia.
    rewrite Hs, length_insert, Nat2Z.id.
    split; [done|]. split; [lia|]. split; [lia|]. split; [done|].
    split; [|by apply Forall_insert].
    apply take_insert_snoc; [done|lia].
Qed.

Lemma allocate_succeeds (st : hci_state) :
  head (alloc_script st) ≠ Some false →
  allocate st = (true, set_alloc_script (tail (alloc_script st)) st).
Proof. destruct st as [? ? ? ? ? ? ? ? ? [|[] al] ? ?]; done. Qed.

Lemma outbound_event_types_tag (type : serial_data_type_t) :
  default 0 (at_index outbound_event_types (PACKET_TYPE_TO_INDEX type))
  = inbound_tag type.
Proof. by destruct type. Qed.

(** The byte that completes the preamble of the packet [P]. *)
Lemma completing_round (type : serial_data_type_t) (P : list Z)
    (c : packet_receive_data_t) (r : list Z) (x : Z) (st : hci_state) :
  receiving type P c r →
  Z.of_nat (length r) + 1 = preamble_size_of type →
  wire_packet type P →
  take (Z.to_nat (preamble_size_of type)) P = r ++ [x] →
  is_byte x →
  head (alloc_script st) ≠ Some false →
  ∃ c1,
    receive_byte type x c st
    = Some (c1,
            set_alloc_script (tail (alloc_script st))
              (emit (buffer_alloc (BT_HDR_SIZE + Z.of_nat (length P))) st))
    ∧ if decide (Z.of_nat (length P) = preamble_size_of type)
      then state c1 = FINISHED
           ∧ buffer c1 = Some (mk_BT_HDR (inbound_tag type) 0 0 0 P)
           ∧ index c1 = Z.of_nat (length P)
      else receiving type P c1 (r ++ [x]).
Proof.
  intros Hrec Hlast (Hmin & Hlen & Hmax) Hpre Hx Halloc.
  destruct (receiving_preamble_view _ _ _ _ Hrec)
    as (c0 & Hview & Hs & Hi & Hb & Hl & Ht & Hf); [lia|].
  pose proof (preamble_size_cases type) as Hps.
  destruct (receive_preamble_complete type x c0
              st) as [Hbl Heq]; [lia|lia|lia|done..|].
  pose proof (body_length_announced type x c0) as Hann.
  simpl in Hann. rewrite Hann in Hbl, Heq by (done || lia).
  clear Hann. rewrite Hi, Nat2Z.id in Hbl, Heq.
  set (p := <[length r := x]> (preamble c0)) in *.
  assert (Hp : take (Z.to_nat (preamble_size_of type)) p = r ++ [x]).
  { replace (Z.to_nat (preamble_size_of type)) with (length r + 1)%nat
      by lia.
    apply take_insert_snoc; [done|]. unfold PREAMBLE_BUFFER_SIZE in Hl. lia. }
  assert (Hbody : announced_body_length type p
                  = Z.of_nat (length P) - preamble_size_of type).
  { rewrite <- announced_body_length_take, Hp, <- Hpre. lia. }
  rewrite Hbody in Hbl, Heq.
  replace (BT_HDR_SIZE + preamble_size_of type
           + (Z.of_nat (length P) - preamble_size_of type))
    with (BT_HDR_SIZE + Z.of_nat (length P)) in Heq by lia.
  rewrite allocate_succeeds in Heq by done. simpl in Heq.
  rewrite outbound_event_types_tag, Hp in Heq.
  destruct (decide (0 < Z.of_nat (length P) - preamble_size_of type))
    as [Hpos|Hzero].
  all: eexists; (split; [rewrite Hview; exact Heq|]); simpl.
  - rewrite decide_False by lia.
    unfold receiving. rewrite length_app. simpl.
    rewrite decide_False by lia. rewrite decide_False by lia.
    split; [done|]. split; [lia|]. split; [lia|].
    eexists. split; [done|]. split.
    + rewrite length_app, length_replicate, length_app. simpl. lia.
    + by apply take_app_length'; rewrite length_app.
  - rewrite decide_True by lia. split; [done|]. split; [|lia].
    do 2 f_equal. replace (Z.of_nat (length P) - preamble_size_of type)
      with 0 by lia.
    simpl. rewrite app_nil_r, <- Hpre. apply take_ge. lia.
Qed.

(** The first byte of a call in [BODY], with the bulk read that follows
    it: the HAL hands over what it has, up to the end of the packet. *)
Lemma body_round (type : serial_data_type_t) (P : list Z)
    (c : packet_receive_data_t) (r : list Z) (x : Z)
    (raw more rest : list Z) (st : hci_state) :
  receiving type P c r →
  preamble_size_of type <= Z.of_nat (length r) →
  P = r ++ x :: (UINT8 <$> raw) ++ more →
  Z.of_nat (length P) <= 65535 →
  (Z.to_nat (PACKET_TYPE_TO_INDEX type) < length (hal_rx st))%nat →
  buffered type st = raw ++ rest →
  (more ≠ [] → rest = []) →
  ∃ c1,
    receive_byte type x c st = Some (c1, set_buffered type rest st)
    ∧ if decide (more = [])
      then state c1 = FINISHED
           ∧ buffer c1 = Some (mk_BT_HDR (inbound_tag type) 0 0 0 P)
           ∧ index c1 = Z.of_nat (length P)
      else receiving type P c1 (r ++ x :: (UINT8 <$> raw)).
Proof.
  intros Hrec Hbody HP Hmax Hs Hbuf Hrest.
  pose proof (preamble_size_cases type) as Hps.
  assert (HlenP : length P
                  = (length r + 1 + length raw + length more)%nat).
  { rewrite HP, length_app. simpl. rewrite length_app, length_fmap. lia. }
  unfold receiving in Hrec. simpl in Hrec.
  rewrite decide_False in Hrec by lia. rewrite decide_False in Hrec by lia.
  destruct Hrec as (Hst & Hi & Hb & bytes & Hbytes & Hlen & Ht).
  unfold receive_byte. rewrite Hst. unfold receive_body. rewrite Hbytes.
  simpl data. rewrite decide_True by lia. rewrite Hi, Hb.
  rewrite (UINT16_small (_ + 1)) by lia.
  rewrite (UINT16_small (_ - 1)) by lia.
  rewrite read_data_buffered by done. rewrite Hbuf.
  assert (Htake : take (Z.to_nat (Z.of_nat (length P)
                                  - Z.of_nat (length r) - 1)) (raw ++ rest)
                  = raw
                ∧ drop (Z.to_nat (Z.of_nat (length P)
                                  - Z.of_nat (length r) - 1)) (raw ++ rest)
                  = rest).
  { destruct (decide (more = [])) as [->|Hmore].
    - simpl in HlenP. split.
      + apply take_app_length'. lia.
      + apply drop_app_length'. lia.
    - rewrite (Hrest Hmore), app_nil_r. split.
      + apply take_ge. lia.
      + apply drop_ge. lia. }
  destruct Htake as [-> ->].
  rewrite length_fmap, length_insert.
  rewrite decide_True by lia.
  rewrite (UINT16_small (_ + 1 + _)) by lia.
  rewrite (UINT16_small (_ - 1 - _)) by lia.
  replace (Z.to_nat (Z.of_nat (length r) + 1)) with (length r + 1)%nat
    by lia.
  rewrite Nat2Z.id.
  rewrite body_store by (rewrite ?length_fmap; done || lia).
  rewrite length_fmap.
  eexists. split; [reflexivity|].
  simpl. destruct (decide (more = [])) as [->|Hmore].
  - simpl in HlenP. rewrite decide_True by lia.
    split; [done|]. split; [|lia].
    unfold with_data. simpl. do 2 f_equal.
    rewrite drop_ge by lia. rewrite HP. by rewrite !app_nil_r.
  - assert (length more ≠ 0%nat) by by destruct more.
    rewrite decide_False by lia.
    unfold receiving. rewrite length_app. simpl. rewrite length_fmap.
    rewrite decide_False by lia. rewrite decide_False by lia.
    split; [done|]. split; [lia|]. split; [lia|].
    eexists. split; [done|]. split.
    + rewrite length_app. simpl. rewrite length_app, length_fmap, length_drop.
      lia.
    + change (r ++ x :: (UINT8 <$> raw) ++ drop (length r + 1 + length raw) bytes)
        with (r ++ (x :: (UINT8 <$> raw))
                ++ drop (length r + 1 + length raw) bytes).
      rewrite app_assoc. apply take_app_length'.
      rewrite length_app. simpl. by rewrite length_fmap.
Qed.

Lemma mid_state_stream (type : serial_data_type_t)
    (c : packet_receive_data_t) (l : list Z) (a : list bool)
    (q : list call) (st : hci_state) :
  length (hal_rx (mid_state type c l a q st)) = length (hal_rx st).
Proof. destruct st. simpl. apply length_insert. Qed.

Lemma mid_state_alloc_script (type : serial_data_type_t)
    (c : packet_receive_data_t) (l : list Z) (a : list bool)
    (q : list call) (st : hci_state) :
  alloc_script (mid_state type c l a q st) = a.
Proof. by destruct st. Qed.

(** The rounds of one call on the bytes [raw] of the packet [P], the
    context having taken in [r] before: either [raw] ends the packet
    ([more] is empty) and the call reaches the [FINISHED] block with the
    whole packet in the buffer, leaving [rest] in the HAL, or the HAL
    runs dry and the context has taken in [raw] as well.  The allocator
    is asked once, in the call that completes the preamble. *)
Lemma reassembly_rounds (type : serial_data_type_t) (P : list Z)
    (st0 : hci_state) (rest more : list Z) :
  type ≠ DATA_TYPE_COMMAND →
  length (incoming_packets st0) = INBOUND_PACKET_TYPE_COUNT →
  (Z.to_nat (PACKET_TYPE_TO_INDEX type) < length (hal_rx st0))%nat →
  wire_packet type P →
  (more ≠ [] → rest = []) →
  ∀ (raw r : list Z) (c : packet_receive_data_t) (a : list bool)
    (q : list call) (fuel : nat),
    P = r ++ (UINT8 <$> raw) ++ more →
    receiving type P c r →
    (Z.of_nat (length r) < preamble_size_of type → head a ≠ Some false) →
    (more = [] → raw ≠ []) →
    (length raw + length rest < fuel)%nat →
    let crossing :=
      bool_decide (Z.of_nat (length r) < preamble_size_of type
                   <= Z.of_nat (length r + length raw)) in
    let a' := if crossing then tail a else a in
    let q' :=
      if crossing
      then q ++ [buffer_alloc (BT_HDR_SIZE + Z.of_nat (length P))]
      else q in
    ∃ c',
      data_ready_loop fuel type (mid_state type c (raw ++ rest) a q st0)
      = (if decide (more = [])
         then packet_is_finished type c' (mid_state type c' rest a' q' st0)
         else Some (mid_state type c' rest a' q' st0))
      ∧ if decide (more = [])
        then buffer c' = Some (mk_BT_HDR (inbound_tag type) 0 0 0 P)
             ∧ index c' = Z.of_nat (length P)
        else receiving type P c' (r ++ (UINT8 <$> raw)).
Proof.
  intros Htype Hlen Hs Hwire Hrest.
  pose proof (preamble_size_cases type) as Hps.
  induction raw as [|b raw IH];
    intros r c a q fuel HP Hrec Halloc Hne Hfuel crossing a' q';
    subst crossing a' q'.
  - destruct (decide (more = [])) as [Hm|Hm]; [by destruct (Hne Hm)|].
    rewrite (Hrest Hm) in *. destruct fuel; [simpl in Hfuel; lia|].
    rewrite data_ready_loop_unfold.
    rewrite read_data_buffered by by rewrite mid_state_stream.
    rewrite mid_state_buffered by done. simpl.
    rewrite bool_decide_eq_false_2 by lia.
    exists c. split; [done|]. by rewrite app_nil_r.
  - destruct fuel; [simpl in Hfuel; lia|].
    assert (HlenP : length P
                    = (length r + 1 + length raw + length more)%nat).
    { rewrite HP, length_app. simpl. rewrite length_app, length_fmap. lia. }
    rewrite data_ready_loop_unfold.
    rewrite read_data_buffered by by rewrite mid_state_stream.
    rewrite mid_state_buffered, mid_state_set_buffered by done.
    change (Z.to_nat 1) with 1%nat. simpl take. simpl drop.
    rewrite drop_0. simpl fmap.
    rewrite mid_state_incoming by done. simpl.
    pose proof (UINT8_is_byte b) as Hx. set (x := UINT8 b) in *.
    assert (HP1 : P = (r ++ [x]) ++ (UINT8 <$> raw) ++ more).
    { rewrite HP. by rewrite <- app_assoc. }
    assert (Hlen1 : length (r ++ [x]) = (length r + 1)%nat).
    { rewrite length_app. simpl. lia. }
    assert (Hfuel1 : (length raw + length rest < fuel)%nat).
    { simpl in Hfuel. lia. }
    destruct (decide (Z.of_nat (length r) + 1 < preamble_size_of type))
      as [Hearly|Hlate];
      [|destruct (decide (Z.of_nat (length r) + 1 = preamble_size_of type))
          as [Hlast|Hbody]].
    + (* a byte inside the preamble *)
      destruct (preamble_round type P c r x Hrec Hearly Hx)
        as (c1 & Hstep & Hrec1).
      rewrite Hstep. simpl. rewrite mid_state_store.
      rewrite decide_False by by eapply receiving_not_finished.
      destruct (IH (r ++ [x]) c1 a q fuel HP1 Hrec1) as (c' & Hloop & Hpost).
      { intros _. apply Halloc. lia. }
      { intros -> ->. destruct Hwire as (Hmin & _). simpl in HlenP. lia. }
      { done. }
      exists c'. rewrite <- app_assoc in Hpost. split; [|done].
      rewrite Hloop.
      by rewrite (bool_decide_ext _
                    (Z.of_nat (length r) < preamble_size_of type
                     <= Z.of_nat (length r + length (b :: raw))))
        by (rewrite Hlen1; simpl; lia).
    + (* the byte that completes the preamble *)
      destruct (completing_round type P c r x
                  (mid_state type c (raw ++ rest) a q st0))
        as (c1 & Hstep & Hpost1); [done|done|done| |done| |].
      { rewrite HP1. apply take_app_length'. rewrite Hlen1. lia. }
      { rewrite mid_state_alloc_script. apply Halloc. lia. }
      rewrite Hstep, mid_state_allocation. simpl. rewrite mid_state_store.
      rewrite bool_decide_eq_true_2 by (simpl; lia).
      destruct (decide (Z.of_nat (length P) = preamble_size_of type))
        as [Hfin|Hmore].
      * destruct Hpost1 as (Hstate & Hbuf & Hidx).
        rewrite decide_True by done.
        assert (raw = []) as -> by (destruct raw; [done|simpl in *; lia]).
        assert (more = []) as -> by (destruct more; [done|simpl in *; lia]).
        exists c1. by rewrite !decide_True by done.
      * rewrite decide_False by by eapply receiving_not_finished.
        destruct (IH (r ++ [x]) c1 (tail a)
                    (q ++ [buffer_alloc
                             (BT_HDR_SIZE + Z.of_nat (length P))])
                    fuel HP1 Hpost1) as (c' & Hloop & Hpost).
        { rewrite Hlen1. lia. }
        { intros -> ->. simpl in HlenP. lia. }
        { done. }
        exists c'. rewrite <- app_assoc in Hpost. split; [|done].
        rewrite Hloop. by rewrite bool_decide_eq_false_2 by (rewrite Hlen1; lia).
    + (* a byte of the body, and the bulk read behind it *)
      destruct (body_round type P c r x raw more rest
                  (mid_state type c (raw ++ rest) a q st0))
        as (c1 & Hstep & Hpost1); [done|lia|done|apply Hwire| | |done|].
      { by rewrite mid_state_stream. }
      { by apply mid_state_buffered. }
      rewrite Hstep, mid_state_set_buffered. simpl. rewrite mid_state_store.
      rewrite bool_decide_eq_false_2 by lia.
      destruct (decide (more = [])) as [Hm|Hm].
      * destruct Hpost1 as (Hstate & Hbuf & Hidx).
        rewrite decide_True by done. by exists c1.
      * rewrite decide_False by by eapply receiving_not_finished.
        rewrite (Hrest Hm) in *.
        destruct fuel; [lia|]. rewrite data_ready_loop_unfold.
        rewrite read_data_buffered by by rewrite mid_state_stream.
        rewrite mid_state_buffered by done. simpl.
        by exists c1.
Qed.

(** A packet delivered in any number of pieces: the calls before the
    last run dry, the last one reaches the [FINISHED] block with the
    whole packet. *)
Lemma feed_chunks_rounds (type : serial_data_type_t) (P : list Z)
    (st0 : hci_state) (rest : list Z) :
  type ≠ DATA_TYPE_COMMAND →
  length (incoming_packets st0) = INBOUND_PACKET_TYPE_COUNT →
  (Z.to_nat (PACKET_TYPE_TO_INDEX type) < length (hal_rx st0))%nat →
  wire_packet type P →
  ∀ (chunks : list (list Z)) (last r : list Z)
    (c : packet_receive_data_t) (a : list bool) (q : list call),
    P = r ++ (UINT8 <$> concat chunks ++ last) →
    last ≠ [] →
    receiving type P c r →
    (Z.of_nat (length r) < preamble_size_of type → head a ≠ Some false) →
    let fresh := bool_decide (Z.of_nat (length r) < preamble_size_of type) in
    let a' := if fresh then tail a else a in
    let q' :=
      if fresh
      then q ++ [buffer_alloc (BT_HDR_SIZE + Z.of_nat (length P))]
      else q in
    ∃ c',
      feed_chunks type (chunks ++ [last ++ rest])
        (mid_state type c [] a q st0)
      = packet_is_finished type c' (mid_state type c' rest a' q' st0)
      ∧ buffer c' = Some (mk_BT_HDR (inbound_tag type) 0 0 0 P)
      ∧ index c' = Z.of_nat (length P).
Proof.
  intros Htype Hlen Hs Hwire.
  induction chunks as [|chunk chunks IH];
    intros last r c a q HP Hlast Hrec Halloc fresh a' q'; subst fresh a' q'.
  - simpl in *. rewrite mid_state_delivers by done.
    unfold hal_says_data_ready. rewrite mid_state_buffered by done.
    destruct (reassembly_rounds type P st0 rest [] Htype Hlen Hs Hwire)
      with (raw := last) (r := r) (c := c) (a := a) (q := q)
           (fuel := S (length (last ++ rest)))
      as (c' & Hloop & Hpost); [done|by rewrite app_nil_r|done..| |].
    { rewrite length_app. lia. }
    rewrite !decide_True in * by done.
    exists c'. split; [|done]. rewrite Hloop.
    rewrite (bool_decide_ext _
               (Z.of_nat (length r) < preamble_size_of type)).
    + match goal with |- ?m ≫= _ = _ => by destruct m end.
    + destruct Hwire as (Hmin & _). rewrite HP in Hmin.
      rewrite length_app, length_fmap in Hmin. lia.
  - simpl. rewrite mid_state_delivers by done.
    unfold hal_says_data_ready. rewrite mid_state_buffered by done.
    assert (Hmore : UINT8 <$> concat chunks ++ last ≠ []).
    { destruct last; [done|]. rewrite fmap_app. simpl.
      by destruct (UINT8 <$> concat chunks). }
    destruct (reassembly_rounds type P st0 []
                (UINT8 <$> concat chunks ++ last) Htype Hlen Hs Hwire)
      with (raw := chunk) (r := r) (c := c) (a := a) (q := q)
           (fuel := S (length chunk))
      as (c1 & Hloop & Hrec1); [done| |done..| | |].
    { rewrite HP. simpl. by rewrite <- app_assoc, fmap_app. }
    { done. }
    { simpl. lia. }
    rewrite !decide_False in * by done. rewrite app_nil_r in Hloop.
    rewrite Hloop. simpl.
    set (crossing := bool_decide _) in *.
    destruct (IH last (r ++ (UINT8 <$> chunk)) c1
                (if crossing then tail a else a)
                (if crossing
                 then q ++ [buffer_alloc
                              (BT_HDR_SIZE + Z.of_nat (length P))]
                 else q))
      as (c' & Hfeed & Hpost); [|done..| |].
    { rewrite HP. simpl. by rewrite <- app_assoc, fmap_app, app_assoc. }
    { rewrite length_app, length_fmap. intros Hlt.
      subst crossing. rewrite bool_decide_eq_false_2 by lia.
      apply Halloc. lia. }
    exists c'. split; [|done]. rewrite Hfeed.
    rewrite length_app, length_fmap. subst crossing.
    repeat case_bool_decide; try lia; done.
Qed.

Lemma mid_state_projections (type : serial_data_type_t)
    (c : packet_receive_data_t) (l : list Z) (a : list bool)
    (q : list call) (st : hci_state) :
  let mid := mid_state type c l a q st in
  trace mid = trace st ++ q
  ∧ command_credits mid = command_credits st
  ∧ commands_pending_response mid = commands_pending_response st
  ∧ command_queue mid = command_queue st
  ∧ packet_queue mid = packet_queue st
  ∧ length (incoming_packets mid) = length (incoming_packets st).
Proof. destruct st. simpl. by rewrite length_insert. Qed.

(** The end of the [FINISHED] block: the context is reset and the HAL
    told, whatever the event filter did before. *)
Lemma finished_block_projections (type : serial_data_type_t)
    (c : packet_receive_data_t) (e : call) (st : hci_state) :
  type ≠ DATA_TYPE_COMMAND →
  length (incoming_packets st) = INBOUND_PACKET_TYPE_COUNT →
  let st' := emit e (store_incoming type c st) in
  trace st' = trace st ++ [e]
  ∧ buffered type st' = buffered type st
  ∧ incoming_of type st' = Some c
  ∧ alloc_script st' = alloc_script st
  ∧ command_credits st' = command_credits st
  ∧ commands_pending_response st' = commands_pending_response st.
Proof.
  intros Htype Hlen.
  destruct (inbound_index_cases type Htype) as [Hpos Hlt].
  destruct st. unfold incoming_of, at_index. simpl in *.
  rewrite decide_True by done.
  rewrite list_lookup_insert_eq; [done|]. by rewrite Hlen.
Qed.

Lemma filter_incoming_event_passes (packet : BT_HDR) (st : hci_state) :
  ¬ intercept_code packet → filter_incoming_event packet st = (false, st).
Proof.
  intros Hcode.
  destruct (filter_incoming_event_frame packet st) as (Hret & Hsame & _).
  destruct (filter_incoming_event packet st) as [[] st1]; simpl in *.
  - destruct Hcode. by apply Hret.
  - by rewrite Hsame.
Qed.

Lemma filter_read_size_cases (packet : BT_HDR) :
  filter_read_size packet
  = if decide (event_code_of packet = HCI_COMMAND_COMPLETE_EVT) then 5%nat
    else if decide (event_code_of packet = HCI_COMMAND_STATUS_EVT) then 6%nat
    else 1%nat.
Proof. done. Qed.

Lemma filter_read_size_passed (packet : BT_HDR) :
  ¬ intercept_code packet → filter_read_size packet = 1%nat.
Proof.
  intros Hcode. rewrite filter_read_size_cases.
  rewrite decide_False by (intros ?; apply Hcode; by left).
  by rewrite decide_False by (intros ?; apply Hcode; by right).
Qed.

(** What the event filter does depends on the packet and on the
    pending-response list only: run on two states with the same list it
    returns the same, makes the same calls and leaves the same list,
    and the same credits when it keeps the event; everything else it
    leaves alone. *)
Lemma filter_incoming_event_relocates (packet : BT_HDR)
    (st1 st2 : hci_state) :
  commands_pending_response st1 = commands_pending_response st2 →
  let f1 := filter_incoming_event packet st1 in
  let f2 := filter_incoming_event packet st2 in
  f1.1 = f2.1
  ∧ (f1.1 = true → command_credits f1.2 = command_credits f2.2)
  ∧ commands_pending_response f1.2 = commands_pending_response f2.2
  ∧ (∃ q, trace f1.2 = trace st1 ++ q ∧ trace f2.2 = trace st2 ++ q
          ∧ (f1.1 = true → quiet q) ∧ (f1.1 = false → q = []))
  ∧ alloc_script f1.2 = alloc_script st1
  ∧ hal_rx f1.2 = hal_rx st1
  ∧ incoming_packets f1.2 = incoming_packets st1.
Proof.
  destruct st1 as [cr1 fw1 down1 th1 cq1 pq1 pend inc1 rx1 al1 ve1 tr1].
  destruct st2 as [cr2 fw2 down2 th2 cq2 pq2 pend2 inc2 rx2 al2 ve2 tr2].
  simpl. intros <-.
  unfold filter_incoming_event, STREAM_TO_UINT8, STREAM_SKIP_UINT8,
    STREAM_TO_UINT16, get_waiting_command.
  rewrite ?drop_drop, ?array_get_drop. simpl.
  destruct (decide (_ = HCI_COMMAND_COMPLETE_EVT)) as [Hc|Hc];
    [|destruct (decide (_ = HCI_COMMAND_STATUS_EVT)) as [Hs|Hs]].
  3: { simpl. split; [done|]. split; [done|]. split; [done|].
       split; [|done]. exists [].
       repeat split; try done; by rewrite app_nil_r. }
  all: destruct (scan_for_opcode _ pend) as [[w|] rest]; simpl.
  all: unfold intercepted, restart_command_timeout_alarm; simpl.
  all: destruct rest as [|e rest]; simpl.
  all: try destruct (complete_callback w) as [cb|] eqn:Hcb.
  all: try destruct (status_callback w) as [sb|] eqn:Hsb.
  all: repeat case_decide; simpl.
  all: try (exfalso;
            unfold HCI_COMMAND_COMPLETE_EVT, HCI_COMMAND_STATUS_EVT in *;
            intuition congruence).
  all: (split; [done|]); (split; [done|]); (split; [done|]).
  all: (split; [|done]).
  all: eexists; (split; [rewrite <- ?app_assoc; simpl; reflexivity|]).
  all: (split; [rewrite <- ?app_assoc; simpl; reflexivity|]).
  all: split; [intros _; by repeat constructor|done].
Qed.

(** The [FINISHED] block on the whole packet [P]. *)
Lemma finished_block_outcome (type : serial_data_type_t) (P rest : list Z)
    (q : list call) (a : list bool) (c : packet_receive_data_t)
    (st : hci_state) :
  type ≠ DATA_TYPE_COMMAND →
  length (incoming_packets st) = INBOUND_PACKET_TYPE_COUNT →
  (Z.to_nat (PACKET_TYPE_TO_INDEX type) < length (hal_rx st))%nat →
  P ≠ [] →
  buffer c = Some (mk_BT_HDR (inbound_tag type) 0 0 0 P) →
  index c = Z.of_nat (length P) →
  packet_handed_on type P rest q a st
    (packet_is_finished type c (mid_state type c rest a q st)).
Proof.
  intros Htype Hlen Hs Hne Hbuf Hidx. unfold packet_handed_on.
  set (packet := inbound_packet type P).
  assert (Hpacket : with_len (index c) (mk_BT_HDR (inbound_tag type) 0 0 0 P)
                    = packet) by by rewrite Hidx.
  destruct (decide (type = DATA_TYPE_EVENT
                    ∧ ¬ (filter_read_size packet <= length P)%nat))
    as [[-> Hshort]|Hbound].
  { apply (packet_is_finished_short c _ _ Hbuf). by rewrite Hpacket. }
  set (mid := mid_state type c rest a q st).
  destruct (mid_state_projections type c rest a q st)
    as (Htrace & Hcredits & Hpending & _ & _ & Hlen').
  fold mid in Htrace, Hcredits, Hpending, Hlen'.
  assert (Hrest : buffered type mid = rest) by by apply mid_state_buffered.
  assert (Hscript : alloc_script mid = a) by apply mid_state_alloc_script.
  clearbody mid.
  set (captured := emit (btsnoop_capture packet true) mid).
  set (reset := mk_receive BRAND_NEW (bytes_remaining c) (preamble c)
                  (index c) None).
  destruct (decide (type = DATA_TYPE_EVENT ∧ intercept_code packet))
    as [[-> Hcode]|Hpass].
  - (* an event the filter keeps *)
    assert (Hsize : (filter_read_size packet <= length P)%nat).
    { destruct (decide (filter_read_size packet <= length P)%nat);
        [done|]. destruct Hbound. by split. }
    destruct (filter_incoming_event_frame packet captured)
      as (Hret & _).
    destruct (filter_incoming_event_relocates packet captured st)
      as (_ & Hcr & Hpend & (handoff & Htr1 & Htr2 & Hquiet & _)
          & Hal & Hrx & Hinc); [done|].
    specialize (Hcr (proj2 Hret Hcode)).
    destruct (finished_block_projections DATA_TYPE_EVENT reset
                (hal_packet_finished DATA_TYPE_EVENT)
                (filter_incoming_event packet captured).2)
      as (Htrace' & Hbuf' & Hinc' & Halloc' & Hcredits' & Hpending');
      [done|by rewrite Hinc; simpl; rewrite Hlen'|].
    exists (emit (hal_packet_finished DATA_TYPE_EVENT)
              (store_incoming DATA_TYPE_EVENT reset
                 (filter_incoming_event packet captured).2)),
      reset, handoff.
    split.
    { unfold packet_is_finished. rewrite Hbuf, Hpacket.
      rewrite decide_False by (intros Hn; by apply Hn).
      rewrite decide_True by done. fold captured.
      destruct (filter_incoming_event packet captured)
        as [swallowed filtered].
      simpl in Hret. assert (swallowed = true) as -> by by apply Hret.
      done. }
    split. { rewrite Htrace', Htr1. simpl. rewrite Htrace.
             by rewrite <- !app_assoc. }
    split. { rewrite Hbuf'. unfold buffered. by rewrite Hrx. }
    split; [done|]. split; [done|]. split; [done|].
    split. { by rewrite Halloc', Hal. }
    split; [done|]. split; [by apply Hquiet, Hret|].
    split; [by rewrite Hcredits', Hcr|by rewrite Hpending', Hpend].
  - (* any other packet *)
    destruct (finished_block_projections type reset
                (hal_packet_finished type)
                (emit (reassemble_and_dispatch packet) captured) Htype)
      as (Htrace' & Hbuf' & Hinc' & Halloc' & Hcredits' & Hpending').
    { simpl. by rewrite Hlen'. }
    exists (emit (hal_packet_finished type)
              (store_incoming type reset
                 (emit (reassemble_and_dispatch packet) captured))),
      reset, [reassemble_and_dispatch packet].
    split.
    { unfold packet_is_finished. rewrite Hbuf, Hpacket. fold captured.
      destruct (decide (type ≠ DATA_TYPE_EVENT)) as [Hev|Hev]; [done|].
      apply dec_stable in Hev.
      assert (Hcode : ¬ intercept_code packet)
        by (intros Hcode; apply Hpass; by split).
      rewrite filter_read_size_passed by done.
      rewrite decide_True by (destruct P; [done|simpl; lia]).
      by rewrite filter_incoming_event_passes. }
    split. { rewrite Htrace'. simpl. rewrite Htrace.
             by rewrite <- !app_assoc. }
    split; [by rewrite Hbuf'|]. split; [done|]. split; [done|].
    split; [done|]. split; [by rewrite Halloc'|].
    split; [done|]. split; [by rewrite Hcredits'|by rewrite Hpending'].
Qed.

(** From a [BRAND_NEW] context and an empty HAL buffer, the pieces of a
    packet bring the last call to the [FINISHED] block. *)
Lemma feed_chunks_finish (type : serial_data_type_t)
    (chunks : list (list Z)) (last rest : list Z)
    (c : packet_receive_data_t) (st : hci_state) :
  type ≠ DATA_TYPE_COMMAND →
  length (incoming_packets st) = INBOUND_PACKET_TYPE_COUNT →
  (Z.to_nat (PACKET_TYPE_TO_INDEX type) < length (hal_rx st))%nat →
  incoming_of type st = Some c → state c = BRAND_NEW →
  buffered type st = [] →
  head (alloc_script st) ≠ Some false →
  last ≠ [] →
  wire_packet type (UINT8 <$> concat chunks ++ last) →
  let P := UINT8 <$> concat chunks ++ last in
  ∃ c',
    feed_chunks type (chunks ++ [last ++ rest]) st
    = packet_is_finished type c'
        (mid_state type c' rest (tail (alloc_script st))
           [buffer_alloc (BT_HDR_SIZE + Z.of_nat (length P))] st)
    ∧ buffer c' = Some (mk_BT_HDR (inbound_tag type) 0 0 0 P)
    ∧ index c' = Z.of_nat (length P).
Proof.
  intros Htype Hlen Hs Hc Hnew Hempty Halloc Hlast Hwire P.
  pose proof (mid_state_self type c st Hc) as Hself.
  rewrite Hempty in Hself.
  pose proof (preamble_size_cases type) as Hps.
  destruct (feed_chunks_rounds type P st rest Htype Hlen Hs Hwire
              chunks last [] c (alloc_script st) [])
    as (c' & Hfeed & Hpost); [done..|].
  rewrite Hself in Hfeed. simpl in Hfeed.
  rewrite bool_decide_eq_true_2 in Hfeed by lia.
  by exists c'.
Qed.



Lemma wire_packet_nonempty (type : serial_data_type_t) (P : list Z) :
  wire_packet type P → P ≠ [].
Proof.
  intros (Hmin & _) ->. pose proof (preamble_size_cases type). simpl in *.
  lia.
Qed.

(** X11: a packet of at most 65535 bytes that reaches the HAL in any
    number of pieces comes out whole (the 16-bit [index] cannot count a
    longer one).  From a [BRAND_NEW] context and an empty HAL buffer, the
    HAL receives the bytes of such a packet of an inbound type, its
    preamble followed by the body it announces, piece by piece, the
    last piece possibly followed by bytes of the next packet, and calls
    [hal_says_data_ready] after each piece.  If the allocation succeeds
    and the packet is not an event the filter keeps, the calls succeed
    and add to the trace exactly one allocation for [BT_HDR_SIZE] + the
    packet length, one capture and one dispatch of the packet (the wire
    bytes, [len] their number, [offset] 0, the tag of the type) and one
    [packet_finished]; the bytes behind the packet stay in the HAL, the
    context is [BRAND_NEW] again, and the credits and the pending list
    are as before. *)
Theorem chunked_packet_is_reassembled (type : serial_data_type_t)
    (chunks : list (list Z)) (last rest : list Z)
    (c : packet_receive_data_t) (st : hci_state) :
  type ≠ DATA_TYPE_COMMAND →
  length (incoming_packets st) = INBOUND_PACKET_TYPE_COUNT →
  (Z.to_nat (PACKET_TYPE_TO_INDEX type) < length (hal_rx st))%nat →
  incoming_of type st = Some c → state c = BRAND_NEW →
  buffered type st = [] →
  head (alloc_script st) ≠ Some false →
  last ≠ [] →
  wire_packet type (UINT8 <$> concat chunks ++ last) →
  (type = DATA_TYPE_EVENT →
   ¬ intercept_code (inbound_packet type (UINT8 <$> concat chunks ++ last))) →
  let P := UINT8 <$> concat chunks ++ last in
  let packet := inbound_packet type P in
  ∃ st' c',
    feed_chunks type (chunks ++ [last ++ rest]) st = Some st'
    ∧ trace st'
      = trace st ++ [ buffer_alloc (BT_HDR_SIZE + Z.of_nat (length P));
                      btsnoop_capture packet true;
                      reassemble_and_dispatch packet;
                      hal_packet_finished type ]
    ∧ buffered type st' = rest
    ∧ incoming_of type st' = Some c'
    ∧ state c' = BRAND_NEW ∧ buffer c' = None
    ∧ alloc_script st' = tail (alloc_script st)
    ∧ command_credits st' = command_credits st
    ∧ commands_pending_response st' = commands_pending_response st.
Proof.
  intros Htype Hlen Hs Hc Hnew Hempty Halloc Hlast Hwire Hpass P packet.
  destruct (feed_chunks_finish type chunks last rest c st)
    as (c' & Hfeed & Hbuf & Hidx); [done..|].
  fold P in Hfeed, Hbuf, Hidx. rewrite Hfeed.
  assert (HP : P ≠ []) by by eapply wire_packet_nonempty.
  pose proof (finished_block_outcome type P rest
                [buffer_alloc (BT_HDR_SIZE + Z.of_nat (length P))]
                (tail (alloc_script st)) c' st Htype Hlen Hs HP Hbuf Hidx)
    as Hout.
  unfold packet_handed_on in Hout. fold packet in Hout.
  rewrite decide_False in Hout.
  2: { intros [Hev Hshort]. apply Hshort.
       rewrite filter_read_size_passed by by apply Hpass.
       destruct P; [done|simpl; lia]. }
  destruct Hout as (st' & c'' & handoff & -> & Htrace & Hrest & Hinc
                    & Hstate & Hnone & Hscript & Hhanded).
  rewrite decide_False in Hhanded
    by (intros [Hev Hcode]; by apply (Hpass Hev)).
  destruct Hhanded as (-> & Hcredits & Hpending).
  exists st', c''. split; [done|]. split; [by rewrite Htrace|done].
Qed.

(** ** Responses to commands, from the wire to the callback *)

Lemma scan_for_opcode_at (op : Z) (w : waiting_command_t)
    (older newer : list waiting_command_t) :
  Forall (λ e, opcode e ≠ op) older → opcode w = op →
  scan_for_opcode op (older ++ w :: newer) = (Some w, older ++ newer).
Proof.
  intros Hold Hw. induction Hold as [|e older He Hold IH]; simpl.
  - by rewrite decide_True.
  - rewrite decide_False by done. by rewrite IH.
Qed.

(** The filter on a command-complete event for which [w] is the oldest
    pending command with the opcode of the event. *)
Lemma filter_command_complete (packet : BT_HDR) (w : waiting_command_t)
    (older newer : list waiting_command_t) (st : hci_state) :
  event_code_of packet = HCI_COMMAND_COMPLETE_EVT →
  commands_pending_response st = older ++ w :: newer →
  Forall (λ e, opcode e ≠ complete_opcode_of packet) older →
  opcode w = complete_opcode_of packet →
  let st' := (filter_incoming_event packet st).2 in
  command_credits st' = complete_credits_of packet
  ∧ commands_pending_response st' = older ++ newer
  ∧ trace st'
    = trace st ++
      match complete_callback w with
      | Some cb =>
          [ call_complete_callback cb packet (context w);
            watchdog_call (older ++ newer);
            buffer_free (command w); osi_free w ]
      | None =>
          [ watchdog_call (older ++ newer);
            buffer_free packet; buffer_free (command w); osi_free w ]
      end.
Proof.
  intros Hcode Hpending Hold Hw.
  pose proof (scan_for_opcode_at _ w older newer Hold Hw) as Hscan.
  revert Hcode Hscan.
  destruct st as [cr fw down th cq pq pend inc rx al ve tr].
  simpl in Hpending. subst pend.
  unfold filter_incoming_event, event_code_of, complete_opcode_of,
    complete_credits_of, STREAM_TO_UINT8, STREAM_SKIP_UINT8,
    STREAM_TO_UINT16, get_waiting_command.
  rewrite ?drop_drop, ?array_get_drop. simpl.
  intros -> ->. simpl.
  destruct (complete_callback w) as [cb|] eqn:Hcb; settle_disposition.
Qed.

(** The same for a command-status event. *)
Lemma filter_command_status (packet : BT_HDR) (w : waiting_command_t)
    (older newer : list waiting_command_t) (st : hci_state) :
  event_code_of packet = HCI_COMMAND_STATUS_EVT →
  commands_pending_response st = older ++ w :: newer →
  Forall (λ e, opcode e ≠ status_opcode_of packet) older →
  opcode w = status_opcode_of packet →
  let st' := (filter_incoming_event packet st).2 in
  command_credits st' = status_credits_of packet
  ∧ commands_pending_response st' = older ++ newer
  ∧ trace st'
    = trace st ++
      match status_callback w with
      | Some cb =>
          [ call_status_callback cb (status_status_of packet) (command w)
              (context w);
            watchdog_call (older ++ newer);
            buffer_free packet; osi_free w ]
      | None =>
          [ watchdog_call (older ++ newer);
            buffer_free packet; buffer_free (command w); osi_free w ]
      end.
Proof.
  intros Hcode Hpending Hold Hw.
  pose proof (scan_for_opcode_at _ w older newer Hold Hw) as Hscan.
  revert Hcode Hscan.
  destruct st as [cr fw down th cq pq pend inc rx al ve tr].
  simpl in Hpending. subst pend.
  unfold filter_incoming_event, event_code_of, status_opcode_of,
    status_credits_of, status_status_of, STREAM_TO_UINT8, STREAM_SKIP_UINT8,
    STREAM_TO_UINT16, get_waiting_command.
  rewrite ?drop_drop, ?array_get_drop. simpl.
  intros -> ->. simpl.
  destruct (status_callback w) as [cb|] eqn:Hsb; settle_disposition.
Qed.

(** An event the filter keeps, of at least the bytes it reads, delivered
    in pieces: the last call leaves what the filter leaves when run on
    the whole event, between the capture and the [packet_finished]. *)
Lemma intercepted_event_delivery (chunks : list (list Z))
    (last rest : list Z) (c : packet_receive_data_t) (st : hci_state) :
  length (incoming_packets st) = INBOUND_PACKET_TYPE_COUNT →
  (Z.to_nat (PACKET_TYPE_TO_INDEX DATA_TYPE_EVENT) < length (hal_rx st))%nat →
  incoming_of DATA_TYPE_EVENT st = Some c → state c = BRAND_NEW →
  buffered DATA_TYPE_EVENT st = [] →
  head (alloc_script st) ≠ Some false →
  last ≠ [] →
  wire_packet DATA_TYPE_EVENT (UINT8 <$> concat chunks ++ last) →
  let P := UINT8 <$> concat chunks ++ last in
  let packet := inbound_packet DATA_TYPE_EVENT P in
  intercept_code packet →
  (filter_read_size packet <= length P)%nat →
  ∃ st' handoff,
    feed_chunks DATA_TYPE_EVENT (chunks ++ [last ++ rest]) st = Some st'
    ∧ trace st'
      = trace st
        ++ [ buffer_alloc (BT_HDR_SIZE + Z.of_nat (length P));
             btsnoop_capture packet true ]
        ++ handoff ++ [hal_packet_finished DATA_TYPE_EVENT]
    ∧ buffered DATA_TYPE_EVENT st' = rest
    ∧ let filtered := (filter_incoming_event packet st).2 in
      trace filtered = trace st ++ handoff
      ∧ command_credits st' = command_credits filtered
      ∧ commands_pending_response st' = commands_pending_response filtered.
Proof.
  intros Hlen Hs Hc Hnew Hempty Halloc Hlast Hwire P packet Hcode Hsize.
  destruct (feed_chunks_finish DATA_TYPE_EVENT chunks last rest c st)
    as (c' & Hfeed & Hbuf & Hidx); [done..|].
  fold P in Hfeed, Hbuf, Hidx. rewrite Hfeed.
  assert (HP : P ≠ []) by by eapply wire_packet_nonempty.
  pose proof (finished_block_outcome DATA_TYPE_EVENT P rest
                [buffer_alloc (BT_HDR_SIZE + Z.of_nat (length P))]
                (tail (alloc_script st)) c' st) as Hout.
  unfold packet_handed_on in Hout. fold packet in Hout.
  rewrite decide_False in Hout by (by intros [_ Hshort]).
  destruct Hout as (st' & c'' & handoff & -> & Htrace & Hrest & _ & _ & _
                    & _ & Hhanded); [done..|].
  rewrite decide_True in Hhanded by done.
  destruct Hhanded as (Hfiltered & _ & Hcredits & Hpending).
  exists st', handoff. split; [done|].
  split; [by rewrite Htrace|]. split; [done|]. simpl. done.
Qed.

(** X12: a command-complete event, from the wire to the callback.  The
    event has at least the five bytes the filter reads (code, length,
    credits, opcode) and reaches the HAL in any number of pieces; the
    allocation of its buffer succeeds; [w] is the oldest pending command
    with the opcode the event names.  After the last
    call of [hal_says_data_ready] the credit counter is the credit byte
    of the event, [w] has left the pending list, whose other entries
    keep their order, and the trace has grown by the allocation, the
    capture, the complete-callback of [w] on the whole event with the
    context of [w] (or the release of the event when [w] has none), the
    watchdog set for the entries left, the release of the command and
    of [w], and the [packet_finished]: the event is not dispatched to
    the upper layers. *)
Theorem command_complete_round_trip (chunks : list (list Z))
    (last rest : list Z) (c : packet_receive_data_t)
    (w : waiting_command_t) (older newer : list waiting_command_t)
    (st : hci_state) :
  length (incoming_packets st) = INBOUND_PACKET_TYPE_COUNT →
  (Z.to_nat (PACKET_TYPE_TO_INDEX DATA_TYPE_EVENT) < length (hal_rx st))%nat →
  incoming_of DATA_TYPE_EVENT st = Some c → state c = BRAND_NEW →
  buffered DATA_TYPE_EVENT st = [] →
  head (alloc_script st) ≠ Some false →
  last ≠ [] →
  wire_packet DATA_TYPE_EVENT (UINT8 <$> concat chunks ++ last) →
  (5 <= length (UINT8 <$> concat chunks ++ last))%nat →
  let P := UINT8 <$> concat chunks ++ last in
  let packet := inbound_packet DATA_TYPE_EVENT P in
  event_code_of packet = HCI_COMMAND_COMPLETE_EVT →
  commands_pending_response st = older ++ w :: newer →
  Forall (λ e, opcode e ≠ complete_opcode_of packet) older →
  opcode w = complete_opcode_of packet →
  ∃ st',
    feed_chunks DATA_TYPE_EVENT (chunks ++ [last ++ rest]) st = Some st'
    ∧ command_credits st' = complete_credits_of packet
    ∧ commands_pending_response st' = older ++ newer
    ∧ buffered DATA_TYPE_EVENT st' = rest
    ∧ trace st'
      = trace st
        ++ [ buffer_alloc (BT_HDR_SIZE + Z.of_nat (length P));
             btsnoop_capture packet true ]
        ++ match complete_callback w with
           | Some cb =>
               [ call_complete_callback cb packet (context w);
                 watchdog_call (older ++ newer);
                 buffer_free (command w); osi_free w ]
           | None =>
               [ watchdog_call (older ++ newer);
                 buffer_free packet; buffer_free (command w); osi_free w ]
           end
        ++ [hal_packet_finished DATA_TYPE_EVENT].
Proof.
  intros Hlen Hs Hc Hnew Hempty Halloc Hlast Hwire Hsize P packet Hcode
    Hpending Hold Hw.
  destruct (intercepted_event_delivery chunks last rest c st)
    as (st' & handoff & Hfeed & Htrace & Hrest & Hfiltered & Hcredits'
        & Hpending'); [done..|by left| |].
  { rewrite filter_read_size_cases. fold P packet.
    by rewrite decide_True by done. }
  fold P packet in Hfeed, Htrace, Hfiltered, Hcredits', Hpending'.
  destruct (filter_command_complete packet w older newer st)
    as (Hcredits & Hpending2 & Htrace2); [done..|].
  simpl in Hcredits, Hpending2, Htrace2.
  rewrite Htrace2 in Hfiltered. apply app_inv_head in Hfiltered.
  exists st'. split; [done|]. split; [by rewrite Hcredits'|].
  split; [by rewrite Hpending'|]. split; [done|].
  rewrite Htrace, <- Hfiltered. by rewrite <- ?app_assoc.
Qed.

(** X13: a command-status event, from the wire to the callback.  The
    event has at least the six bytes the filter reads (code, length,
    status, credits, opcode) and reaches the HAL in any number of
    pieces; the allocation of its buffer succeeds; [w] is the oldest
    pending command with the opcode the event names.  Then, as for
    command-complete, with the fields of a status event: the credit
    counter is its credit byte, the status-callback of [w] gets the
    status byte, the command of [w] and its context, and then the event
    is released and the command is not; without a status-callback the
    event and the command are both released. *)
Theorem command_status_round_trip (chunks : list (list Z))
    (last rest : list Z) (c : packet_receive_data_t)
    (w : waiting_command_t) (older newer : list waiting_command_t)
    (st : hci_state) :
  length (incoming_packets st) = INBOUND_PACKET_TYPE_COUNT →
  (Z.to_nat (PACKET_TYPE_TO_INDEX DATA_TYPE_EVENT) < length (hal_rx st))%nat →
  incoming_of DATA_TYPE_EVENT st = Some c → state c = BRAND_NEW →
  buffered DATA_TYPE_EVENT st = [] →
  head (alloc_script st) ≠ Some false →
  last ≠ [] →
  wire_packet DATA_TYPE_EVENT (UINT8 <$> concat chunks ++ last) →
  (6 <= length (UINT8 <$> concat chunks ++ last))%nat →
  let P := UINT8 <$> concat chunks ++ last in
  let packet := inbound_packet DATA_TYPE_EVENT P in
  event_code_of packet = HCI_COMMAND_STATUS_EVT →
  commands_pending_response st = older ++ w :: newer →
  Forall (λ e, opcode e ≠ status_opcode_of packet) older →
  opcode w = status_opcode_of packet →
  ∃ st',
    feed_chunks DATA_TYPE_EVENT (chunks ++ [last ++ rest]) st = Some st'
    ∧ command_credits st' = status_credits_of packet
    ∧ commands_pending_response st' = older ++ newer
    ∧ buffered DATA_TYPE_EVENT st' = rest
    ∧ trace st'
      = trace st
        ++ [ buffer_alloc (BT_HDR_SIZE + Z.of_nat (length P));
             btsnoop_capture packet true ]
        ++ match status_callback w with
           | Some cb =>
               [ call_status_callback cb (status_status_of packet)
                   (command w) (context w);
                 watchdog_call (older ++ newer);
                 buffer_free packet; osi_free w ]
           | None =>
               [ watchdog_call (older ++ newer);
                 buffer_free packet; buffer_free (command w); osi_free w ]
           end
        ++ [hal_packet_finished DATA_TYPE_EVENT].
Proof.
  intros Hlen Hs Hc Hnew Hempty Halloc Hlast Hwire Hsize P packet Hcode
    Hpending Hold Hw.
  destruct (intercepted_event_delivery chunks last rest c st)
    as (st' & handoff & Hfeed & Htrace & Hrest & Hfiltered & Hcredits'
        & Hpending'); [done..|by right| |].
  { rewrite filter_read_size_cases. fold P packet.
    rewrite decide_False by (rewrite Hcode; discriminate).
    by rewrite decide_True by done. }
  fold P packet in Hfeed, Htrace, Hfiltered, Hcredits', Hpending'.
  destruct (filter_command_status packet w older newer st)
    as (Hcredits & Hpending2 & Htrace2); [done..|].
  simpl in Hcredits, Hpending2, Htrace2.
  rewrite Htrace2 in Hfiltered. apply app_inv_head in Hfiltered.
  exists st'. split; [done|]. split; [by rewrite Hcredits'|].
  split; [by rewrite Hpending'|]. split; [done|].
  rewrite Htrace, <- Hfiltered. by rewrite <- ?app_assoc.
Qed.

(** X14: one command, from [transmit_command] to its complete-callback.
    On a layer with a credit, no command queued or pending and the event
    context at rest, with the allocation of the wait entry and that of
    the event buffer succeeding and an event of at least the five bytes
    the filter reads, the command is admitted, [event_command_ready]
    dispatches it to the fragmenter and arms the watchdog, and when the
    command-complete event naming its opcode has come in, in any number
    of pieces, the callback given to [transmit_command] has been called
    once, with the whole event and the context given with the command;
    the command and its wait entry are released, the watchdog is
    cancelled, the pending list is empty and the credit counter is the
    credit byte of the event. *)
Theorem command_round_trip (r : command_request) (chunks : list (list Z))
    (last rest : list Z) (c : packet_receive_data_t) (st : hci_state) :
  0 < command_credits st →
  command_queue st = [] → commands_pending_response st = [] →
  length (incoming_packets st) = INBOUND_PACKET_TYPE_COUNT →
  (Z.to_nat (PACKET_TYPE_TO_INDEX DATA_TYPE_EVENT) < length (hal_rx st))%nat →
  incoming_of DATA_TYPE_EVENT st = Some c → state c = BRAND_NEW →
  buffered DATA_TYPE_EVENT st = [] →
  head (alloc_script st) ≠ Some false →
  head (tail (alloc_script st)) ≠ Some false →
  last ≠ [] →
  wire_packet DATA_TYPE_EVENT (UINT8 <$> concat chunks ++ last) →
  (5 <= length (UINT8 <$> concat chunks ++ last))%nat →
  let P := UINT8 <$> concat chunks ++ last in
  let packet := inbound_packet DATA_TYPE_EVENT P in
  event_code_of packet = HCI_COMMAND_COMPLETE_EVT →
  complete_opcode_of packet = opcode_of (req_command r) →
  let w := entry_of r in
  ∃ st1 st2,
    event_command_ready
      (transmit_command (req_command r) (req_complete r) (req_status r)
         (req_context r) st) = Some st1
    ∧ feed_chunks DATA_TYPE_EVENT (chunks ++ [last ++ rest]) st1 = Some st2
    ∧ commands_pending_response st1 = [w]
    ∧ command_credits st1 = command_credits st - 1
    ∧ commands_pending_response st2 = []
    ∧ command_credits st2 = complete_credits_of packet
    ∧ trace st2
      = trace st
        ++ dispatch_calls w
        ++ [ buffer_alloc (BT_HDR_SIZE + Z.of_nat (length P));
             btsnoop_capture packet true ]
        ++ match req_complete r with
           | Some cb =>
               [ call_complete_callback cb packet (req_context r);
                 alarm_cancel command_response_alarm;
                 buffer_free (command w); osi_free w ]
           | None =>
               [ alarm_cancel command_response_alarm;
                 buffer_free packet; buffer_free (command w); osi_free w ]
           end
        ++ [hal_packet_finished DATA_TYPE_EVENT].
Proof.
  intros Hcredits Hqueue Hpending Hlen Hs Hc Hnew Hempty Halloc1 Halloc2
    Hlast Hwire Hsize P packet Hcode Hop w.
  rewrite transmit_command_enqueues by done. rewrite Hqueue. simpl app.
  fold w.
  set (st0 := set_command_queue [w] _).
  rewrite (event_command_ready_takes_head w [] st0) by done.
  set (st1 := mk_state _ _ _ _ _ _ _ _ _ _ _ _).
  destruct (intercepted_event_delivery chunks last rest c st1)
    as (st2 & handoff & Hfeed & Htrace & Hrest & Hfiltered & Hcredits'
        & Hpending'); [done..|by left| |].
  { rewrite filter_read_size_cases. fold P packet.
    by rewrite decide_True by done. }
  fold P packet in Hfeed, Htrace, Hfiltered, Hcredits', Hpending'.
  destruct (filter_command_complete packet w [] [] st1)
    as (Hcredits2 & Hpending2 & Htrace2); [done| |done|done|].
  { simpl. by rewrite Hpending. }
  simpl in Hcredits2, Hpending2, Htrace2.
  rewrite Htrace2 in Hfiltered. apply app_inv_head in Hfiltered.
  exists st1, st2. split; [done|]. split; [done|].
  split. { simpl. by rewrite Hpending. }
  split; [done|].
  split; [by rewrite Hpending'|]. split; [by rewrite Hcredits'|].
  rewrite Htrace, <- Hfiltered. simpl.
  change (watchdog_call []) with (alarm_cancel command_response_alarm).
  by destruct (req_complete r); rewrite <- ?app_assoc.
Qed.

(** ** The credit counter *)

Lemma received_packet_quiet (q d : list call) :
  Forall (λ e, alloc_or_log e = true) q →
  received_packet (q ++ d) = received_packet d.
Proof. induction 1 as [|e q He _ IH]; [done|]. by destruct e. Qed.

Lemma filter_incoming_event_credits (packet : BT_HDR) (st : hci_state) :
  command_credits (filter_incoming_event packet st).2
  = credits_after_event packet (command_credits st).
Proof.
  destruct st as [cr fw down th cq pq pend inc rx al ve tr].
  unfold filter_incoming_event, credits_after_event, event_code_of,
    complete_credits_of, status_credits_of, STREAM_TO_UINT8,
    STREAM_SKIP_UINT8, STREAM_TO_UINT16, get_waiting_command.
  rewrite ?drop_drop, ?array_get_drop. simpl.
  destruct (decide (_ = HCI_COMMAND_COMPLETE_EVT));
    [|destruct (decide (_ = HCI_COMMAND_STATUS_EVT)); [|done]].
  all: destruct (scan_for_opcode _ pend) as [[w|] rest]; simpl.
  all: unfold intercepted, restart_command_timeout_alarm; simpl.
  all: repeat case_decide; repeat case_match; done.
Qed.

(** The [FINISHED] block and the credits: the packet it captures is the
    one whose credit field it takes. *)
Lemma packet_is_finished_credits_step (type : serial_data_type_t)
    (c : packet_receive_data_t) (st st' : hci_state) :
  packet_is_finished type c st = Some st' →
  ∃ delta,
    trace st' = trace st ++ delta
    ∧ credits_step (op_hal_says_data_ready type) delta
        (command_credits st) (command_credits st').
Proof.
  intros Hrun.
  apply packet_is_finished_Some in Hrun
    as (buf & handed & _ & -> & Hhanded).
  simpl in Hhanded.
  set (packet := with_len (index c) buf) in *.
  destruct Hhanded as [[Hne ->]|(-> & Hsize & ->)].
  - eexists [_; _; _]. split; [simpl; by rewrite <- !app_assoc|].
    by destruct type.
  - set (captured := emit (btsnoop_capture packet true) st).
    pose proof (filter_incoming_event_credits packet captured) as Hcredits.
    destruct (filter_incoming_event_frame packet captured)
      as (_ & _ & _ & _ & _ & q & Htrace & _).
    destruct (filter_incoming_event packet captured) as [swallowed s1].
    simpl in Hcredits, Htrace.
    destruct swallowed; simpl.
    + exists (btsnoop_capture packet true
              :: q ++ [hal_packet_finished DATA_TYPE_EVENT]).
      split; [rewrite Htrace; simpl; by rewrite <- !app_assoc|].
      simpl. by split.
    + exists (btsnoop_capture packet true
              :: q ++ [reassemble_and_dispatch packet;
                       hal_packet_finished DATA_TYPE_EVENT]).
      split; [rewrite Htrace; simpl; by rewrite <- !app_assoc|].
      simpl. by split.
Qed.

Lemma credits_step_data_ready_prefix (type : serial_data_type_t)
    (q d : list call) (old new : Z) :
  Forall (λ e, alloc_or_log e = true) q →
  credits_step (op_hal_says_data_ready type) d old new →
  credits_step (op_hal_says_data_ready type) (q ++ d) old new.
Proof. intros Hq. destruct type; simpl; by rewrite ?received_packet_quiet. Qed.

Lemma data_ready_loop_credits_step (type : serial_data_type_t) :
  ∀ fuel st st',
    data_ready_loop fuel type st = Some st' →
    ∃ delta,
      trace st' = trace st ++ delta
      ∧ credits_step (op_hal_says_data_ready type) delta
          (command_credits st) (command_credits st').
Proof.
  induction fuel as [|fuel IH]; intros st st' Hrun; [done|].
  rewrite data_ready_loop_unfold in Hrun.
  pose proof (read_data_takes type 1 st) as (_ & _ & Hst1).
  destruct (read_data type 1 st) as [[|byte chunk] st1]; simpl in Hst1.
  { simplify_eq. exists []. split; [by rewrite app_nil_r|by destruct type]. }
  destruct (incoming_of type st1) as [c|]; [|done]. simpl in Hrun.
  destruct (receive_byte type byte c st1) as [[c2 st2]|] eqn:Hrb; [|done].
  simpl in Hrun.
  pose proof (receive_byte_credits _ _ _ _ _ _ Hrb) as Hcr.
  apply receive_byte_calls in Hrb as (_ & q & Htrace & Hq).
  assert (Htr1 : trace st1 = trace st) by by rewrite Hst1.
  assert (Hcr1 : command_credits st1 = command_credits st)
    by by rewrite Hst1.
  assert (Hstep : ∃ delta,
            trace st' = trace (store_incoming type c2 st2) ++ delta
            ∧ credits_step (op_hal_says_data_ready type) delta
                (command_credits (store_incoming type c2 st2))
                (command_credits st')).
  { case_decide.
    - by eapply packet_is_finished_credits_step.
    - by apply IH. }
  destruct Hstep as (delta & Htrace' & Hstep). simpl in Htrace', Hstep.
  exists (q ++ delta). split.
  - rewrite Htrace', Htrace, Htr1. by rewrite app_assoc.
  - apply credits_step_data_ready_prefix; [done|]. by rewrite <- Hcr1, <- Hcr.
Qed.

Lemma run_op_credits_step (o : hci_op) (st st' : hci_state) :
  run_op o st = Some st' →
  credits_step o (calls_since st st')
    (command_credits st) (command_credits st').
Proof.
  intros Hrun. pose proof (run_op_credits o st st' Hrun) as Hcredits.
  pose proof (run_op_with_lock o st st' Hrun) as Hlock.
  destruct o; try done. simpl in Hlock. destruct Hlock as [Hcall _].
  apply data_ready_loop_credits_step in Hcall as (delta & Htrace & Hstep).
  unfold calls_since. by rewrite Htrace, drop_app_length.
Qed.

(** C3: [start_up] sets the credit counter to 1.  Of all operations only
    three touch it afterwards: [start_up] again, [event_command_ready],
    which lowers it by one and only when it is above 0, and
    [hal_says_data_ready] for events, and that one only by the event it
    has finished and captured in the same call: the counter becomes the
    8-bit credit field of that event if it is a command-complete (byte
    2) or a command-status (byte 3) event, a field that lies inside the
    event, and keeps its value for every other event and when no event
    was finished.  Nothing adds to it, and it is never negative in a
    session. *)
Theorem command_credits_discipline :
  (∀ st, command_credits (start_up st).2 = 1)
  ∧ (∀ o st st', run_op o st = Some st' →
       credits_step o (calls_since st st')
         (command_credits st) (command_credits st'))
  ∧ (∀ packet st,
       command_credits (filter_incoming_event packet st).2
       = credits_after_event packet (command_credits st))
  ∧ (∀ packet, 0 <= complete_credits_of packet < 256
               ∧ 0 <= status_credits_of packet < 256)
  ∧ (∀ st, in_session st → 0 <= command_credits st).
Proof.
  split; [apply start_up_credits|]. split; [apply run_op_credits_step|].
  split; [apply filter_incoming_event_credits|]. split.
  - intros packet. split; apply UINT8_is_byte.
  - intros st Hsession. induction Hsession as [st|o st st' _ IH Hrun].
    + rewrite start_up_credits. lia.
    + apply run_op_credits in Hrun. revert Hrun.
      destruct o; simpl; try (intros ->; done); try lia.
      * case_decide; lia.
      * destruct type; try (intros ->; done).
        intros [->|[field ->]]; [done|]. apply UINT8_is_byte.
Qed.

(** ** One call of [hal_says_data_ready] *)


(** ** Reassembly across a session *)

Lemma run_ops_in_session (ops : list hci_op) :
  ∀ st st', in_session st → run_ops ops st = Some st' → in_session st'.
Proof.
  induction ops as [|o ops IH]; intros st st' Hst Hrun; simpl in Hrun.
  - by simplify_eq.
  - destruct (run_op o st) as [s|] eqn:Ho; [|done]. simpl in Hrun.
    eapply IH; [|done]. by eapply session_step.
Qed.


End Further.

(** * Concrete runs of the further properties *)

Lemma ready_rounds_spend_credits_witness :
  let st := two_commands_queued in
  (2 <= length (command_queue st))%nat
  ∧ ∃ st',
      ready_rounds 2 st = Some st'
      ∧ command_credits st' = 0
      ∧ opcode <$> command_queue st' = [0x1001]
      ∧ opcode <$> commands_pending_response st' = [0x0C03].
Proof.
  intros st.
  assert (Hlen : (2 <= length (command_queue st))%nat) by (vm_compute; lia).
  split; [exact Hlen|]. eexists.
  split; [exact (ready_rounds_spend_credits 2 st Hlen)|].
  by vm_compute.
Defined.

Lemma packet_rounds_ignore_credits_witness :
  let st := two_packets_queued in
  (2 <= length (packet_queue st))%nat
  ∧ command_credits st = 0
  ∧ ∃ st',
      packet_rounds 2 st = Some st'
      ∧ packet_queue st' = []
      ∧ trace st' = concat (packet_dispatch_calls <$> sample_acl_packets).
Proof.
  intros st.
  assert (Hlen : (2 <= length (packet_queue st))%nat) by (vm_compute; lia).
  split; [exact Hlen|]. split; [reflexivity|]. eexists.
  split; [exact (packet_rounds_ignore_credits 2 st Hlen)|].
  by vm_compute.
Defined.

Lemma dispatch_then_lookup_witness :
  let st := set_command_queue [reset_entry] fresh_session in
  (0 < command_credits st ∧ command_queue st = [reset_entry])
  ∧ ∃ st1,
      event_command_ready st = Some st1
      ∧ (get_waiting_command 0x0C03 st1).1 = Some reset_entry
      ∧ commands_pending_response (get_waiting_command 0x0C03 st1).2 = [].
Proof.
  intros st. split; [by split|].
  destruct (dispatch_then_lookup 0x0C03 reset_entry [] st)
    as (st1 & Hready & Hlookup); [reflexivity..|].
  exists st1. split; [exact Hready|]. exact Hlookup.
Defined.

Lemma command_credits_fit_a_byte_witness :
  let st := answered_session in
  (in_session (H := sample_headers) st
   ∧ command_credits (start_up event_waiting_at_power_on).2 = 1
   ∧ command_credits st = 5)
  ∧ 0 <= command_credits st <= 255.
Proof.
  intros st.
  assert (Hsession : in_session (H := sample_headers) st).
  { apply (run_ops_in_session (H := sample_headers) reset_exchange
             (start_up event_waiting_at_power_on).2);
      [apply session_start|vm_compute; reflexivity]. }
  split; [split; [exact Hsession|split; vm_compute; reflexivity]|].
  exact (command_credits_fit_a_byte (H := sample_headers) st Hsession).
Defined.

Lemma failed_start_up_is_shut_down_witness :
  let st := set_alloc_script [true; true; false] power_on_state in
  (start_up st).1 = false
  ∧ has_shut_down (start_up st).2 = true
  ∧ thread (start_up st).2 = false
  ∧ shut_down (start_up st).2
    = emit (ALOG LOG_WARN "shut_down") (start_up st).2.
Proof.
  intros st.
  assert (Hfailed : (start_up st).1 = false) by reflexivity.
  split; [exact Hfailed|].
  destruct (failed_start_up_is_shut_down st Hfailed)
    as (Hdown & Hthread & _ & _ & _ & _ & Hagain).
  split; [exact Hdown|]. split; [exact Hthread|exact Hagain].
Defined.

Lemma firmware_result_is_ignored_witness :
  let st := fresh_session in
  (thread st = true ∧ has_shut_down st = false)
  ∧ firmware_config_callback false st = firmware_config_callback true st
  ∧ firmware_is_configured (firmware_config_callback false st) = true.
Proof.
  intros st. split; [by split|].
  destruct (firmware_result_is_ignored false st)
    as (Hsame & Hflag & _); [reflexivity..|].
  split; [exact Hsame|exact Hflag].
Defined.

Lemma accepted_command_is_sent_as_command_witness :
  let r := mk_request reset_command (Some 7%nat) None 42 in
  let packet := command (entry_of (H := sample_headers) r) in
  (Z.land (MSG_STACK_TO_HC_HCI_CMD (hci_headers := sample_headers))
     (MSG_EVT_MASK (hci_headers := sample_headers))
   = MSG_STACK_TO_HC_HCI_CMD (hci_headers := sample_headers)
   ∧ MSG_STACK_TO_HC_HCI_CMD (hci_headers := sample_headers)
     ≠ MSG_STACK_TO_HC_HCI_ACL (hci_headers := sample_headers)
   ∧ MSG_STACK_TO_HC_HCI_CMD (hci_headers := sample_headers)
     ≠ MSG_STACK_TO_HC_HCI_SCO (hci_headers := sample_headers))
  ∧ transmit_fragment (H := sample_headers) packet true fresh_session
    = emits [ btsnoop_capture packet false;
              hal_transmit_data (Some DATA_TYPE_COMMAND) [0x03; 0x0C; 0x00] ]
        fresh_session.
Proof.
  intros r packet. split; [by repeat split|].
  apply (accepted_command_is_sent_as_command (H := sample_headers) r true
           fresh_session); [reflexivity|discriminate|discriminate].
Defined.

Lemma watchdog_follows_pending_list_witness :
  let st := set_command_queue [reset_entry] fresh_session in
  ∃ st',
    (watchdog_in_step st
     ∧ run_op (H := sample_headers) op_event_command_ready st = Some st')
    ∧ commands_pending_response st' = [reset_entry]
    ∧ watchdog_in_step st'.
Proof.
  intros st. eexists.
  assert (Hstep : watchdog_in_step st) by reflexivity.
  split; [split; [exact Hstep|reflexivity]|].
  split; [reflexivity|].
  apply (watchdog_follows_pending_list (H := sample_headers)
           op_event_command_ready st); [exact Hstep|discriminate|reflexivity].
Defined.

Lemma acl_pieces_wire_packet :
  wire_packet DATA_TYPE_ACL (UINT8 <$> concat acl_pieces ++ acl_last_piece).
Proof. repeat split; vm_compute; congruence. Defined.

Lemma chunked_packet_is_reassembled_witness :
  let st := fresh_session in
  let P := [0x01; 0x00; 0x02; 0x00; 0x05; 0x06] in
  let packet := inbound_packet (H := sample_headers) DATA_TYPE_ACL P in
  (incoming_of DATA_TYPE_ACL st = Some zeroed_receive_data
   ∧ buffered DATA_TYPE_ACL st = []
   ∧ UINT8 <$> concat acl_pieces ++ acl_last_piece = P)
  ∧ ∃ st',
      feed_chunks (H := sample_headers) DATA_TYPE_ACL
        (acl_pieces ++ [acl_last_piece ++ acl_next_start]) st = Some st'
      ∧ trace st' = [ buffer_alloc 14; btsnoop_capture packet true;
                      reassemble_and_dispatch packet;
                      hal_packet_finished DATA_TYPE_ACL ]
      ∧ buffered DATA_TYPE_ACL st' = acl_next_start.
Proof.
  intros st P packet. split; [by repeat split|].
  destruct (chunked_packet_is_reassembled (H := sample_headers)
              DATA_TYPE_ACL acl_pieces acl_last_piece acl_next_start
              zeroed_receive_data st)
    as (st' & c' & Hfeed & Htrace & Hrest & _);
    [discriminate|reflexivity|vm_compute; lia|reflexivity|reflexivity
    |reflexivity|discriminate|discriminate|exact acl_pieces_wire_packet
    |discriminate|].
  exists st'. split; [exact Hfeed|]. split; [exact Htrace|exact Hrest].
Defined.

Lemma reset_complete_wire_packet :
  wire_packet DATA_TYPE_EVENT
    (UINT8 <$> concat reset_complete_pieces ++ reset_complete_last_piece).
Proof. repeat split; vm_compute; congruence. Defined.

Lemma command_complete_round_trip_witness :
  let st := reset_pending in
  let P := [0x0E; 0x04; 0x01; 0x03; 0x0C; 0x00] in
  let packet := inbound_packet (H := sample_headers) DATA_TYPE_EVENT P in
  (commands_pending_response st = [reset_entry]
   ∧ command_credits st = 0
   ∧ event_code_of packet = HCI_COMMAND_COMPLETE_EVT
   ∧ opcode reset_entry = complete_opcode_of packet)
  ∧ ∃ st',
      feed_chunks (H := sample_headers) DATA_TYPE_EVENT
        (reset_complete_pieces ++ [reset_complete_last_piece ++ []]) st
      = Some st'
      ∧ command_credits st' = 1
      ∧ commands_pending_response st' = []
      ∧ trace st' = [ buffer_alloc 14; btsnoop_capture packet true;
                      call_complete_callback 7%nat packet 42;
                      alarm_cancel command_response_alarm;
                      buffer_free (command reset_entry);
                      osi_free reset_entry;
                      hal_packet_finished DATA_TYPE_EVENT ].
Proof.
  intros st P packet. split; [by repeat split|].
  destruct (command_complete_round_trip (H := sample_headers)
              reset_complete_pieces reset_complete_last_piece []
              zeroed_receive_data reset_entry [] [] st)
    as (st' & Hfeed & Hcredits & Hpending & _ & Htrace);
    [reflexivity|vm_compute; lia|reflexivity|reflexivity|reflexivity
    |discriminate|discriminate|exact reset_complete_wire_packet
    |vm_compute; lia|reflexivity|reflexivity|constructor|reflexivity|].
  exists st'. split; [exact Hfeed|]. split; [exact Hcredits|].
  split; [exact Hpending|exact Htrace].
Defined.

Lemma reset_status_wire_packet :
  wire_packet DATA_TYPE_EVENT
    (UINT8 <$> concat reset_status_pieces ++ reset_status_last_piece).
Proof. repeat split; vm_compute; congruence. Defined.

Lemma command_status_round_trip_witness :
  let st := reset_pending in
  let P := [0x0F; 0x04; 0x00; 0x01; 0x03; 0x0C] in
  let packet := inbound_packet (H := sample_headers) DATA_TYPE_EVENT P in
  (commands_pending_response st = [reset_entry]
   ∧ event_code_of packet = HCI_COMMAND_STATUS_EVT
   ∧ opcode reset_entry = status_opcode_of packet
   ∧ status_callback reset_entry = None)
  ∧ ∃ st',
      feed_chunks (H := sample_headers) DATA_TYPE_EVENT
        (reset_status_pieces ++ [reset_status_last_piece ++ []]) st
      = Some st'
      ∧ command_credits st' = 1
      ∧ commands_pending_response st' = []
      ∧ trace st' = [ buffer_alloc 14; btsnoop_capture packet true;
                      alarm_cancel command_response_alarm;
                      buffer_free packet;
                      buffer_free (command reset_entry);
                      osi_free reset_entry;
                      hal_packet_finished DATA_TYPE_EVENT ].
Proof.
  intros st P packet. split; [by repeat split|].
  destruct (command_status_round_trip (H := sample_headers)
              reset_status_pieces reset_status_last_piece []
              zeroed_receive_data reset_entry [] [] st)
    as (st' & Hfeed & Hcredits & Hpending & _ & Htrace);
    [reflexivity|vm_compute; lia|reflexivity|reflexivity|reflexivity
    |discriminate|discriminate|exact reset_status_wire_packet
    |vm_compute; lia|reflexivity|reflexivity|constructor|reflexivity|].
  exists st'. split; [exact Hfeed|]. split; [exact Hcredits|].
  split; [exact Hpending|exact Htrace].
Defined.

Lemma command_round_trip_witness :
  let st := fresh_session in
  let r := mk_request reset_command (Some 7%nat) None 42 in
  let P := [0x0E; 0x04; 0x01; 0x03; 0x0C; 0x00] in
  let packet := inbound_packet (H := sample_headers) DATA_TYPE_EVENT P in
  (command_credits st = 1 ∧ command_queue st = []
   ∧ commands_pending_response st = []
   ∧ complete_opcode_of packet = opcode_of (req_command r))
  ∧ ∃ st1 st2,
      event_command_ready
        (transmit_command (H := sample_headers) (req_command r)
           (req_complete r) (req_status r) (req_context r) st) = Some st1
      ∧ feed_chunks (H := sample_headers) DATA_TYPE_EVENT
          (reset_complete_pieces ++ [reset_complete_last_piece ++ []]) st1
        = Some st2
      ∧ command_credits st1 = 0
      ∧ command_credits st2 = 1
      ∧ commands_pending_response st2 = []
      ∧ trace st2
        = [ wake_assert; fragment_and_dispatch (command reset_entry);
            transmit_done;
            alarm_set command_response_alarm COMMAND_PENDING_TIMEOUT;
            buffer_alloc 14; btsnoop_capture packet true;
            call_complete_callback 7%nat packet 42;
            alarm_cancel command_response_alarm;
            buffer_free (command reset_entry); osi_free reset_entry;
            hal_packet_finished DATA_TYPE_EVENT ].
Proof.
  intros st r P packet. split; [by repeat split|].
  destruct (command_round_trip (H := sample_headers) r
              reset_complete_pieces reset_complete_last_piece []
              zeroed_receive_data st)
    as (st1 & st2 & Hready & Hfeed & _ & Hcredits1 & Hpending & Hcredits2
        & Htrace);
    [reflexivity|reflexivity|reflexivity|reflexivity|vm_compute; lia
    |reflexivity|reflexivity|reflexivity|discriminate|discriminate
    |discriminate|exact reset_complete_wire_packet|vm_compute; lia
    |reflexivity|reflexivity|].
  exists st1, st2. split; [exact Hready|]. split; [exact Hfeed|].
  split; [exact Hcredits1|]. split; [exact Hcredits2|].
  split; [exact Hpending|exact Htrace].
Defined.



